(** * Process supervision on the Win32 API: common/exechelp-w32.c

    A shallow embedding of the command-line builder, of the legacy
    spawn/wait interface (gnupg_spawn_process, gnupg_wait_processes) and
    of the process-object interface (the gnupg_process family), with the
    properties the specification states about them.

    Conventions.  C strings are lists of characters without the
    terminating NUL; the NUL is written out where the code stores it.
    Memory written through a pointer is a list indexed by an offset, and
    a store outside the allocation is a fault.  An [int] is a [Z] wrapped
    to 32 bits, a [size_t] a [Z] wrapped to 64 bits.  Calls into the
    operating system take their answers from an explicit environment and
    leave their effects in an explicit state. *)

From Stdlib Require Import ZArith Ascii String Lia.
From stdpp Require Import base option list strings gmap.

Local Open Scope Z_scope.

(** ** Machine integers *)

Module MachInt.

Definition INT_MAX : Z := 2147483647.

(** Conversion to [int]: reduction modulo 2^32 into the signed range. *)
Definition to_int (z : Z) : Z := (z + 2147483648) mod 4294967296 - 2147483648.

(** Conversion to [size_t] (64 bits). *)
Definition to_size (z : Z) : Z := z mod 18446744073709551616.

(** Conversion of a DWORD to [unsigned long] (32 bits on this platform). *)
Definition to_dword (z : Z) : Z := z mod 4294967296.

End MachInt.

(** ** Error codes (libgpg-error) *)

Module Err.

(** The error codes this file uses; [GPG_ERR_SYSTEM e] is the code that
    libgpg-error derives from a non-zero errno value [e]. *)
Inductive gpg_err_code_t : Type :=
  | GPG_ERR_NO_ERROR
  | GPG_ERR_GENERAL
  | GPG_ERR_INV_VALUE
  | GPG_ERR_TIMEOUT
  | GPG_ERR_INV_FLAG
  | GPG_ERR_NOT_SUPPORTED
  | GPG_ERR_UNFINISHED
  | GPG_ERR_UNKNOWN_COMMAND
  | GPG_ERR_MISSING_ERRNO
  | GPG_ERR_SYSTEM (errno : Z).

#[global] Instance gpg_err_code_eq_dec : EqDecision gpg_err_code_t.
Proof. solve_decision. Defined.

(** [if (ec)] on an error code. *)
Definition is_error (ec : gpg_err_code_t) : bool :=
  match ec with GPG_ERR_NO_ERROR => false | _ => true end.

(** gpg_err_code_from_syserror: the code for the current errno, and
    GPG_ERR_MISSING_ERRNO when errno is not set; never "no error". *)
Definition gpg_err_code_from_syserror (errno : Z) : gpg_err_code_t :=
  if decide (errno = 0) then GPG_ERR_MISSING_ERRNO else GPG_ERR_SYSTEM errno.

Inductive gpg_err_source_t : Type :=
  | GPG_ERR_SOURCE_UNKNOWN
  | GPG_ERR_SOURCE_DEFAULT
  | GPG_ERR_SOURCE_OTHER (n : Z).

(** A gpg_error_t packs a source and a code. *)
Record gpg_error_t : Type := mk_error {
  err_source : gpg_err_source_t;
  err_code : gpg_err_code_t
}.

Definition no_error : gpg_error_t := mk_error GPG_ERR_SOURCE_UNKNOWN GPG_ERR_NO_ERROR.

(** gpg_err_make: the code "no error" makes the value 0 whatever the source. *)
Definition gpg_err_make (src : gpg_err_source_t) (ec : gpg_err_code_t) : gpg_error_t :=
  if is_error ec then mk_error src ec else no_error.

End Err.

(** ** The command-line builder *)

Module Cmdline.
Import MachInt Err.

Definition NUL : ascii := "000"%char.
Definition TAB : ascii := "009"%char.
Definition NEWLINE : ascii := "010"%char.
Definition VTAB : ascii := "011"%char.
Definition FORMFEED : ascii := "012"%char.
Definition SPACE : ascii := "032"%char.
Definition DQUOTE : ascii := "034"%char.

(** A C string holds no NUL before its terminator. *)
Definition c_string (s : list ascii) : Prop := NUL ∉ s.

#[global] Instance c_string_dec s : Decision (c_string s).
Proof. unfold c_string. apply _. Defined.

(** *** Memory: a buffer and an offset into it *)

(** [*p = c] at offset [p] of the allocation [buf]. *)
Definition store (buf : list ascii) (p : nat) (c : ascii) : option (list ascii) :=
  if decide (p < length buf)%nat then Some (<[p:=c]> buf) else None.

(** The C string that starts at the beginning of [buf]. *)
Fixpoint c_str (buf : list ascii) : option (list ascii) :=
  match buf with
  | [] => None
  | c :: rest => if decide (c = NUL) then Some [] else (c ::.) <$> c_str rest
  end.

(** stpcpy: copies [src] with its terminator and returns the offset of
    the terminator. *)
Fixpoint stpcpy (buf : list ascii) (p : nat) (src : list ascii)
  : option (list ascii * nat) :=
  match src with
  | [] => buf' ← store buf p NUL; Some (buf', p)
  | c :: src' => buf' ← store buf p c; stpcpy buf' (S p) src'
  end.

(** strpbrk: the offset of the first character of [s] that is in [accept]. *)
Fixpoint strpbrk (s accept : list ascii) : option nat :=
  match s with
  | [] => None
  | c :: s' => if bool_decide (c ∈ accept) then Some 0%nat else S <$> strpbrk s' accept
  end.

(** The characters that force quoting. *)
Definition quoting_chars : list ascii := [SPACE; TAB; NEWLINE; VTAB; FORMFEED; DQUOTE].

(** The quoting loop over [string]: every character is stored once, and a
    double quote is stored a second time. *)
Fixpoint copy_doubling (buf : list ascii) (p : nat) (s : list ascii)
  : option (list ascii * nat) :=
  match s with
  | [] => Some (buf, p)
  | c :: s' =>
      buf1 ← store buf p c;
      if decide (c = DQUOTE)
      then buf2 ← store buf1 (S p) c; copy_doubling buf2 (S (S p)) s'
      else copy_doubling buf1 (S p) s'
  end.

Definition build_w32_commandline_copy (buf : list ascii) (p : nat) (string : list ascii)
  : option (list ascii * nat) :=
  match string with
  | [] => stpcpy buf p [DQUOTE; DQUOTE]
  | _ =>
      if strpbrk string quoting_chars is Some _ then
        '(b1, p1) ← stpcpy buf p [DQUOTE];
        '(b2, p2) ← copy_doubling b1 p1 string;
        b3 ← store b2 p2 DQUOTE;
        b4 ← store b3 (S p2) NUL;
        Some (b4, S p2)
      else stpcpy buf p string
  end.

(** strlen, a size_t. *)
Definition strlen (s : list ascii) : Z := to_size (Z.of_nat (length s)).

(** The loop that counts the inner double quotes of [s] into the int [n];
    an increment past INT_MAX wraps around. *)
Fixpoint count_inner_quotes (n : Z) (s : list ascii) : Z :=
  match s with
  | [] => n
  | c :: s' => count_inner_quotes (if decide (c = DQUOTE) then to_int (n + 1) else n) s'
  end.

(** [n += strlen (s) + 1 + 2] followed by the loop over [s]: the sum is
    formed in size_t and converted back to int. *)
Definition count_token (n : Z) (s : list ascii) : Z :=
  count_inner_quotes (to_int (to_size (to_size n + to_size (strlen s + 1 + 2)))) s.

(** The value of [n] that is passed to xtrymalloc. *)
Definition computed_n (pgmname : list ascii) (argv : list (list ascii)) : Z :=
  to_int (foldl count_token (count_token 0 pgmname) argv + 1).

(** The loop over [argv]: a space is stored, then the argument is copied. *)
Fixpoint join_args (buf : list ascii) (p : nat) (argv : list (list ascii))
  : option (list ascii * nat) :=
  match argv with
  | [] => Some (buf, p)
  | a :: argv' =>
      buf1 ← store buf p SPACE;
      '(buf2, p2) ← build_w32_commandline_copy buf1 (S p) a;
      join_args buf2 p2 argv'
  end.

Inductive result : Type :=
  | Ok (buf : list ascii)          (* returns 0, the command line is in buf *)
  | Error (err : gpg_error_t)      (* returns the error, no command line *)
  | Fault.                         (* a store outside the allocation *)

Section Builder.

(** xtrymalloc: given the requested size, the fresh block (with
    whatever it contains) or NULL; [errno] is what a failure leaves. *)
Variable xtrymalloc : Z -> option (list ascii).
Variable errno : Z.
Variable default_errsource : gpg_err_source_t.

Definition my_error_from_syserror : gpg_error_t :=
  gpg_err_make default_errsource (gpg_err_code_from_syserror errno).

Definition build_w32_commandline (pgmname : list ascii) (argv : list (list ascii))
  : result :=
  let n := computed_n pgmname argv in
  match xtrymalloc (to_size n) with
  | None => Error my_error_from_syserror
  | Some buf =>
      match
        '(buf1, p1) ← build_w32_commandline_copy buf 0%nat pgmname;
        join_args buf1 p1 argv
      with
      | Some (buf', _) => Ok buf'
      | None => Fault
      end
  end.

End Builder.

(** An allocator that never fails and hands out blocks filled with [fill]. *)
Definition malloc_filled (fill : ascii) (size : Z) : option (list ascii) :=
  Some (replicate (Z.to_nat size) fill).

(** *** The quoting rule in the words of the specification *)

Definition needs_quoting (t : list ascii) : bool :=
  existsb (fun c => bool_decide (c ∈ quoting_chars)) t.

Definition double_quotes (t : list ascii) : list ascii :=
  flat_map (fun c => if decide (c = DQUOTE) then [DQUOTE; DQUOTE] else [c]) t.

Definition spec_token (t : list ascii) : list ascii :=
  match t with
  | [] => [DQUOTE; DQUOTE]
  | _ => if needs_quoting t then DQUOTE :: double_quotes t ++ [DQUOTE] else t
  end.

Definition spec_commandline (pgmname : list ascii) (argv : list (list ascii)) : list ascii :=
  spec_token pgmname ++ flat_map (fun a => SPACE :: spec_token a) argv.

(** The byte count as the arithmetic of the code would give it without
    wrap-around: per token its length plus 3 plus one per inner quote,
    plus one. *)
Definition token_bytes (t : list ascii) : Z :=
  Z.of_nat (length t) + 3 + Z.of_nat (length (filter (fun c => c = DQUOTE) t)).

Definition exact_n (pgmname : list ascii) (argv : list (list ascii)) : Z :=
  token_bytes pgmname + foldr (fun a acc => token_bytes a + acc) 0 argv + 1.


(** *** Vocabulary of the proofs *)

(** What a copying routine does at offset [p]: when the characters [l]
    fit it stores them there and returns the offset [back] characters
    before their end; when they do not fit, it faults. *)
Definition writes (buf : list ascii) (p : nat) (l : list ascii) (back : nat)
    (r : option (list ascii * nat)) : Prop :=
  ((p + length l <= length buf ->
      exists buf', r = Some (buf', p + length l - back)
                /\ length buf' = length buf
                /\ take (p + length l) buf' = take p buf ++ l)
   /\ (p <= length buf -> length buf < p + length l -> r = None))%nat.

Definition inner_quotes (t : list ascii) : Z :=
  Z.of_nat (length (filter (fun c => c = DQUOTE) t)).

Definition args_bytes (argv : list (list ascii)) : Z :=
  foldr (fun a acc => token_bytes a + acc) 0 argv.

(** A block that xtrymalloc returns has the size that was asked for. *)
Definition malloc_sized (xtrymalloc : Z -> option (list ascii)) : Prop :=
  forall size block, xtrymalloc size = Some block -> length block = Z.to_nat size.

(** A command line with a plain token, a token with a space, an empty
    token and a token with an inner double quote. *)
Definition sample_pgmname : list ascii := list_ascii_of_string "gpg.exe".
Definition sample_argv : list (list ascii) :=
  [list_ascii_of_string "--homedir"; list_ascii_of_string "my dir"; [];
   ["a"%char; DQUOTE; "b"%char]].

End Cmdline.

(** ** The Win32 interface *)

Module Win32.

(** A HANDLE is an integer of pointer size; -1 denotes an invalid handle. *)
Abbreviation HANDLE := Z (only parsing).
Definition INVALID_HANDLE_VALUE : HANDLE := -1.

(** What WaitForSingleObject and WaitForMultipleObjects return. *)
Inductive wait_code : Type :=
  | WAIT_OBJECT_0
  | WAIT_TIMEOUT
  | WAIT_FAILED
  | WAIT_OTHER (code : Z).

(** The open flags passed to _open_osfhandle. *)
Inductive oflag : Type := O_RDONLY | O_APPEND.

End Win32.

(** ** The process object and its operations *)

Module Process.
Import MachInt Err Win32.

Record gnupg_process : Type := mk_process {
  pgmname : string;
  terminated : bool;          (* or detached *)
  flags : Z;
  hProcess : HANDLE;
  hd_in : HANDLE;
  hd_out : HANDLE;
  hd_err : HANDLE;
  exitcode : Z
}.

Definition set_terminated (pr : gnupg_process) (b : bool) : gnupg_process :=
  mk_process (pgmname pr) b (flags pr) (hProcess pr) (hd_in pr) (hd_out pr) (hd_err pr)
    (exitcode pr).
Definition set_hProcess (pr : gnupg_process) (h : HANDLE) : gnupg_process :=
  mk_process (pgmname pr) (terminated pr) (flags pr) h (hd_in pr) (hd_out pr) (hd_err pr)
    (exitcode pr).
Definition set_hd_in (pr : gnupg_process) (h : HANDLE) : gnupg_process :=
  mk_process (pgmname pr) (terminated pr) (flags pr) (hProcess pr) h (hd_out pr) (hd_err pr)
    (exitcode pr).
Definition set_hd_out (pr : gnupg_process) (h : HANDLE) : gnupg_process :=
  mk_process (pgmname pr) (terminated pr) (flags pr) (hProcess pr) (hd_in pr) h (hd_err pr)
    (exitcode pr).
Definition set_hd_err (pr : gnupg_process) (h : HANDLE) : gnupg_process :=
  mk_process (pgmname pr) (terminated pr) (flags pr) (hProcess pr) (hd_in pr) (hd_out pr) h
    (exitcode pr).

(** The calls that leave the module, in the order they are made. *)
Inductive event : Type :=
  | Ev_pre_syscall
  | Ev_post_syscall
  | Ev_TerminateProcess (h : HANDLE) (exit_code : Z)
  | Ev_WaitForSingleObject (h : HANDLE) (infinite : bool)
  | Ev_GetExitCodeProcess (h : HANDLE)
  | Ev_open_osfhandle (h : HANDLE) (fl : oflag)
  | Ev_es_sysopen (h : HANDLE) (mode : string)
  | Ev_xfree (p : Z)
  | Ev_log_error (msg : string)
  | Ev_log_debug (msg : string).

(** The state a call works on: the process objects by address, the
    caller's result variables by address, and the calls made so far. *)
Record state : Type := mk_state {
  heap : gmap Z gnupg_process;
  mem : gmap Z Z;
  trace : list event
}.

(** The answers of the operating system and of the libraries. *)
Record os : Type := mk_os {
  pre_syscall_func : bool;                    (* is a hook installed *)
  post_syscall_func : bool;
  TerminateProcess : HANDLE -> Z -> bool;     (* TRUE on success *)
  WaitForSingleObject : HANDLE -> bool -> wait_code;
  GetExitCodeProcess : HANDLE -> option Z;    (* the exit code, or failure *)
  errno : Z;
  _open_osfhandle : HANDLE -> oflag -> Z;
  es_sysopen : HANDLE -> string -> Z
}.

(** A computation on the state that may fault (a NULL or dangling pointer
    is dereferenced). *)
Definition M (A : Type) : Type := state -> option (A * state).

Definition ret {A} (a : A) : M A := fun s => Some (a, s).

Definition bind {A B} (m : M A) (k : A -> M B) : M B :=
  fun s => match m s with Some (a, s') => k a s' | None => None end.

Declare Scope proc_scope.
Delimit Scope proc_scope with proc.
Notation "'let*' x ':=' m 'in' k" := (bind m (fun x => k))
  (at level 10, x pattern, m at level 100, k at level 200) : proc_scope.
Notation "m ;; k" := (bind m (fun _ => k))
  (at level 100, k at level 200, right associativity) : proc_scope.
Local Open Scope proc_scope.

(** [*process] *)
Definition deref (p : Z) : M gnupg_process :=
  fun s => match heap s !! p with Some pr => Some (pr, s) | None => None end.

(** [*process = pr] *)
Definition assign (p : Z) (pr : gnupg_process) : M unit :=
  fun s => match heap s !! p with
           | Some _ => Some (tt, mk_state (<[p:=pr]> (heap s)) (mem s) (trace s))
           | None => None
           end.

(** [*r = v] through a result pointer, NULL being [None]. *)
Definition poke (r : option Z) (v : Z) : M unit :=
  fun s => match r with
           | Some a => Some (tt, mk_state (heap s) (<[a:=v]> (mem s)) (trace s))
           | None => None
           end.

Definition emit (e : event) : M unit :=
  fun s => Some (tt, mk_state (heap s) (mem s) (trace s ++ [e])).

Definition xfree (p : Z) : M unit :=
  fun s => match heap s !! p with
           | Some _ => Some (tt, mk_state (delete p (heap s)) (mem s) (trace s ++ [Ev_xfree p]))
           | None => None
           end.

(** The requests of gnupg_process_ctl with their variable arguments; a
    pointer argument is the address of the caller's variable or NULL. *)
Inductive request : Type :=
  | GNUPG_PROCESS_NOP
  | GNUPG_PROCESS_GET_ID (r_id : option Z)
  | GNUPG_PROCESS_GET_EXIT_ID (r_exit_status : option Z)
  | GNUPG_PROCESS_GET_P_HANDLE (r_hProcess : option Z)
  | GNUPG_PROCESS_GET_HANDLES (r_hd_in r_hd_out r_hd_err : option Z)
  | GNUPG_PROCESS_GET_EXIT_CODE (r_exitcode : option Z)
  | GNUPG_PROCESS_KILL_WITH_EC (exit_code : Z)
  | GNUPG_PROCESS_OTHER (number : Z).

Section Operations.

Variable w : os.

Definition pre_syscall : M unit :=
  if pre_syscall_func w then emit Ev_pre_syscall else ret tt.

Definition post_syscall : M unit :=
  if post_syscall_func w then emit Ev_post_syscall else ret tt.

Definition gnupg_process_get_fds (process : Z) (flags : Z)
    (r_fd_in r_fd_out r_fd_err : option Z) : M gpg_err_code_t :=
  (if r_fd_in is Some _ then
     let* pr := deref process in
     emit (Ev_open_osfhandle (hd_in pr) O_APPEND) ;;
     poke r_fd_in (_open_osfhandle w (hd_in pr) O_APPEND) ;;
     assign process (set_hd_in pr INVALID_HANDLE_VALUE)
   else ret tt) ;;
  (if r_fd_out is Some _ then
     let* pr := deref process in
     emit (Ev_open_osfhandle (hd_out pr) O_RDONLY) ;;
     poke r_fd_out (_open_osfhandle w (hd_out pr) O_RDONLY) ;;
     assign process (set_hd_out pr INVALID_HANDLE_VALUE)
   else ret tt) ;;
  (if r_fd_err is Some _ then
     let* pr := deref process in
     emit (Ev_open_osfhandle (hd_err pr) O_RDONLY) ;;
     poke r_fd_err (_open_osfhandle w (hd_err pr) O_RDONLY) ;;
     assign process (set_hd_err pr INVALID_HANDLE_VALUE)
   else ret tt) ;;
  ret GPG_ERR_NO_ERROR.

Definition gnupg_process_get_streams (process : Z) (nonblock : bool)
    (r_fp_in r_fp_out r_fp_err : option Z) : M gpg_err_code_t :=
  (if r_fp_in is Some _ then
     let* pr := deref process in
     let mode := if nonblock then "w,nonblock"%string else "w"%string in
     emit (Ev_es_sysopen (hd_in pr) mode) ;;
     poke r_fp_in (es_sysopen w (hd_in pr) mode) ;;
     assign process (set_hd_in pr INVALID_HANDLE_VALUE)
   else ret tt) ;;
  (if r_fp_out is Some _ then
     let* pr := deref process in
     let mode := if nonblock then "r,nonblock"%string else "r"%string in
     emit (Ev_es_sysopen (hd_out pr) mode) ;;
     poke r_fp_out (es_sysopen w (hd_out pr) mode) ;;
     assign process (set_hd_out pr INVALID_HANDLE_VALUE)
   else ret tt) ;;
  (if r_fp_err is Some _ then
     let* pr := deref process in
     let mode := if nonblock then "r,nonblock"%string else "r"%string in
     emit (Ev_es_sysopen (hd_err pr) mode) ;;
     poke r_fp_err (es_sysopen w (hd_err pr) mode) ;;
     assign process (set_hd_err pr INVALID_HANDLE_VALUE)
   else ret tt) ;;
  ret GPG_ERR_NO_ERROR.

Definition process_kill (process : Z) (exit_code : Z) : M gpg_err_code_t :=
  pre_syscall ;;
  let* pr := deref process in
  emit (Ev_TerminateProcess (hProcess pr) exit_code) ;;
  let ec := if TerminateProcess w (hProcess pr) exit_code
            then gpg_err_code_from_syserror (errno w)
            else GPG_ERR_NO_ERROR in
  post_syscall ;;
  ret ec.

Definition process_vctl (process : Z) (req : request) : M gpg_err_code_t :=
  match req with
  | GNUPG_PROCESS_NOP => ret GPG_ERR_NO_ERROR
  | GNUPG_PROCESS_GET_ID r_id =>
      if r_id is Some _ then
        let* pr := deref process in
        poke r_id (to_int (hProcess pr)) ;;
        ret GPG_ERR_NO_ERROR
      else ret GPG_ERR_INV_VALUE
  | GNUPG_PROCESS_GET_EXIT_ID r_exit_status =>
      poke r_exit_status (-1) ;;
      let* pr := deref process in
      if negb (terminated pr) then ret GPG_ERR_UNFINISHED
      else if decide (hProcess pr = INVALID_HANDLE_VALUE) then ret GPG_ERR_NO_ERROR
      else
        emit (Ev_GetExitCodeProcess (hProcess pr)) ;;
        match GetExitCodeProcess w (hProcess pr) with
        | None => ret (gpg_err_code_from_syserror (errno w))
        | Some exit_code =>
            poke r_exit_status (to_int exit_code) ;;
            ret GPG_ERR_NO_ERROR
        end
  | GNUPG_PROCESS_GET_P_HANDLE r_hProcess =>
      if r_hProcess is Some _ then
        let* pr := deref process in
        poke r_hProcess (hProcess pr) ;;
        assign process (set_hProcess pr INVALID_HANDLE_VALUE) ;;
        ret GPG_ERR_NO_ERROR
      else ret GPG_ERR_INV_VALUE
  | GNUPG_PROCESS_GET_HANDLES r_hd_in r_hd_out r_hd_err =>
      (if r_hd_in is Some _ then
         let* pr := deref process in
         poke r_hd_in (hd_in pr) ;;
         assign process (set_hd_in pr INVALID_HANDLE_VALUE)
       else ret tt) ;;
      (if r_hd_out is Some _ then
         let* pr := deref process in
         poke r_hd_out (hd_out pr) ;;
         assign process (set_hd_out pr INVALID_HANDLE_VALUE)
       else ret tt) ;;
      (if r_hd_err is Some _ then
         let* pr := deref process in
         poke r_hd_err (hd_err pr) ;;
         assign process (set_hd_err pr INVALID_HANDLE_VALUE)
       else ret tt) ;;
      ret GPG_ERR_NO_ERROR
  | GNUPG_PROCESS_GET_EXIT_CODE r_exitcode =>
      let* pr := deref process in
      if negb (terminated pr) then ret GPG_ERR_UNFINISHED
      else if decide (hProcess pr = INVALID_HANDLE_VALUE) then
        poke r_exitcode (to_dword (-1)) ;;
        ret GPG_ERR_NO_ERROR
      else
        emit (Ev_GetExitCodeProcess (hProcess pr)) ;;
        match GetExitCodeProcess w (hProcess pr) with
        | None => ret (gpg_err_code_from_syserror (errno w))
        | Some exit_code =>
            poke r_exitcode exit_code ;;
            ret GPG_ERR_NO_ERROR
        end
  | GNUPG_PROCESS_KILL_WITH_EC exit_code =>
      let* pr := deref process in
      if terminated pr then ret GPG_ERR_NO_ERROR
      else if decide (hProcess pr = INVALID_HANDLE_VALUE) then ret GPG_ERR_NO_ERROR
      else process_kill process exit_code
  | GNUPG_PROCESS_OTHER _ => ret GPG_ERR_UNKNOWN_COMMAND
  end.

Definition gnupg_process_ctl (process : Z) (req : request) : M gpg_err_code_t :=
  process_vctl process req.

Definition gnupg_process_wait (process : Z) (hang : bool) : M gpg_err_code_t :=
  let* pr := deref process in
  if decide (hProcess pr = INVALID_HANDLE_VALUE) then ret GPG_ERR_NO_ERROR
  else
    pre_syscall ;;
    emit (Ev_WaitForSingleObject (hProcess pr) hang) ;;
    post_syscall ;;
    match WaitForSingleObject w (hProcess pr) hang with
    | WAIT_TIMEOUT => ret GPG_ERR_TIMEOUT
    | WAIT_FAILED =>
        emit (Ev_log_error "waiting for process to terminate failed") ;;
        ret GPG_ERR_GENERAL
    | WAIT_OBJECT_0 =>
        let* pr' := deref process in
        assign process (set_terminated pr' true) ;;
        ret GPG_ERR_NO_ERROR
    | WAIT_OTHER _ =>
        emit (Ev_log_debug "WaitForSingleObject returned unexpected code") ;;
        ret GPG_ERR_GENERAL
    end.

Definition gnupg_process_terminate (process : Z) : M gpg_err_code_t :=
  process_kill process 1.

(** [process] is the pointer argument, NULL being [None]. *)
Definition gnupg_process_release (process : option Z) : M unit :=
  match process with
  | None => ret tt
  | Some p =>
      let* pr := deref p in
      (if terminated pr then
         gnupg_process_terminate p ;;
         gnupg_process_wait p true ;;
         ret tt
       else ret tt) ;;
      xfree p
  end.

End Operations.

(** *** Handing out the stream ends *)

Inductive stream_end : Type := End_in | End_out | End_err.

Definition stream_field (e : stream_end) (pr : gnupg_process) : HANDLE :=
  match e with End_in => hd_in pr | End_out => hd_out pr | End_err => hd_err pr end.

(** The three operations that transfer stream ends to the caller. *)
Inductive hand_off : Type :=
  | By_get_fds (flags : Z)
  | By_get_streams (nonblock : bool)
  | By_get_handles.

Definition run_hand_off (w : os) (op : hand_off) (process : Z)
    (r_in r_out r_err : option Z) : M gpg_err_code_t :=
  match op with
  | By_get_fds fl => gnupg_process_get_fds w process fl r_in r_out r_err
  | By_get_streams nonblock => gnupg_process_get_streams w process nonblock r_in r_out r_err
  | By_get_handles => gnupg_process_ctl w process (GNUPG_PROCESS_GET_HANDLES r_in r_out r_err)
  end.

(** The result pointer given for a stream end. *)
Definition wanted (e : stream_end) (r_in r_out r_err : option Z) : option Z :=
  match e with End_in => r_in | End_out => r_out | End_err => r_err end.

(** What the caller receives for a stream end whose field holds [h]: the
    handle itself, or what the wrapping library call makes of it. *)
Definition handed (w : os) (op : hand_off) (e : stream_end) (h : HANDLE) : Z :=
  match op with
  | By_get_fds _ =>
      _open_osfhandle w h (match e with End_in => O_APPEND | _ => O_RDONLY end)
  | By_get_streams nonblock =>
      es_sysopen w h
        (match e, nonblock with
         | End_in, true => "w,nonblock" | End_in, false => "w"
         | _, true => "r,nonblock" | _, false => "r"
         end)%string
  | By_get_handles => h
  end.

Definition reset_if (r : option Z) (set : gnupg_process -> HANDLE -> gnupg_process)
    (pr : gnupg_process) : gnupg_process :=
  if r is Some _ then set pr INVALID_HANDLE_VALUE else pr.

Definition store_if (r : option Z) (v : Z) (m : gmap Z Z) : gmap Z Z :=
  if r is Some a then <[a:=v]> m else m.

(** The result variables are distinct from the one given for [e]. *)
Definition separate (e : stream_end) (r_in r_out r_err : option Z) : Prop :=
  forall e', e' <> e -> wanted e' r_in r_out r_err <> wanted e r_in r_out r_err.

(** *** Sample environments and objects *)

(** A system on which every call succeeds; the process has exit code 7. *)
Definition os_succeeds : os :=
  mk_os false false (fun _ _ => true) (fun _ _ => WAIT_OBJECT_0) (fun _ => Some 7) 0
    (fun h _ => h + 1000) (fun h _ => h + 2000).

(** A system on which TerminateProcess and GetExitCodeProcess fail with
    errno 5. *)
Definition os_fails : os :=
  mk_os false false (fun _ _ => false) (fun _ _ => WAIT_FAILED) (fun _ => None) 5
    (fun h _ => h + 1000) (fun h _ => h + 2000).

Definition running_process : gnupg_process :=
  mk_process "gpg" false 0 100 101 102 103 (-1).

Definition terminated_process : gnupg_process :=
  mk_process "gpg" true 0 100 101 102 103 (-1).

(** The object [pr] at address 1, nothing else. *)
Definition one_process (pr : gnupg_process) : state := mk_state {[ 1 := pr ]} ∅ [].

End Process.

(** ** The legacy wait interface: gnupg_wait_processes *)

Module Wait.
Import MachInt Err Win32.

Inductive event : Type :=
  | Ev_WaitForMultipleObjects (procs : list HANDLE) (wait_all infinite : bool)
  | Ev_GetExitCodeProcess (h : HANDLE)
  | Ev_log_wait_failed                               (* waiting ... failed *)
  | Ev_log_exit_code_failed (pid : Z)                (* error getting exit code of process *)
  | Ev_log_error_running (pgmname : string) (status : Z)   (* error running ...: exit status *)
  | Ev_log_unexpected (code : Z).                    (* ... returned unexpected code *)

(** The answers of the operating system and of the libraries. *)
Record os : Type := mk_os {
  xtrycalloc_ok : bool;
  errno : Z;
  default_errsource : gpg_err_source_t;
  WaitForMultipleObjects : list HANDLE -> bool -> bool -> wait_code;
  exit_status : HANDLE -> Z;        (* the status the process exits with *)
  query_allowed : HANDLE -> bool    (* does GetExitCodeProcess succeed on the handle *)
}.

(** GetExitCodeProcess: the exit status, or failure. *)
Definition GetExitCodeProcess (w : os) (h : HANDLE) : option Z :=
  if query_allowed w h then Some (exit_status w h) else None.

Inductive outcome : Type :=
  | Returned (err : gpg_error_t) (r_exitcodes : option (list Z)) (trace : list event)
  | Fault.                              (* an access outside one of the arrays *)

(** [r_exitcodes[i] = v] when [r_exitcodes] is not NULL. *)
Definition set_exitcode (r_exitcodes : option (list Z)) (i : nat) (v : Z)
  : option (option (list Z)) :=
  match r_exitcodes with
  | None => Some None
  | Some arr => if decide (i < length arr)%nat then Some (Some (<[i:=v]> arr)) else None
  end.

Inductive checked : Type :=
  | Loop_fault
  | Loop_invalid (r_exitcodes : option (list Z))
  | Loop_done (r_exitcodes : option (list Z)) (procs : list HANDLE).

(** The first loop, from index [i] for [n] more rounds. *)
Fixpoint check_loop (pids : list Z) (r_exitcodes : option (list Z)) (procs : list HANDLE)
    (i n : nat) : checked :=
  match n with
  | O => Loop_done r_exitcodes procs
  | S n' =>
      match set_exitcode r_exitcodes i (-1) with
      | None => Loop_fault
      | Some r1 =>
          match pids !! i with
          | None => Loop_fault
          | Some pid =>
              if decide (pid = -1) then Loop_invalid r1
              else if decide (i < length procs)%nat
                   then check_loop pids r1 (<[i:=pid]> procs) (S i) n'
                   else Loop_fault
          end
      end
  end.

Section Operations.

Variable w : os.

(** The loop after a successful wait, from index [i] for [n] more rounds. *)
Fixpoint exit_loop (pgmnames : list string) (pids : list Z) (procs : list HANDLE)
    (i n : nat) (ec : gpg_err_code_t) (r_exitcodes : option (list Z))
    (tr : list event) : option (gpg_err_code_t * option (list Z) * list event) :=
  match n with
  | O => Some (ec, r_exitcodes, tr)
  | S n' =>
      h ← procs !! i;
      match GetExitCodeProcess w h with
      | None =>
          pid ← pids !! i;
          exit_loop pgmnames pids procs (S i) n' GPG_ERR_GENERAL r_exitcodes
            (tr ++ [Ev_GetExitCodeProcess h; Ev_log_exit_code_failed (to_int pid)])
      | Some exc =>
          if decide (exc = 0) then
            r1 ← set_exitcode r_exitcodes i 0;
            exit_loop pgmnames pids procs (S i) n' ec r1
              (tr ++ [Ev_GetExitCodeProcess h])
          else
            match r_exitcodes with
            | None =>
                name ← pgmnames !! i;
                exit_loop pgmnames pids procs (S i) n' GPG_ERR_GENERAL None
                  (tr ++ [Ev_GetExitCodeProcess h; Ev_log_error_running name (to_int exc)])
            | Some _ =>
                r1 ← set_exitcode r_exitcodes i (to_int exc);
                exit_loop pgmnames pids procs (S i) n' GPG_ERR_GENERAL r1
                  (tr ++ [Ev_GetExitCodeProcess h])
            end
      end
  end.

Definition my_error_from_syserror : gpg_error_t :=
  gpg_err_make (default_errsource w) (gpg_err_code_from_syserror (errno w)).

Definition my_error (errcode : gpg_err_code_t) : gpg_error_t :=
  gpg_err_make (default_errsource w) errcode.

Definition gnupg_wait_processes (pgmnames : list string) (pids : list Z) (count : nat)
    (hang : bool) (r_exitcodes : option (list Z)) : outcome :=
  if negb (xtrycalloc_ok w) then Returned my_error_from_syserror r_exitcodes []
  else
    match check_loop pids r_exitcodes (replicate count 0) 0 count with
    | Loop_fault => Fault
    | Loop_invalid r1 => Returned (my_error GPG_ERR_INV_VALUE) r1 []
    | Loop_done r1 procs =>
        let tr := [Ev_WaitForMultipleObjects procs true hang] in
        match WaitForMultipleObjects w procs true hang with
        | WAIT_TIMEOUT =>
            Returned (gpg_err_make GPG_ERR_SOURCE_DEFAULT GPG_ERR_TIMEOUT) r1 tr
        | WAIT_FAILED =>
            Returned (gpg_err_make GPG_ERR_SOURCE_DEFAULT GPG_ERR_GENERAL) r1
              (tr ++ [Ev_log_wait_failed])
        | WAIT_OBJECT_0 =>
            match exit_loop pgmnames pids procs 0 count GPG_ERR_NO_ERROR r1 tr with
            | Some (ec, r2, tr') => Returned (gpg_err_make GPG_ERR_SOURCE_DEFAULT ec) r2 tr'
            | None => Fault
            end
        | WAIT_OTHER code =>
            Returned (gpg_err_make GPG_ERR_SOURCE_DEFAULT GPG_ERR_GENERAL) r1
              (tr ++ [Ev_log_unexpected code])
        end
    end.

Definition gnupg_wait_process (pgmname : string) (pid : Z) (hang : bool)
    (r_exitcode : option Z) : outcome :=
  gnupg_wait_processes [pgmname] [pid] 1 hang ((fun v => [v]) <$> r_exitcode).

End Operations.

(** *** Vocabulary of the properties *)

(** The array, when there is one, has [n] entries. *)
Definition sized (r_exitcodes : option (list Z)) (n : nat) : Prop :=
  forall arr, r_exitcodes = Some arr -> length arr = n.

(** No wait call was made. *)
Definition no_wait (tr : list event) : Prop :=
  forall procs wait_all infinite, Ev_WaitForMultipleObjects procs wait_all infinite ∉ tr.

(** Three processes: two exit with 0, the one with handle 200 with 3. *)
Definition os_three : os :=
  mk_os true 0 GPG_ERR_SOURCE_DEFAULT (fun _ _ _ => WAIT_OBJECT_0)
    (fun h => if decide (h = 200) then 3 else 0) (fun _ => true).

(** Every process exits with 0, but the handles do not allow the query. *)
Definition os_no_query : os :=
  mk_os true 5 GPG_ERR_SOURCE_DEFAULT (fun _ _ _ => WAIT_OBJECT_0)
    (fun _ => 0) (fun _ => false).

Definition three_names : list string := ["gpg"; "gpgsm"; "dirmngr"]%string.
Definition three_pids : list Z := [100; 200; 300].

End Wait.

(** ** The legacy spawn interface: gnupg_spawn_process *)

Module Spawn.
Import MachInt Err Win32.

(** Modelled from the spec: the header exechelp.h, which defines the
    GNUPG_SPAWN flags, is not under src/.  The specification lists
    NONBLOCK, RUN_AS_FOREGROUND, DETACHED and KEEP_STDIN, KEEP_STDOUT,
    KEEP_STDERR as independent options; they are distinct bits of the
    [flags] argument. *)
Definition GNUPG_SPAWN_NONBLOCK : Z := 16.
Definition GNUPG_SPAWN_RUN_ASFW : Z := 64.
Definition GNUPG_SPAWN_DETACHED : Z := 128.
Definition GNUPG_SPAWN_KEEP_STDIN : Z := 256.
Definition GNUPG_SPAWN_KEEP_STDOUT : Z := 512.
Definition GNUPG_SPAWN_KEEP_STDERR : Z := 1024.

Definition INHERIT_READ : Z := 1.
Definition INHERIT_WRITE : Z := 2.
Definition INHERIT_BOTH : Z := Z.lor INHERIT_READ INHERIT_WRITE.

(** [flags & bit] as a condition. *)
Definition has_flag (flags bit : Z) : bool := negb (Z.land flags bit =? 0).

(** What an open kernel handle refers to. *)
Inductive kind : Type :=
  | Std_handle                       (* a standard handle of the parent *)
  | Pipe_read
  | Pipe_write
  | Null_device (for_write : bool)
  | Process_handle
  | Thread_handle.

#[global] Instance kind_eq_dec : EqDecision kind.
Proof. solve_decision. Defined.

(** The three standard streams; they name the call sites below. *)
Inductive std_stream : Type := Stdin | Stdout | Stderr.

Inductive event : Type :=
  | Ev_log_error (msg : string)
  | Ev_log_debug (msg : string)
  | Ev_open_null (for_write : bool) (hfile : HANDLE)   (* CreateFileW on nul *)
  | Ev_es_sysopen (h : HANDLE) (mode : string)
  | Ev_CreateProcessW (hStdInput hStdOutput hStdError : HANDLE) (detached : bool)
  | Ev_AllowSetForegroundWindow
  | Ev_ResumeThread (h : HANDLE).

(** The open kernel handles, the open streams with the handle each one
    owns, the next unused handle value, and the calls made so far. *)
Record state : Type := mk_state {
  handles : gmap Z kind;
  streams : gmap Z Z;
  next : Z;
  trace : list event
}.

(** The answers of the operating system and of the libraries; where a
    call is made once per standard stream, the stream names the call. *)
Record os : Type := mk_os {
  std_input : HANDLE;                        (* GetStdHandle (STD_INPUT_HANDLE) *)
  std_output : HANDLE;
  std_error : HANDLE;
  CreatePipe_ok : std_stream -> bool;
  SetHandleInformation_ok : std_stream -> bool;
  es_sysopen_ok : std_stream -> bool;
  CreateFileW_nul_ok : std_stream -> bool;
  xtrymalloc : Z -> option (list ascii);
  errno : Z;
  default_errsource : gpg_err_source_t;
  utf8_to_wchar_ok : bool -> bool;           (* for the program name, for the command line *)
  CreateProcessW_ok : bool
}.

Definition M (A : Type) : Type := state -> A * state.

Definition ret {A} (a : A) : M A := fun s => (a, s).

Definition bind {A B} (m : M A) (k : A -> M B) : M B :=
  fun s => let (a, s') := m s in k a s'.

Declare Scope spawn_scope.
Delimit Scope spawn_scope with spawn.
Notation "'let*' x ':=' m 'in' k" := (bind m (fun x => k))
  (at level 10, x pattern, m at level 100, k at level 200) : spawn_scope.
Notation "m ;; k" := (bind m (fun _ => k))
  (at level 100, k at level 200, right associativity) : spawn_scope.
Local Open Scope spawn_scope.

Definition emit (e : event) : M unit :=
  fun s => (tt, mk_state (handles s) (streams s) (next s) (trace s ++ [e])).

(** A new kernel handle of the given kind. *)
Definition new_handle (k : kind) : M HANDLE :=
  fun s => (next s, mk_state (<[next s:=k]> (handles s)) (streams s) (next s + 1) (trace s)).

Definition CloseHandle (h : HANDLE) : M unit :=
  fun s => (tt, mk_state (delete h (handles s)) (streams s) (next s) (trace s)).

(** A new stream that owns the handle [h]. *)
Definition new_stream (h : HANDLE) : M Z :=
  fun s => (next s, mk_state (handles s) (<[next s:=h]> (streams s)) (next s + 1) (trace s)).

(** es_fclose closes the stream and the handle it owns. *)
Definition es_fclose (fp : Z) : M unit :=
  fun s => match streams s !! fp with
           | Some h => (tt, mk_state (delete h (handles s)) (delete fp (streams s))
                              (next s) (trace s))
           | None => (tt, s)
           end.

Definition when (b : bool) (m : M unit) : M unit := if b then m else ret tt.

(** What gnupg_spawn_process hands back: the error, the three stream
    results (NULL is 0) and the pid. *)
Record spawned : Type := mk_spawned {
  sp_err : gpg_error_t;
  sp_infp : Z;
  sp_outfp : Z;
  sp_errfp : Z;
  sp_pid : Z
}.

Section Operations.

Variable w : os.

(** [which] names the pipe; the result is the pair of ends, or [None]
    for the return value -1. *)
Definition create_inheritable_pipe (which : std_stream) (flags : Z)
  : M (option (HANDLE * HANDLE)) :=
  if negb (CreatePipe_ok w which) then ret None
  else
    let* r := new_handle Pipe_read in
    let* wr := new_handle Pipe_write in
    if (Z.land flags INHERIT_READ =? 0) && negb (SetHandleInformation_ok w which)
       || (Z.land flags INHERIT_WRITE =? 0) && negb (SetHandleInformation_ok w which)
    then
      emit (Ev_log_error "SetHandleInformation failed") ;;
      CloseHandle r ;;
      CloseHandle wr ;;
      ret None
    else ret (Some (r, wr)).

Definition w32_open_null (which : std_stream) (for_write : bool) : M HANDLE :=
  if CreateFileW_nul_ok w which then
    let* hfile := new_handle (Null_device for_write) in
    emit (Ev_open_null for_write hfile) ;;
    ret hfile
  else
    emit (Ev_open_null for_write INVALID_HANDLE_VALUE) ;;
    emit (Ev_log_debug "can't open 'nul'") ;;
    ret INVALID_HANDLE_VALUE.

(** es_sysopen on a handle: the new stream, or NULL. *)
Definition es_sysopen (which : std_stream) (h : HANDLE) (mode : string) : M Z :=
  emit (Ev_es_sysopen h mode) ;;
  if es_sysopen_ok w which then new_stream h else ret 0.

Definition my_error (errcode : gpg_err_code_t) : gpg_error_t :=
  gpg_err_make (default_errsource w) errcode.

Definition syserror : gpg_error_t :=
  gpg_err_make (default_errsource w) (gpg_err_code_from_syserror (errno w)).

Definition failed (err : gpg_error_t) : M (option spawned) :=
  ret (Some (mk_spawned err 0 0 0 (-1))).

(** The unwinding of one pipe whose caller end may be wrapped in [fp]:
    the stream if there is one, else the caller end; then the child end. *)
Definition close_stream_or_handle (fp : Z) (caller_end : HANDLE) : M unit :=
  if negb (fp =? 0) then es_fclose fp
  else when (negb (caller_end =? INVALID_HANDLE_VALUE)) (CloseHandle caller_end).

Definition close_if_valid (h : HANDLE) : M unit :=
  when (negb (h =? INVALID_HANDLE_VALUE)) (CloseHandle h).

Definition gnupg_spawn_process (pgmname : list ascii) (argv : list (list ascii))
    (flags : Z) (r_infp r_outfp r_errfp : bool) : M (option spawned) :=
  let errsource := default_errsource w in
  let nonblock := has_flag flags GNUPG_SPAWN_NONBLOCK in
  (* stdin pipe: inpipe[0] is the child's end, inpipe[1] the caller's *)
  let* in_res :=
    (if r_infp then
       let* p := create_inheritable_pipe Stdin INHERIT_READ in
       match p with
       | None =>
           emit (Ev_log_error "error creating a pipe") ;;
           ret (inl (gpg_err_make errsource GPG_ERR_GENERAL))
       | Some (rd, wr) =>
           let* infp := es_sysopen Stdin wr (if nonblock then "w,nonblock" else "w") in
           if infp =? 0 then
             emit (Ev_log_error "error creating a stream for a pipe") ;;
             CloseHandle rd ;; CloseHandle wr ;;
             ret (inl syserror)
           else ret (inr (rd, wr, infp))
       end
     else ret (inr (INVALID_HANDLE_VALUE, INVALID_HANDLE_VALUE, 0))) in
  match in_res with
  | inl err => failed err
  | inr (inpipe0, inpipe1, infp) =>
  (* stdout pipe: outpipe[0] is the caller's end, outpipe[1] the child's *)
  let* out_res :=
    (if r_outfp then
       let* p := create_inheritable_pipe Stdout INHERIT_WRITE in
       match p with
       | None =>
           emit (Ev_log_error "error creating a pipe") ;;
           ret (inl (gpg_err_make errsource GPG_ERR_GENERAL))
       | Some (rd, wr) =>
           let* outfp := es_sysopen Stdout rd (if nonblock then "r,nonblock" else "r") in
           if outfp =? 0 then
             emit (Ev_log_error "error creating a stream for a pipe") ;;
             CloseHandle rd ;; CloseHandle wr ;;
             close_stream_or_handle infp inpipe1 ;;
             close_if_valid inpipe0 ;;
             ret (inl syserror)
           else ret (inr (rd, wr, outfp))
       end
     else ret (inr (INVALID_HANDLE_VALUE, INVALID_HANDLE_VALUE, 0))) in
  match out_res with
  | inl err => failed err
  | inr (outpipe0, outpipe1, outfp) =>
  (* stderr pipe *)
  let* err_res :=
    (if r_errfp then
       let* p := create_inheritable_pipe Stderr INHERIT_WRITE in
       match p with
       | None =>
           emit (Ev_log_error "error creating a pipe") ;;
           ret (inl (gpg_err_make errsource GPG_ERR_GENERAL))
       | Some (rd, wr) =>
           let* errfp := es_sysopen Stderr rd (if nonblock then "r,nonblock" else "r") in
           if errfp =? 0 then
             emit (Ev_log_error "error creating a stream for a pipe") ;;
             CloseHandle rd ;; CloseHandle wr ;;
             close_stream_or_handle outfp outpipe0 ;;
             close_if_valid outpipe1 ;;
             close_stream_or_handle infp inpipe1 ;;
             close_if_valid inpipe0 ;;
             ret (inl syserror)
           else ret (inr (rd, wr, errfp))
       end
     else ret (inr (INVALID_HANDLE_VALUE, INVALID_HANDLE_VALUE, 0))) in
  match err_res with
  | inl err => failed err
  | inr (errpipe0, errpipe1, errfp) =>
  (* Build the command line. *)
  match Cmdline.build_w32_commandline (xtrymalloc w) (errno w) (default_errsource w)
          pgmname argv with
  | Cmdline.Fault => ret None
  | Cmdline.Error err => failed err
  | Cmdline.Ok cmdline =>
  let* nullhd0 :=
    (if inpipe0 =? INVALID_HANDLE_VALUE then
       if has_flag flags GNUPG_SPAWN_KEEP_STDIN then ret (std_input w)
       else w32_open_null Stdin false
     else ret INVALID_HANDLE_VALUE) in
  let* nullhd1 :=
    (if outpipe1 =? INVALID_HANDLE_VALUE then
       if has_flag flags GNUPG_SPAWN_KEEP_STDOUT then ret (std_output w)
       else w32_open_null Stdout true
     else ret INVALID_HANDLE_VALUE) in
  let* nullhd2 :=
    (if errpipe1 =? INVALID_HANDLE_VALUE then
       if has_flag flags GNUPG_SPAWN_KEEP_STDOUT then ret (std_error w)
       else w32_open_null Stderr true
     else ret INVALID_HANDLE_VALUE) in
  let hStdInput := if inpipe0 =? INVALID_HANDLE_VALUE then nullhd0 else inpipe0 in
  let hStdOutput := if outpipe1 =? INVALID_HANDLE_VALUE then nullhd1 else outpipe1 in
  let hStdError := if errpipe1 =? INVALID_HANDLE_VALUE then nullhd2 else errpipe1 in
  let detached := has_flag flags GNUPG_SPAWN_DETACHED in
  let wpgmname := utf8_to_wchar_ok w false in
  let wcmdline := wpgmname && utf8_to_wchar_ok w true in
  let* rc :=
    (if negb wpgmname then ret false
     else if negb wcmdline then ret false
     else emit (Ev_CreateProcessW hStdInput hStdOutput hStdError detached) ;;
          ret (CreateProcessW_ok w)) in
  if negb rc then
    emit (Ev_log_error (if negb wpgmname || negb wcmdline
                        then "CreateProcess failed (utf8_to_wchar)"
                        else "CreateProcess failed")) ;;
    (if negb (infp =? 0) then es_fclose infp
     else when (negb (inpipe1 =? INVALID_HANDLE_VALUE)) (CloseHandle outpipe1)) ;;
    close_if_valid inpipe0 ;;
    close_stream_or_handle outfp outpipe0 ;;
    close_if_valid outpipe1 ;;
    close_stream_or_handle errfp errpipe0 ;;
    close_if_valid errpipe1 ;;
    failed (gpg_err_make errsource GPG_ERR_GENERAL)
  else
    let* hProcess := new_handle Process_handle in
    let* hThread := new_handle Thread_handle in
    (* Close the inherited handles to the null device. *)
    close_if_valid nullhd0 ;;
    close_if_valid nullhd1 ;;
    close_if_valid nullhd2 ;;
    (* Close the inherited ends of the pipes. *)
    close_if_valid inpipe0 ;;
    close_if_valid outpipe1 ;;
    close_if_valid errpipe1 ;;
    when (has_flag flags GNUPG_SPAWN_RUN_ASFW) (emit Ev_AllowSetForegroundWindow) ;;
    emit (Ev_ResumeThread hThread) ;;
    CloseHandle hThread ;;
    ret (Some (mk_spawned no_error
                 (if r_infp then infp else 0)
                 (if r_outfp then outfp else 0)
                 (if r_errfp then errfp else 0)
                 (to_int hProcess)))
  end end end end.

End Operations.

(** *** Vocabulary of the properties *)

(** The handles and streams that are open after a call and were not open
    before it. *)
Definition leaked_handles (before after : state) : list (Z * kind) :=
  map_to_list (filter (fun hk => handles before !! hk.1 = None) (handles after)).

Definition leaked_streams (before after : state) : list (Z * Z) :=
  map_to_list (filter (fun fh => streams before !! fh.1 = None) (streams after)).

(** The standard handles the child was created with. *)
Fixpoint child_std_handles (tr : list event) : option (HANDLE * HANDLE * HANDLE) :=
  match tr with
  | [] => None
  | Ev_CreateProcessW hin hout herr _ :: _ => Some (hin, hout, herr)
  | _ :: tr' => child_std_handles tr'
  end.

(** *** Sample environments *)

(** The parent has the standard handles 1, 2 and 3; fresh handles start
    at 100. *)
Definition start : state :=
  mk_state {[ 1 := Std_handle; 2 := Std_handle; 3 := Std_handle ]} ∅ 100 [].

(** Every call succeeds. *)
Definition os_ok : os :=
  mk_os 1 2 3 (fun _ => true) (fun _ => true) (fun _ => true) (fun _ => true)
    (Cmdline.malloc_filled "x") 0 GPG_ERR_SOURCE_DEFAULT (fun _ => true) true.

(** Memory for the command line cannot be allocated. *)
Definition os_no_memory : os :=
  mk_os 1 2 3 (fun _ => true) (fun _ => true) (fun _ => true) (fun _ => true)
    (fun _ => None) 12 GPG_ERR_SOURCE_DEFAULT (fun _ => true) true.

(** CreateProcessW fails. *)
Definition os_no_process : os :=
  mk_os 1 2 3 (fun _ => true) (fun _ => true) (fun _ => true) (fun _ => true)
    (Cmdline.malloc_filled "x") 0 GPG_ERR_SOURCE_DEFAULT (fun _ => true) false.

(** The pipe for the child's standard output cannot be created. *)
Definition os_no_stdout_pipe : os :=
  mk_os 1 2 3 (fun which => if which is Stdout then false else true) (fun _ => true)
    (fun _ => true) (fun _ => true)
    (Cmdline.malloc_filled "x") 0 GPG_ERR_SOURCE_DEFAULT (fun _ => true) true.

(** The pipe for the child's standard error cannot be wrapped in a stream. *)
Definition os_no_stderr_stream : os :=
  mk_os 1 2 3 (fun _ => true) (fun _ => true)
    (fun which => if which is Stderr then false else true) (fun _ => true)
    (Cmdline.malloc_filled "x") 12 GPG_ERR_SOURCE_DEFAULT (fun _ => true) true.

Definition sample_pgmname : list ascii := list_ascii_of_string "gpg.exe".
Definition sample_argv : list (list ascii) := [list_ascii_of_string "--version"].

(** The call on the sample program in the state [start]. *)
Definition run (w : os) (flags : Z) (r_infp r_outfp r_errfp : bool)
  : option spawned * state :=
  gnupg_spawn_process w sample_pgmname sample_argv flags r_infp r_outfp r_errfp start.

End Spawn.

(** ** The tokens of a command line *)

Module CmdlineTokens.
Import Cmdline.

(** A token is followed by nothing or by the space before the next one. *)
Definition separated (r : list ascii) : Prop := r = [] \/ exists r', r = SPACE :: r'.

End CmdlineTokens.

(** ** Calls on process objects, and the list wait *)

Module ProcessCalls.
Import MachInt Err Win32 Process.
Local Open Scope proc_scope.

(** An access outside the array, or through a dangling pointer. *)
Definition fault {A} : M A := fun _ => None.

(** The loop of gnupg_process_wait_list, from index [i] for [n] more
    rounds; [ec] is the variable of that name. *)
Fixpoint wait_list_loop (w : os) (process_list : list Z) (hang : bool) (i n : nat)
    (ec : gpg_err_code_t) : M gpg_err_code_t :=
  match n with
  | O => ret ec
  | S n' =>
      match process_list !! i with
      | None => fault
      | Some p =>
          let* pr := deref p in
          if terminated pr then wait_list_loop w process_list hang (S i) n' ec
          else
            let* ec' := gnupg_process_wait w p hang in
            if is_error ec' then ret ec'
            else wait_list_loop w process_list hang (S i) n' ec'
      end
  end.

(** [count] is an int; no round is made when it is not positive. *)
Definition gnupg_process_wait_list (w : os) (process_list : list Z) (count : Z)
    (hang : bool) : M gpg_err_code_t :=
  wait_list_loop w process_list hang 0 (Z.to_nat count) GPG_ERR_NO_ERROR.

(** *** Vocabulary of the properties *)

(** The calls that work on process objects without freeing them. *)
Inductive call : Type :=
  | Call_ctl (process : Z) (req : request)
  | Call_wait (process : Z) (hang : bool)
  | Call_terminate (process : Z)
  | Call_get_fds (process : Z) (flags : Z) (r_fd_in r_fd_out r_fd_err : option Z)
  | Call_get_streams (process : Z) (nonblock : bool) (r_fp_in r_fp_out r_fp_err : option Z)
  | Call_wait_list (process_list : list Z) (count : Z) (hang : bool).

Definition run_call (w : os) (c : call) : M gpg_err_code_t :=
  match c with
  | Call_ctl p req => gnupg_process_ctl w p req
  | Call_wait p hang => gnupg_process_wait w p hang
  | Call_terminate p => gnupg_process_terminate w p
  | Call_get_fds p fl r_in r_out r_err => gnupg_process_get_fds w p fl r_in r_out r_err
  | Call_get_streams p nb r_in r_out r_err => gnupg_process_get_streams w p nb r_in r_out r_err
  | Call_wait_list l count hang => gnupg_process_wait_list w l count hang
  end.

(** The objects a call is given. *)
Definition targets (c : call) : list Z :=
  match c with
  | Call_ctl p _ | Call_wait p _ | Call_terminate p
  | Call_get_fds p _ _ _ _ | Call_get_streams p _ _ _ _ => [p]
  | Call_wait_list l _ _ => l
  end.

(** A handle field keeps its value or becomes the invalid handle. *)
Definition kept_or_invalid (h h' : HANDLE) : Prop :=
  h' = h \/ h' = INVALID_HANDLE_VALUE.

(** How an object may differ after a call: the name, the flags and the
    cached exit code are the same, a set terminated flag stays set, and
    each handle field keeps its value or becomes the invalid handle. *)
Definition evolves (pr pr' : gnupg_process) : Prop :=
  pgmname pr' = pgmname pr /\ flags pr' = flags pr /\ exitcode pr' = exitcode pr
  /\ (terminated pr = true -> terminated pr' = true)
  /\ kept_or_invalid (hProcess pr) (hProcess pr')
  /\ kept_or_invalid (hd_in pr) (hd_in pr')
  /\ kept_or_invalid (hd_out pr) (hd_out pr')
  /\ kept_or_invalid (hd_err pr) (hd_err pr').

(** The heap after a call on the objects [T]: objects outside [T] are
    untouched, and every object is still there and has evolved. *)
Definition updates (T : list Z) (s s' : state) : Prop :=
  forall q, (q ∉ T -> heap s' !! q = heap s !! q)
            /\ (forall pr, heap s !! q = Some pr ->
                  exists pr', heap s' !! q = Some pr' /\ evolves pr pr').


(** The hook events, when the hooks are installed. *)
Definition pre_events (w : os) : list event :=
  if pre_syscall_func w then [Ev_pre_syscall] else [].
Definition post_events (w : os) : list event :=
  if post_syscall_func w then [Ev_post_syscall] else [].

(** A system with both hooks installed, on which the wait times out. *)
Definition os_hooks_timeout : os :=
  mk_os true true (fun _ _ => true) (fun _ _ => WAIT_TIMEOUT) (fun _ => Some 0) 0
    (fun h _ => h + 1000) (fun h _ => h + 2000).

(** Two objects: a running one at address 1, a terminated one at 2. *)
Definition two_processes : state :=
  mk_state {[ 1 := running_process; 2 := terminated_process ]} ∅ [].

End ProcessCalls.

(** ** Vocabulary for the results of gnupg_wait_processes *)

Module WaitResults.
Import MachInt Err Win32 Wait.

(** The entry of r_exitcodes for a process after the exit code loop: the
    exit status as an int when it can be queried, else what was there. *)
Definition entry (w : os) (pid old : Z) : Z :=
  if query_allowed w pid then to_int (exit_status w pid) else old.

(** A process whose exit code can be queried and is 0. *)
Definition clean (w : os) (pid : Z) : Prop :=
  query_allowed w pid = true /\ exit_status w pid = 0.

#[global] Instance clean_dec w pid : Decision (clean w pid).
Proof. unfold clean. apply _. Defined.

(** No exit code was queried. *)
Definition no_query (tr : list event) : Prop :=
  forall h, Ev_GetExitCodeProcess h ∉ tr.

(** The error code for a joint wait that did not return WAIT_OBJECT_0. *)
Definition wait_error (code : wait_code) : gpg_err_code_t :=
  match code with WAIT_TIMEOUT => GPG_ERR_TIMEOUT | _ => GPG_ERR_GENERAL end.

(** The processes are still running: the joint wait times out. *)
Definition os_running : os :=
  mk_os true 0 GPG_ERR_SOURCE_DEFAULT (fun _ _ _ => WAIT_TIMEOUT)
    (fun _ => 0) (fun _ => true).

(** The exit code of the process with handle 200 (status 3) cannot be
    queried; the one with handle 300 exits with 4294967295. *)
Definition os_mixed : os :=
  mk_os true 0 GPG_ERR_SOURCE_DEFAULT (fun _ _ _ => WAIT_OBJECT_0)
    (fun h => if decide (h = 200) then 3 else if decide (h = 300) then 4294967295 else 0)
    (fun h => negb (bool_decide (h = 200))).

End WaitResults.

(** ** The calls on kernel handles, descriptors and streams *)

Module Sys.
Import MachInt Err Win32.

(** What is known of an open kernel handle: what it refers to, and
    whether child processes inherit it. *)
Record handle_info : Type := mk_info {
  h_kind : Spawn.kind;
  h_inherit : bool
}.

(** The creation flags of CreateProcessW that this file combines; the
    priority class of the current process is one of them. *)
Inductive creation_flag : Type :=
  | CREATE_DEFAULT_ERROR_MODE
  | PRIORITY_CLASS
  | CREATE_SUSPENDED
  | DETACHED_PROCESS
  | CREATE_NEW_PROCESS_GROUP
  | CREATE_BREAKAWAY_FROM_JOB.

#[global] Instance creation_flag_eq_dec : EqDecision creation_flag.
Proof. solve_decision. Defined.

(** The calls that leave the module, in the order they are made.  A
    CreateProcessW call shows the program, the command line (the C
    string in the block), bInheritHandles, the creation flags, the three
    standard handles when STARTF_USESTDHANDLES is set, and the handle
    list of the attribute list when there is one. *)
Inductive event : Type :=
  | Ev_log_error (msg : string)
  | Ev_log_debug (msg : string)
  | Ev_log_info (msg : string)
  | Ev_CreateFileW_nul (for_write : bool) (hfile : HANDLE)
  | Ev_CreateProcessW (pgmname : list ascii) (cmdline : option (list ascii))
      (bInheritHandles : bool) (cr_flags : list creation_flag)
      (std_handles : option (HANDLE * HANDLE * HANDLE))
      (handle_list : option (list HANDLE))
  | Ev_ResumeThread (h : HANDLE)
  | Ev_TerminateProcess (h : HANDLE) (exit_code : Z)
  | Ev_AllowSetForegroundWindow
  | Ev_es_sysopen (h : HANDLE) (mode : string)
  | Ev_process (e : Process.event).

(** The open kernel handles, the C run-time descriptors and the streams
    with the handle each one owns, the process objects and the caller's
    variables by address, the next unused handle, descriptor or address,
    the number of answers the operating system has given, and the calls
    made so far. *)
Record state : Type := mk_state {
  handles : gmap Z handle_info;
  fds : gmap Z Z;
  streams : gmap Z Z;
  heap : gmap Z Process.gnupg_process;
  mem : gmap Z Z;
  next : Z;
  clock : nat;
  trace : list event
}.

(** The answers of the operating system and of the libraries.  A call
    that can fail is answered by a function of [clock]: the answer may
    differ from one call to the next in any way. *)
Record os : Type := mk_os {
  GetStdHandle : Spawn.std_stream -> HANDLE;
  CreatePipe_ok : nat -> bool;
  SetHandleInformation_ok : nat -> bool;
  CreateFileW_ok : nat -> bool;
  _open_osfhandle_ok : nat -> bool;
  _get_osfhandle : Z -> HANDLE;
  es_sysopen_ok : nat -> bool;
  utf8_to_wchar_ok : nat -> bool;
  CreateProcessW_ok : nat -> bool;
  AllowSetForegroundWindow_ok : nat -> bool;
  xtrymalloc : Z -> option (list ascii);      (* for the command line *)
  (* for a process object: the block with what it happens to hold, or NULL *)
  xtrymalloc_process : nat -> option Process.gnupg_process;
  xtrymalloc_attribute_list_ok : nat -> bool;
  errno : Z;
  default_errsource : gpg_err_source_t;
  gnupg_access : list ascii -> gpg_err_code_t;
  GNUPG_EXEC_DEBUG_FLAGS : option Z;          (* atoi of the variable, when it is set *)
  IsProcessInJob : nat -> option bool;        (* the result in_job, or failure *)
  (* the bits BREAKAWAY_OK and SILENT_BREAKAWAY_OK of the limit flags, or failure *)
  QueryInformationJobObject : nat -> option (bool * bool);
  process_os : Process.os
}.

(** A computation on the state that may fault. *)
Definition M (A : Type) : Type := state -> option (A * state).

Definition ret {A} (a : A) : M A := fun s => Some (a, s).

Definition bind {A B} (m : M A) (k : A -> M B) : M B :=
  fun s => match m s with Some (a, s') => k a s' | None => None end.

Definition fault {A} : M A := fun _ => None.

Declare Scope sys_scope.
Delimit Scope sys_scope with sys.
Notation "'let*' x ':=' m 'in' k" := (bind m (fun x => k))
  (at level 10, x pattern, m at level 100, k at level 200) : sys_scope.
Notation "m ;; k" := (bind m (fun _ => k))
  (at level 100, k at level 200, right associativity) : sys_scope.
Local Open Scope sys_scope.

Definition emit (e : event) : M unit :=
  fun s => Some (tt, mk_state (handles s) (fds s) (streams s) (heap s) (mem s) (next s)
                       (clock s) (trace s ++ [e])).

(** The next answer of the operating system to a call. *)
Definition ask {A} (answer : nat -> A) : M A :=
  fun s => Some (answer (clock s),
                 mk_state (handles s) (fds s) (streams s) (heap s) (mem s) (next s)
                   (S (clock s)) (trace s)).

Definition new_handle (k : Spawn.kind) (inherit : bool) : M HANDLE :=
  fun s => Some (next s,
                 mk_state (<[next s:=mk_info k inherit]> (handles s)) (fds s) (streams s)
                   (heap s) (mem s) (next s + 1) (clock s) (trace s)).

Definition CloseHandle (h : HANDLE) : M unit :=
  fun s => Some (tt, mk_state (delete h (handles s)) (fds s) (streams s) (heap s) (mem s)
                       (next s) (clock s) (trace s)).

Definition when (b : bool) (m : M unit) : M unit := if b then m else ret tt.

(** [*r = v] through a result pointer, NULL being [None]. *)
Definition poke (r : option Z) (v : Z) : M unit :=
  fun s => match r with
           | Some a => Some (tt, mk_state (handles s) (fds s) (streams s) (heap s)
                                   (<[a:=v]> (mem s)) (next s) (clock s) (trace s))
           | None => None
           end.

(** An operation on process objects, run on the objects and variables of
    this state; its calls are appended to the trace. *)
Definition lift {A} (m : Process.M A) : M A :=
  fun s => match m (Process.mk_state (heap s) (mem s) []) with
           | Some (a, ps) =>
               Some (a, mk_state (handles s) (fds s) (streams s) (Process.heap ps)
                          (Process.mem ps) (next s) (clock s)
                          (trace s ++ map Ev_process (Process.trace ps)))
           | None => None
           end.

(** What gnupg_process_spawn can return: an error code, a gpg_error_t
    passed on where a code is expected, or the int -1. *)
Inductive returned : Type :=
  | Code (ec : gpg_err_code_t)
  | Error_value (err : gpg_error_t)
  | Minus_one.

(** struct spawn_cb_arg, the argument of the caller's callback;
    [inherit_hds] is NULL or the handles before the terminating
    INVALID_HANDLE_VALUE. *)
Record spawn_cb_arg : Type := mk_sca {
  ask_inherit : bool;
  allow_foreground_window : bool;
  hd0 : HANDLE;
  hd1 : HANDLE;
  hd2 : HANDLE;
  inherit_hds : option (list HANDLE);
  arg : Z
}.

(** Modelled from the spec: the header exechelp.h, which defines the
    GNUPG_PROCESS flags, is not under src/ and the specification gives
    no values for them; they are parameters. *)
Record process_flags : Type := mk_flags {
  GNUPG_PROCESS_DETACHED : Z;
  GNUPG_PROCESS_STDIN_PIPE : Z;
  GNUPG_PROCESS_STDOUT_PIPE : Z;
  GNUPG_PROCESS_STDERR_PIPE : Z;
  GNUPG_PROCESS_STDINOUT_SOCKETPAIR : Z;
  GNUPG_PROCESS_STDIN_NULL : Z;
  GNUPG_PROCESS_STDOUT_NULL : Z;
  GNUPG_PROCESS_STDERR_NULL : Z;
  GNUPG_PROCESS_STDFDS_SETTING : Z
}.

Section Operations.

Variable w : os.

Definition my_error (errcode : gpg_err_code_t) : gpg_error_t :=
  gpg_err_make (default_errsource w) errcode.

Definition my_error_from_syserror : gpg_error_t :=
  gpg_err_make (default_errsource w) (gpg_err_code_from_syserror (errno w)).

(** SetHandleInformation (h, HANDLE_FLAG_INHERIT, 0) *)
Definition SetHandleInformation (h : HANDLE) : M bool :=
  let* ok := ask (SetHandleInformation_ok w) in
  if ok then
    fun s => Some (true,
                   mk_state (alter (fun i => mk_info (h_kind i) false) h (handles s))
                     (fds s) (streams s) (heap s) (mem s) (next s) (clock s) (trace s))
  else ret false.

(** The pair of ends, or [None] for the return value -1. *)
Definition create_inheritable_pipe (flags : Z) : M (option (HANDLE * HANDLE)) :=
  let* ok := ask (CreatePipe_ok w) in
  if negb ok then ret None
  else
    let* r := new_handle Spawn.Pipe_read true in
    let* wr := new_handle Spawn.Pipe_write true in
    let* ok_r := (if Z.land flags Spawn.INHERIT_READ =? 0
                  then SetHandleInformation r else ret true) in
    let* ok_w := (if ok_r then
                    if Z.land flags Spawn.INHERIT_WRITE =? 0
                    then SetHandleInformation wr else ret true
                  else ret false) in
    if ok_w then ret (Some (r, wr))
    else
      emit (Ev_log_error "SetHandleInformation failed") ;;
      CloseHandle r ;;
      CloseHandle wr ;;
      ret None.

Definition w32_open_null (for_write : bool) : M HANDLE :=
  let* ok := ask (CreateFileW_ok w) in
  let* hfile := (if ok then new_handle (Spawn.Null_device for_write) false
                 else ret INVALID_HANDLE_VALUE) in
  emit (Ev_CreateFileW_nul for_write hfile) ;;
  when (hfile =? INVALID_HANDLE_VALUE) (emit (Ev_log_debug "can't open 'nul'")) ;;
  ret hfile.

(** _open_osfhandle: a new descriptor that owns the handle, or -1. *)
Definition _open_osfhandle (h : HANDLE) (fl : oflag) : M Z :=
  let* ok := ask (_open_osfhandle_ok w) in
  if ok then
    fun s => Some (next s,
                   mk_state (handles s) (<[next s:=h]> (fds s)) (streams s) (heap s) (mem s)
                     (next s + 1) (clock s) (trace s))
  else ret (-1).

(** close on a descriptor closes the handle it owns. *)
Definition close (fd : Z) : M unit :=
  fun s => match fds s !! fd with
           | Some h => Some (tt, mk_state (delete h (handles s)) (delete fd (fds s))
                                   (streams s) (heap s) (mem s) (next s) (clock s) (trace s))
           | None => Some (tt, s)
           end.

(** es_sysopen on a handle: the new stream, or NULL. *)
Definition es_sysopen (h : HANDLE) (mode : string) : M Z :=
  emit (Ev_es_sysopen h mode) ;;
  let* ok := ask (es_sysopen_ok w) in
  if ok then
    fun s => Some (next s,
                   mk_state (handles s) (fds s) (<[next s:=h]> (streams s)) (heap s) (mem s)
                     (next s + 1) (clock s) (trace s))
  else ret 0.

(** The result is the error, the two descriptors left in [filedes], and
    what has been stored through [r_fp] if anything has; [r_fp] tells
    whether the pointer is given. *)
Definition create_pipe_and_estream (flags : Z) (r_fp outbound nonblock : bool)
  : M (gpg_error_t * Z * Z * option Z) :=
  let* p := create_inheritable_pipe flags in
  let* translated :=
    (match p with
     | Some (fds0, fds1) =>
         let* filedes0 := _open_osfhandle fds0 O_RDONLY in
         if filedes0 =? -1 then
           emit (Ev_log_error "failed to translate osfhandle") ;;
           CloseHandle fds1 ;;
           ret (my_error GPG_ERR_GENERAL, -1, -1)
         else
           let* filedes1 := _open_osfhandle fds1 O_APPEND in
           if filedes1 =? -1 then
             emit (Ev_log_error "failed to translate osfhandle") ;;
             close filedes0 ;;
             CloseHandle fds1 ;;
             ret (my_error GPG_ERR_GENERAL, -1, -1)
           else ret (no_error, filedes0, filedes1)
     | None => ret (my_error GPG_ERR_GENERAL, -1, -1)
     end) in
  let '(err, filedes0, filedes1) := translated in
  match p with
  | Some (fds0, fds1) =>
      if negb (is_error (err_code err)) && r_fp then
        let* fp := (if negb outbound
                    then es_sysopen fds0 (if nonblock then "r,nonblock" else "r")
                    else es_sysopen fds1 (if nonblock then "w,nonblock" else "w")) in
        if fp =? 0 then
          emit (Ev_log_error "error creating a stream for a pipe") ;;
          close filedes0 ;;
          close filedes1 ;;
          ret (my_error_from_syserror, -1, -1, Some 0)
        else ret (err, filedes0, filedes1, Some fp)
      else ret (err, filedes0, filedes1, None)
  | None => ret (err, filedes0, filedes1, None)
  end.

Definition gnupg_create_inbound_pipe (r_fp nonblock : bool) :=
  create_pipe_and_estream Spawn.INHERIT_WRITE r_fp false nonblock.

Definition gnupg_create_outbound_pipe (r_fp nonblock : bool) :=
  create_pipe_and_estream Spawn.INHERIT_READ r_fp true nonblock.

Definition gnupg_create_pipe :=
  create_pipe_and_estream Spawn.INHERIT_BOTH false false false.

Definition gnupg_close_pipe (fd : Z) : M unit :=
  if negb (fd =? -1) then close fd else ret tt.

(** utf8_to_wchar on the program name and then, if that worked, on the
    command line. *)
Definition convert_both : M bool :=
  let* wpgmname := ask (utf8_to_wchar_ok w) in
  if negb wpgmname then ret false
  else ask (utf8_to_wchar_ok w).

(** CreateProcessW with process and thread handles that are not
    inheritable: the two handles of PROCESS_INFORMATION, or failure. *)
Definition CreateProcessW (pgmname : list ascii) (cmdline : list ascii)
    (bInheritHandles : bool) (cr_flags : list creation_flag)
    (std_handles : option (HANDLE * HANDLE * HANDLE)) (handle_list : option (list HANDLE))
  : M (option (HANDLE * HANDLE)) :=
  emit (Ev_CreateProcessW pgmname (Cmdline.c_str cmdline) bInheritHandles cr_flags
          std_handles handle_list) ;;
  let* ok := ask (CreateProcessW_ok w) in
  if ok then
    let* hProcess := new_handle Spawn.Process_handle false in
    let* hThread := new_handle Spawn.Thread_handle false in
    ret (Some (hProcess, hThread))
  else ret None.

(** The result is the error and what is left in the caller's pid. *)
Definition gnupg_spawn_process_fd (pgmname : list ascii) (argv : list (list ascii))
    (infd outfd errfd : Z) : M (gpg_error_t * Z) :=
  match Cmdline.build_w32_commandline (xtrymalloc w) (errno w) (default_errsource w)
          pgmname argv with
  | Cmdline.Fault => fault
  | Cmdline.Error err => ret (err, -1)
  | Cmdline.Ok cmdline =>
      let* stdhd0 := (if infd =? -1 then w32_open_null false
                      else ret INVALID_HANDLE_VALUE) in
      let* stdhd1 := (if outfd =? -1 then w32_open_null true
                      else ret INVALID_HANDLE_VALUE) in
      let* stdhd2 := (if errfd =? -1 then w32_open_null true
                      else ret INVALID_HANDLE_VALUE) in
      let hStdInput := if infd =? -1 then stdhd0 else _get_osfhandle w infd in
      let hStdOutput := if outfd =? -1 then stdhd1 else _get_osfhandle w outfd in
      let hStdError := if errfd =? -1 then stdhd2 else _get_osfhandle w errfd in
      let* converted := convert_both in
      let* pi :=
        (if converted then
           CreateProcessW pgmname cmdline true
             [CREATE_DEFAULT_ERROR_MODE; PRIORITY_CLASS; CREATE_SUSPENDED; DETACHED_PROCESS]
             (Some (hStdInput, hStdOutput, hStdError)) None
         else ret None) in
      (if pi is None then
         emit (Ev_log_error (if converted then "CreateProcess failed"
                             else "CreateProcess failed (utf8_to_wchar)"))
       else ret tt) ;;
      when (negb (stdhd0 =? INVALID_HANDLE_VALUE)) (CloseHandle stdhd0) ;;
      when (negb (stdhd1 =? INVALID_HANDLE_VALUE)) (CloseHandle stdhd1) ;;
      when (negb (stdhd2 =? INVALID_HANDLE_VALUE)) (CloseHandle stdhd2) ;;
      match pi with
      | None => ret (my_error GPG_ERR_GENERAL, -1)
      | Some (hProcess, hThread) =>
          emit (Ev_ResumeThread hThread) ;;
          CloseHandle hThread ;;
          ret (no_error, to_int hProcess)
      end
  end.

Definition gnupg_release_process (pid : Z) : M unit :=
  if negb (pid =? to_int INVALID_HANDLE_VALUE) then CloseHandle pid else ret tt.

Definition gnupg_kill_process (pid : Z) : M unit :=
  if negb (pid =? to_int INVALID_HANDLE_VALUE) then emit (Ev_TerminateProcess pid 1)
  else ret tt.

Definition gnupg_spawn_process_detached (pgmname : list ascii) (argv : list (list ascii))
  : M gpg_error_t :=
  let jobdebug := match GNUPG_EXEC_DEBUG_FLAGS w with
                  | Some v => negb (Z.land v 1 =? 0)
                  | None => false
                  end in
  let ec := gnupg_access w pgmname in
  if is_error ec then ret (gpg_err_make (default_errsource w) ec)
  else
  match Cmdline.build_w32_commandline (xtrymalloc w) (errno w) (default_errsource w)
          pgmname argv with
  | Cmdline.Fault => fault
  | Cmdline.Error err => ret err
  | Cmdline.Ok cmdline =>
      let cr_flags := [CREATE_DEFAULT_ERROR_MODE; PRIORITY_CLASS; CREATE_NEW_PROCESS_GROUP;
                       DETACHED_PROCESS] in
      let* answer := ask (IsProcessInJob w) in
      let* in_job := (match answer with
                      | Some in_job => ret in_job
                      | None => emit (Ev_log_error "IsProcessInJob() failed") ;; ret false
                      end) in
      let* cr_flags :=
        (if in_job then
           let* info := ask (QueryInformationJobObject w) in
           match info with
           | None =>
               emit (Ev_log_error "QueryInformationJobObject() failed") ;;
               ret cr_flags
           | Some (breakaway_ok, silent_breakaway_ok) =>
               if breakaway_ok then
                 when jobdebug (emit (Ev_log_debug "Using CREATE_BREAKAWAY_FROM_JOB flag")) ;;
                 ret (cr_flags ++ [CREATE_BREAKAWAY_FROM_JOB])
               else if silent_breakaway_ok then
                 when jobdebug
                   (emit (Ev_log_debug "Not using CREATE_BREAKAWAY_FROM_JOB flag; JOB_OBJECT_LIMIT_SILENT_BREAKAWAY_OK is set")) ;;
                 ret cr_flags
               else
                 when jobdebug
                   (emit (Ev_log_debug "Not using CREATE_BREAKAWAY_FROM_JOB flag")) ;;
                 ret cr_flags
           end
         else
           when jobdebug (emit (Ev_log_debug "Process is not in a Job")) ;;
           ret cr_flags) in
      let* converted := convert_both in
      let* pi :=
        (if converted then CreateProcessW pgmname cmdline false cr_flags None None
         else ret None) in
      match pi with
      | None =>
          emit (Ev_log_error (if converted then "CreateProcess(detached) failed"
                              else "CreateProcess failed (utf8_to_wchar)")) ;;
          ret (my_error GPG_ERR_GENERAL)
      | Some (hProcess, hThread) =>
          CloseHandle hThread ;;
          CloseHandle hProcess ;;
          ret no_error
      end
  end.


(** xtrymalloc for a process object: its address, or NULL. *)
Definition new_process : M Z :=
  let* block := ask (xtrymalloc_process w) in
  match block with
  | Some pr =>
      fun s => Some (next s,
                     mk_state (handles s) (fds s) (streams s) (<[next s:=pr]> (heap s))
                       (mem s) (next s + 1) (clock s) (trace s))
  | None => ret 0
  end.

Definition xfree (process : Z) : M unit := lift (Process.xfree process).

(** The caller's callback works on the argument block only. *)
Definition call_spawn_cb (spawn_cb : option (spawn_cb_arg -> spawn_cb_arg))
    (sca : spawn_cb_arg) : spawn_cb_arg :=
  match spawn_cb with Some f => f sca | None => sca end.

End Operations.

(** *** Vocabulary of the properties *)

(** The values from [next] on are unused, and neither NULL nor -1 is
    among them. *)
Definition fresh (s : state) : Prop :=
  0 < next s
  /\ forall h, next s <= h ->
       handles s !! h = None /\ fds s !! h = None /\ streams s !! h = None
       /\ heap s !! h = None.

(** Everything but the handle table is as before. *)
Definition same_but_handles (s s' : state) : Prop :=
  fds s' = fds s /\ streams s' = streams s /\ heap s' = heap s /\ mem s' = mem s.

(** How gnupg_spawn_process_fd connects a standard stream of the child:
    to the handle behind the descriptor, or to what opening the null
    device gave among the calls [new]. *)
Definition wired (w : os) (fd : Z) (for_write : bool) (h : HANDLE) (new : list event)
  : Prop :=
  if decide (fd = -1) then Ev_CreateFileW_nul for_write h ∈ new
  else h = _get_osfhandle w fd.

(** The descriptors [fd0] and [fd1] are new and own the two new ends of a
    pipe, which are inherited by child processes as told. *)
Definition pipe_made (s s' : state) (fd0 fd1 : Z) (inherit_read inherit_write : bool)
  : Prop :=
  fd0 <> -1 /\ fd1 <> -1 /\ fd0 <> fd1 /\ fds s !! fd0 = None /\ fds s !! fd1 = None
  /\ exists r wr,
       r <> wr /\ handles s !! r = None /\ handles s !! wr = None
       /\ fds s' !! fd0 = Some r /\ fds s' !! fd1 = Some wr
       /\ handles s' !! r = Some (mk_info Spawn.Pipe_read inherit_read)
       /\ handles s' !! wr = Some (mk_info Spawn.Pipe_write inherit_write).

(** What has been stored through r_fp is a new stream on the end that the
    descriptor [fd] owns. *)
Definition stream_on (s s' : state) (fp : option Z) (fd : Z) : Prop :=
  exists f h, fp = Some f /\ f <> 0 /\ streams s !! f = None
    /\ streams s' !! f = Some h /\ fds s' !! fd = Some h.

(** *** Sample environments *)

(** Every call succeeds; the descriptor [fd] stands for the handle
    [fd + 10]; the process is not in a job. *)
Definition os_ok : os :=
  mk_os (fun which => match which with
                      | Spawn.Stdin => 1 | Spawn.Stdout => 2 | Spawn.Stderr => 3
                      end)
    (fun _ => true) (fun _ => true) (fun _ => true) (fun _ => true) (fun fd => fd + 10)
    (fun _ => true) (fun _ => true) (fun _ => true) (fun _ => true)
    (Cmdline.malloc_filled "x") (fun _ => Some Process.running_process) (fun _ => true)
    0 GPG_ERR_SOURCE_DEFAULT (fun _ => GPG_ERR_NO_ERROR) None (fun _ => Some false)
    (fun _ => None) Process.os_succeeds.

(** The process runs in a job that allows a breakaway. *)
Definition os_in_job : os :=
  mk_os (fun _ => 1)
    (fun _ => true) (fun _ => true) (fun _ => true) (fun _ => true) (fun fd => fd + 10)
    (fun _ => true) (fun _ => true) (fun _ => true) (fun _ => true)
    (Cmdline.malloc_filled "x") (fun _ => Some Process.running_process) (fun _ => true)
    0 GPG_ERR_SOURCE_DEFAULT (fun _ => GPG_ERR_NO_ERROR) (Some 1) (fun _ => Some true)
    (fun _ => Some (true, false)) Process.os_succeeds.

(** The parent has the standard handles 1, 2 and 3; unused values start
    at 100. *)
Definition start : state :=
  mk_state {[ 1 := mk_info Spawn.Std_handle true; 2 := mk_info Spawn.Std_handle true;
              3 := mk_info Spawn.Std_handle true ]} ∅ ∅ ∅ ∅ 100 0 [].

(** The CreateProcessW calls of a trace. *)
Definition created (tr : list event) : list event :=
  flat_map (fun e => match e with Ev_CreateProcessW _ _ _ _ _ _ => [e] | _ => [] end) tr.

End Sys.

(** ** The list of open file descriptors *)

Module OpenFds.
Import MachInt.

(** What get_all_open_fds does: it returns the array or NULL, or a store
    falls outside the array, or the loop has not come to its end. *)
Inductive outcome : Type :=
  | Returned (array : option (list Z))
  | Fault
  | Out_of_fuel.

(** [array[idx] = v] on an array of int. *)
Definition store_int (array : list Z) (idx v : Z) : option (list Z) :=
  if decide (0 <= idx < Z.of_nat (length array))
  then Some (<[Z.to_nat idx:=v]> array) else None.

Section Scan.

(** The macro OPEN_MAX where the platform defines it; the allocator, by
    the number of bytes asked for, with what the added cells hold; fstat
    with the errno it leaves; the build has HAVE_STAT and an int of 4
    bytes. *)
Variable OPEN_MAX : option Z.
Variable calloc_ok : bool.
Variable realloc_ok : Z -> bool.
Variable uninitialised : nat -> Z.
Variable fstat : Z -> Z.
Variable errno_after_fstat : Z -> Z.
Variable EBADF : Z.

Definition get_max_fds : Z :=
  let max_fds := -1 in
  let max_fds := match OPEN_MAX with
                 | Some open_max => if max_fds =? -1 then open_max else max_fds
                 | None => max_fds
                 end in
  let max_fds := if max_fds =? -1 then 256 else max_fds in
  max_fds.

(** The test of the loop on a descriptor: fstat does not fail with EBADF. *)
Definition is_open (fd : Z) : bool :=
  negb ((fstat fd =? -1) && (errno_after_fstat fd =? EBADF)).

Definition calloc (count : Z) : option (list Z) :=
  if calloc_ok then Some (replicate (Z.to_nat count) 0) else None.

(** realloc for [count] ints: the old cells, cut or followed by cells
    that hold anything. *)
Definition realloc (array : list Z) (count : Z) : option (list Z) :=
  let bytes := to_size (count * 4) in
  if realloc_ok bytes then
    Some (take (Z.to_nat (bytes / 4))
            (array ++ map uninitialised (seq (length array) (Z.to_nat (bytes / 4)))))
  else None.

(** The loop over [fd], run for at most [fuel] tests of its condition. *)
Fixpoint scan (fuel : nat) (fd max_fd : Z) (array : list Z) (narray idx : Z) : outcome :=
  match fuel with
  | O => Out_of_fuel
  | S fuel' =>
      if fd <? max_fd then
        if is_open fd then
          let grown :=
            if to_size (to_int (idx + 1)) >=? narray then
              let narray' := to_size (narray + (if narray <? 256 then 32 else 256)) in
              match realloc array narray' with
              | Some tmp => Some (tmp, narray')
              | None => None
              end
            else Some (array, narray) in
          match grown with
          | None => Returned None
          | Some (array', narray') =>
              match store_int array' idx fd with
              | Some array'' =>
                  scan fuel' (to_int (fd + 1)) max_fd array'' narray' (to_int (idx + 1))
              | None => Fault
              end
          end
        else scan fuel' (to_int (fd + 1)) max_fd array narray idx
      else
        match store_int array idx (-1) with
        | Some array' => Returned (Some array')
        | None => Fault
        end
  end.

Definition get_all_open_fds : outcome :=
  let max_fd := get_max_fds in
  let narray := 32 in
  match calloc narray with
  | None => Returned None
  | Some array => scan (S (Z.to_nat max_fd)) 0 max_fd array narray 0
  end.

(** The open descriptors below the limit, in ascending order. *)
Definition open_fds : list Z :=
  filter (fun fd => is_open fd = true) (seqZ 0 get_max_fds).

End Scan.

(** The descriptors an array lists: its entries before the first -1. *)
Fixpoint listed (array : list Z) : list Z :=
  match array with
  | [] => []
  | fd :: rest => if fd =? -1 then [] else fd :: listed rest
  end.

(** The limit is a value of type int. *)
Definition is_int (z : Z) : Prop := -2147483648 <= z <= INT_MAX.

(** The number of ints the array has room for after [k] reallocations:
    32 at first, then 32 more while it is below 256 and 256 more from
    there on. *)
Fixpoint capacity (k : nat) : Z :=
  match k with
  | O => 32
  | S k' => capacity k' + (if capacity k' <? 256 then 32 else 256)
  end.

(** A system with the descriptors 0, 1, 2 and 40 to 79 open. *)
Definition sample_fstat (fd : Z) : Z :=
  if (fd <? 3) || ((40 <=? fd) && (fd <? 80)) then 0 else -1.

End OpenFds.

(** ** gnupg_process_spawn *)

Module ProcessSpawn.
Import MachInt Err Win32 Sys.
Local Open Scope sys_scope.

Section Operations.

Variable w : os.

Definition spawn_detached (process : Z) (pgmname cmdline : list ascii)
    (spawn_cb : option (spawn_cb_arg -> spawn_cb_arg)) (spawn_cb_arg : Z) : M returned :=
  let ec := gnupg_access w pgmname in
  if is_error ec then
    xfree process ;;
    ret (Code ec)
  else
    let sca := call_spawn_cb spawn_cb
                 (mk_sca false false INVALID_HANDLE_VALUE INVALID_HANDLE_VALUE
                    INVALID_HANDLE_VALUE None spawn_cb_arg) in
    let cr_flags := [CREATE_DEFAULT_ERROR_MODE; PRIORITY_CLASS; CREATE_NEW_PROCESS_GROUP;
                     DETACHED_PROCESS] in
    emit (Ev_log_debug "CreateProcess(detached)") ;;
    let* converted := convert_both w in
    let* pi :=
      (if converted then
         CreateProcessW w pgmname cmdline (ask_inherit sca) cr_flags None None
       else ret None) in
    match pi with
    | None =>
        emit (Ev_log_error (if converted then "CreateProcess(detached) failed"
                            else "CreateProcess failed (utf8_to_wchar)")) ;;
        ret (Code GPG_ERR_GENERAL)
    | Some (hProcess, hThread) =>
        emit (Ev_log_debug "CreateProcess(detached) ready") ;;
        CloseHandle hThread ;;
        CloseHandle hProcess ;;
        let* pr := lift (Process.deref process) in
        lift (Process.assign process
                (Process.mk_process (Process.pgmname pr) true (Process.flags pr)
                   INVALID_HANDLE_VALUE INVALID_HANDLE_VALUE INVALID_HANDLE_VALUE
                   INVALID_HANDLE_VALUE (-1))) ;;
        ret (Code GPG_ERR_NO_ERROR)
    end.

Variable F : process_flags.
Variable flags : Z.

Definition stdin_pipe : bool := Spawn.has_flag flags (GNUPG_PROCESS_STDIN_PIPE F).
Definition stdin_null : bool := Spawn.has_flag flags (GNUPG_PROCESS_STDIN_NULL F).
Definition stdout_pipe : bool := Spawn.has_flag flags (GNUPG_PROCESS_STDOUT_PIPE F).
Definition stdout_null : bool := Spawn.has_flag flags (GNUPG_PROCESS_STDOUT_NULL F).
Definition stderr_pipe : bool := Spawn.has_flag flags (GNUPG_PROCESS_STDERR_PIPE F).
Definition stderr_null : bool := Spawn.has_flag flags (GNUPG_PROCESS_STDERR_NULL F).

Definition close_if_valid (h : HANDLE) : M unit :=
  when (negb (h =? INVALID_HANDLE_VALUE)) (CloseHandle h).

(** The statements of gnupg_process_spawn that fill hd_in: the two
    handles, or what the function returns at once. *)
Definition setup_hd_in (process : Z) : M (returned + HANDLE * HANDLE) :=
  if stdin_pipe then
    let* p := create_inheritable_pipe w Spawn.INHERIT_READ in
    match p with
    | None => xfree process ;; ret (inl Minus_one)
    | Some hd_in => ret (inr hd_in)
    end
  else if stdin_null then
    let* h := w32_open_null w false in
    ret (inr (h, INVALID_HANDLE_VALUE))
  else ret (inr (GetStdHandle w Spawn.Stdin, INVALID_HANDLE_VALUE)).

(** The statements that fill hd_out. *)
Definition setup_hd_out (process : Z) (hd_in : HANDLE * HANDLE)
  : M (returned + HANDLE * HANDLE) :=
  if stdout_pipe then
    let* p := create_inheritable_pipe w Spawn.INHERIT_WRITE in
    match p with
    | None =>
        close_if_valid hd_in.1 ;;
        close_if_valid hd_in.2 ;;
        xfree process ;;
        ret (inl Minus_one)
    | Some hd_out => ret (inr hd_out)
    end
  else if stdout_null then
    let* h := w32_open_null w true in
    ret (inr (INVALID_HANDLE_VALUE, h))
  else ret (inr (INVALID_HANDLE_VALUE, GetStdHandle w Spawn.Stdout)).

(** The statements that fill hd_err. *)
Definition setup_hd_err (process : Z) (hd_in hd_out : HANDLE * HANDLE)
  : M (returned + HANDLE * HANDLE) :=
  if stderr_pipe then
    let* p := create_inheritable_pipe w Spawn.INHERIT_WRITE in
    match p with
    | None =>
        close_if_valid hd_in.1 ;;
        close_if_valid hd_in.2 ;;
        close_if_valid hd_out.1 ;;
        close_if_valid hd_out.2 ;;
        xfree process ;;
        ret (inl Minus_one)
    | Some hd_err => ret (inr hd_err)
    end
  else if stderr_null then
    let* h := w32_open_null w true in
    ret (inr (INVALID_HANDLE_VALUE, h))
  else ret (inr (INVALID_HANDLE_VALUE, GetStdHandle w Spawn.Stderr)).

(** The closing of the handles on the two late error paths (the same
    statements at both places). *)
Definition close_on_error (hd_in hd_out hd_err : HANDLE * HANDLE) : M unit :=
  when (stdin_pipe || stdin_null) (CloseHandle hd_in.1) ;;
  when stdin_pipe (CloseHandle hd_in.2) ;;
  when stdout_pipe (CloseHandle hd_out.1) ;;
  when (stdout_pipe || stdout_null) (CloseHandle hd_out.2) ;;
  when stderr_pipe (CloseHandle hd_err.1) ;;
  when (stderr_pipe || stderr_null) (CloseHandle hd_err.2).

(** The handle array of the attribute list is filled from [inherit_hds]
    while there is room in its 16 entries; the flag tells that there was
    not. *)
Fixpoint add_inherit_hds (hd : list HANDLE) (hd_p : list HANDLE) : list HANDLE * bool :=
  match hd_p with
  | [] => (hd, false)
  | h :: hd_p' =>
      if (length hd <? 16)%nat then add_inherit_hds (hd ++ [h]) hd_p'
      else (hd, true)
  end.

(** The handles put into the attribute list. *)
Definition handle_list (sca : spawn_cb_arg) : list HANDLE * bool :=
  let hd := (if negb (hd0 sca =? INVALID_HANDLE_VALUE) then [hd0 sca] else [])
            ++ (if negb (hd1 sca =? INVALID_HANDLE_VALUE) then [hd1 sca] else [])
            ++ (if negb (hd1 sca =? INVALID_HANDLE_VALUE) then [hd2 sca] else []) in
  match inherit_hds sca with
  | Some hd_p => add_inherit_hds hd hd_p
  | None => (hd, false)
  end.

(** The statements that make the attribute list when a handle is to be
    inherited: the handle list if there is one, or what the function
    returns at once. *)
Definition prepare_attribute_list (process : Z) (hd_in hd_out hd_err : HANDLE * HANDLE)
    (sca : spawn_cb_arg) : M (returned + option (list HANDLE)) :=
  let i := (if negb (hd0 sca =? INVALID_HANDLE_VALUE) then 1 else 0)
           + (if negb (hd1 sca =? INVALID_HANDLE_VALUE) then 1 else 0)
           + (if negb (hd2 sca =? INVALID_HANDLE_VALUE) then 1 else 0) in
  if negb (i =? 0) || bool_decide (is_Some (inherit_hds sca)) then
    let '(hd, too_many) := handle_list sca in
    when too_many (emit (Ev_log_error "Too much handles")) ;;
    let* ok := ask (xtrymalloc_attribute_list_ok w) in
    if ok then ret (inr (Some hd))
    else
      close_on_error hd_in hd_out hd_err ;;
      xfree process ;;
      ret (inl (Code (gpg_err_code_from_syserror (errno w))))
  else ret (inr None).

(** The statements after CreateProcessW has succeeded. *)
Definition resume_and_record (process : Z) (hProcess hThread : HANDLE)
    (hd_in hd_out hd_err : HANDLE * HANDLE) (sca : spawn_cb_arg) (r_process : option Z)
  : M returned :=
  when (stdin_pipe || stdin_null) (CloseHandle hd_in.1) ;;
  when (stdout_pipe || stdout_null) (CloseHandle hd_out.2) ;;
  when (stderr_pipe || stderr_null) (CloseHandle hd_err.2) ;;
  emit (Ev_log_debug "CreateProcess ready") ;;
  (if allow_foreground_window sca then
     emit Ev_AllowSetForegroundWindow ;;
     let* ok := ask (AllowSetForegroundWindow_ok w) in
     when (negb ok) (emit (Ev_log_info "AllowSetForegroundWindow() failed"))
   else ret tt) ;;
  lift (Process.pre_syscall (process_os w)) ;;
  emit (Ev_ResumeThread hThread) ;;
  CloseHandle hThread ;;
  lift (Process.post_syscall (process_os w)) ;;
  let* pr := lift (Process.deref process) in
  lift (Process.assign process
          (Process.mk_process (Process.pgmname pr) false (Process.flags pr)
             hProcess hd_in.2 hd_out.1 hd_err.1 (-1))) ;;
  match r_process with
  | None =>
      let* ec := lift (Process.gnupg_process_wait (process_os w) process true) in
      lift (Process.gnupg_process_release (process_os w) (Some process)) ;;
      ret (Code ec)
  | Some _ =>
      poke r_process process ;;
      ret (Code GPG_ERR_NO_ERROR)
  end.

(** The statements of gnupg_process_spawn for a process that is not
    detached, from the setting of the standard handles on. *)
Definition spawn_attached (process : Z) (pgmname cmdline : list ascii)
    (spawn_cb : option (spawn_cb_arg -> spawn_cb_arg)) (spawn_cb_arg : Z)
    (r_process : option Z) : M returned :=
  let* in_res := setup_hd_in process in
  match in_res with
  | inl r => ret r
  | inr hd_in =>
  let* out_res := setup_hd_out process hd_in in
  match out_res with
  | inl r => ret r
  | inr hd_out =>
  let* err_res := setup_hd_err process hd_in hd_out in
  match err_res with
  | inl r => ret r
  | inr hd_err =>
  let sca := call_spawn_cb spawn_cb
               (mk_sca false false hd_in.1 hd_out.2 hd_err.2 None spawn_cb_arg) in
  let* attribute_list := prepare_attribute_list process hd_in hd_out hd_err sca in
  match attribute_list with
  | inl r => ret r
  | inr hds =>
  let bInheritHandles := if hds is Some _ then true else ask_inherit sca in
  emit (Ev_log_debug "CreateProcess") ;;
  let* converted := convert_both w in
  let* pi :=
    (if converted then
       CreateProcessW w pgmname cmdline bInheritHandles
         [CREATE_DEFAULT_ERROR_MODE; PRIORITY_CLASS; CREATE_SUSPENDED]
         (Some (hd0 sca, hd1 sca, hd2 sca)) hds
     else ret None) in
  match pi with
  | None =>
      emit (Ev_log_error (if converted then "CreateProcess failed"
                          else "CreateProcess failed (utf8_to_wchar)")) ;;
      close_on_error hd_in hd_out hd_err ;;
      xfree process ;;
      ret (Code GPG_ERR_GENERAL)
  | Some (hProcess, hThread) =>
      resume_and_record process hProcess hThread hd_in hd_out hd_err sca r_process
  end end end end end.

(** [r_process] is the address of the caller's variable, or NULL. *)
Definition gnupg_process_spawn (pgmname : list ascii) (argv : list (list ascii))
    (spawn_cb : option (spawn_cb_arg -> spawn_cb_arg)) (spawn_cb_arg : Z)
    (r_process : option Z) : M returned :=
  (if r_process is Some _ then poke r_process 0 else ret tt) ;;
  match Cmdline.build_w32_commandline (xtrymalloc w) (errno w) (default_errsource w)
          pgmname argv with
  | Cmdline.Fault => fault
  | Cmdline.Error err => ret (Error_value err)
  | Cmdline.Ok cmdline =>
  let* process := new_process w in
  if process =? 0 then ret (Code (gpg_err_code_from_syserror (errno w)))
  else
  let* pr := lift (Process.deref process) in
  lift (Process.assign process
          (Process.mk_process (string_of_list_ascii pgmname) (Process.terminated pr) flags
             (Process.hProcess pr) (Process.hd_in pr) (Process.hd_out pr)
             (Process.hd_err pr) (Process.exitcode pr))) ;;
  if Spawn.has_flag flags (GNUPG_PROCESS_DETACHED F) then
    if Spawn.has_flag flags (GNUPG_PROCESS_STDFDS_SETTING F) then
      xfree process ;;
      ret (Code GPG_ERR_INV_FLAG)
    else
      poke r_process process ;;
      spawn_detached process pgmname cmdline spawn_cb spawn_cb_arg
  else if Spawn.has_flag flags (GNUPG_PROCESS_STDINOUT_SOCKETPAIR F) then
    xfree process ;;
    ret (Code GPG_ERR_NOT_SUPPORTED)
  else spawn_attached process pgmname cmdline spawn_cb spawn_cb_arg r_process
  end.

End Operations.

(** *** Vocabulary of the properties *)

(** Sample values of the flags, one bit each; STDFDS_SETTING is the mask
    of the six flags for the standard descriptors. *)
Definition sample_flags : process_flags := mk_flags 1 2 4 8 16 32 64 128 238.

(** No handle has a value from [next] on. *)
Definition no_handle_from_next (s : state) : Prop :=
  forall h, next s <= h -> handles s !! h = None.

(** From [s] to [s'] handles have been opened and none that was open in
    [s] has been closed: the table is as before below [next s], and the
    handles that are open from there on are among [made]. *)
Definition opened (made : list HANDLE) (s s' : state) : Prop :=
  next s <= next s'
  /\ fds s' = fds s /\ streams s' = streams s /\ heap s' = heap s /\ mem s' = mem s
  /\ (forall h, h < next s -> handles s' !! h = handles s !! h)
  /\ (forall h, next s <= h -> is_Some (handles s' !! h) -> h ∈ made /\ h < next s').

(** From [s] to [s'] the handles [gone] have been closed. *)
Definition closed (gone : list HANDLE) (s s' : state) : Prop :=
  next s' = next s
  /\ fds s' = fds s /\ streams s' = streams s /\ heap s' = heap s /\ mem s' = mem s
  /\ (forall h, handles s' !! h = if decide (h ∈ gone) then None else handles s !! h).

(** The function has returned early from [s]: it has closed the handles
    [gone] and freed the process object. *)
Definition gave_up (process : Z) (gone : list HANDLE) (s s' : state) : Prop :=
  fds s' = fds s /\ streams s' = streams s /\ mem s' = mem s
  /\ heap s' = delete process (heap s)
  /\ (forall h, handles s' !! h = if decide (h ∈ gone) then None else handles s !! h).

(** The handles among [hs] that are not INVALID_HANDLE_VALUE. *)
Definition valid (hs : list HANDLE) : list HANDLE :=
  filter (fun h => h <> INVALID_HANDLE_VALUE) hs.

(** The handles that the statements for one standard stream open. *)
Definition made (pipe null : bool) (child caller : HANDLE) : list HANDLE :=
  if pipe then [child; caller] else if null then [child] else [].

(** What the statements for one standard stream leave in the pair of
    handles: the two ends of a new pipe, of which the child's end is
    inheritable and the caller's end is not; or no caller's end, with a
    new handle of the null device (or INVALID_HANDLE_VALUE) or the
    standard handle [std] of this process for the child.  The new
    handles have values from [lo] up to [hi], and [s'] is the state in
    which they are looked up. *)
Definition ends (pipe null : bool) (child_kind caller_kind : Spawn.kind) (for_write : bool)
    (std : HANDLE) (child caller : HANDLE) (lo hi : Z) (s' : state) : Prop :=
  if pipe then
    lo <= child < hi /\ lo <= caller < hi /\ child <> caller
    /\ handles s' !! child = Some (mk_info child_kind true)
    /\ handles s' !! caller = Some (mk_info caller_kind false)
  else
    caller = INVALID_HANDLE_VALUE
    /\ (if null then
          child = INVALID_HANDLE_VALUE
          \/ (lo <= child < hi
              /\ handles s' !! child = Some (mk_info (Spawn.Null_device for_write) false))
        else child = std).

(** The handles that the late error paths close, and those that a
    successful call closes. *)
Definition error_closed (F : process_flags) (flags : Z) (hd_in hd_out hd_err : HANDLE * HANDLE)
  : list HANDLE :=
  (if stdin_pipe F flags || stdin_null F flags then [hd_in.1] else [])
  ++ (if stdin_pipe F flags then [hd_in.2] else [])
  ++ (if stdout_pipe F flags then [hd_out.1] else [])
  ++ (if stdout_pipe F flags || stdout_null F flags then [hd_out.2] else [])
  ++ (if stderr_pipe F flags then [hd_err.1] else [])
  ++ (if stderr_pipe F flags || stderr_null F flags then [hd_err.2] else []).

Definition success_closed (F : process_flags) (flags : Z)
    (hd_in hd_out hd_err : HANDLE * HANDLE) (hThread : HANDLE) : list HANDLE :=
  (if stdin_pipe F flags || stdin_null F flags then [hd_in.1] else [])
  ++ (if stdout_pipe F flags || stdout_null F flags then [hd_out.2] else [])
  ++ (if stderr_pipe F flags || stderr_null F flags then [hd_err.2] else [])
  ++ [hThread].

(** The caller's end of a standard stream in the process object: a new
    handle that is open, of the given kind and not inheritable, when a
    pipe was asked for, and INVALID_HANDLE_VALUE otherwise. *)
Definition caller_end (pipe : bool) (k : Spawn.kind) (h : HANDLE) (s s' : state) : Prop :=
  if pipe then handles s !! h = None /\ handles s' !! h = Some (mk_info k false)
  else h = INVALID_HANDLE_VALUE.

(** The object as gnupg_process_spawn sets it up before it looks at the
    flags: the program name and the flags are stored, the other fields
    hold what the block [junk] held. *)
Definition initial_object (pgmname : list ascii) (flags : Z) (junk : Process.gnupg_process)
  : Process.gnupg_process :=
  Process.mk_process (string_of_list_ascii pgmname) (Process.terminated junk) flags
    (Process.hProcess junk) (Process.hd_in junk) (Process.hd_out junk) (Process.hd_err junk)
    (Process.exitcode junk).

(** The state after NULL has been stored in the caller's variable. *)
Definition result_cleared (r_process : option Z) (s : state) : state :=
  match r_process with
  | Some r => mk_state (handles s) (fds s) (streams s) (heap s) (<[r:=0]> (mem s)) (next s)
                (clock s) (trace s)
  | None => s
  end.

(** The state in which gnupg_process_spawn looks at the flags. *)
Definition at_flags (pgmname : list ascii) (flags : Z) (junk : Process.gnupg_process)
    (r_process : option Z) (s : state) : state :=
  mk_state (handles s) (fds s) (streams s)
    (<[next s:=initial_object pgmname flags junk]> (heap s))
    (match r_process with Some r => <[r:=0]> (mem s) | None => mem s end)
    (next s + 1) (S (clock s)) (trace s).

(** What gnupg_process_spawn does once the object is set up. *)
Definition dispatch (w : os) (F : process_flags) (flags : Z) (process : Z)
    (pgmname cmdline : list ascii) (spawn_cb : option (spawn_cb_arg -> spawn_cb_arg))
    (spawn_cb_arg : Z) (r_process : option Z) : M returned :=
  (if Spawn.has_flag flags (GNUPG_PROCESS_DETACHED F) then
     if Spawn.has_flag flags (GNUPG_PROCESS_STDFDS_SETTING F) then
       xfree process ;;
       ret (Code GPG_ERR_INV_FLAG)
     else
       poke r_process process ;;
       spawn_detached w process pgmname cmdline spawn_cb spawn_cb_arg
   else if Spawn.has_flag flags (GNUPG_PROCESS_STDINOUT_SOCKETPAIR F) then
     xfree process ;;
     ret (Code GPG_ERR_NOT_SUPPORTED)
   else spawn_attached w F flags process pgmname cmdline spawn_cb spawn_cb_arg r_process)%sys.

(** The process object that a successful gnupg_process_spawn leaves. *)
Definition spawned_object (pgmname : list ascii) (flags : Z)
    (hProcess hd_in hd_out hd_err : HANDLE) : Process.gnupg_process :=
  Process.mk_process (string_of_list_ascii pgmname) false flags hProcess hd_in hd_out
    hd_err (-1).

(** The argument block that spawn_detached hands to the callback. *)
Definition detached_sca (arg : Z) : spawn_cb_arg :=
  mk_sca false false INVALID_HANDLE_VALUE INVALID_HANDLE_VALUE INVALID_HANDLE_VALUE None arg.

(** The process object that a successful detached spawn leaves. *)
Definition detached_object (pgmname : list ascii) (flags : Z) : Process.gnupg_process :=
  Process.mk_process (string_of_list_ascii pgmname) true flags INVALID_HANDLE_VALUE
    INVALID_HANDLE_VALUE INVALID_HANDLE_VALUE INVALID_HANDLE_VALUE (-1).

(** *** Sample environment *)

(** As [os_ok], but CreateProcessW fails. *)
Definition os_no_process : os :=
  mk_os (GetStdHandle os_ok)
    (fun _ => true) (fun _ => true) (fun _ => true) (fun _ => true) (fun fd => fd + 10)
    (fun _ => true) (fun _ => true) (fun _ => false) (fun _ => true)
    (Cmdline.malloc_filled "x") (fun _ => Some Process.running_process) (fun _ => true)
    0 GPG_ERR_SOURCE_DEFAULT (fun _ => GPG_ERR_NO_ERROR) None (fun _ => Some false)
    (fun _ => None) Process.os_succeeds.

(** As [os_ok], but no pipe can be created. *)
Definition os_no_pipe : os :=
  mk_os (GetStdHandle os_ok)
    (fun _ => false) (fun _ => true) (fun _ => true) (fun _ => true) (fun fd => fd + 10)
    (fun _ => true) (fun _ => true) (fun _ => true) (fun _ => true)
    (Cmdline.malloc_filled "x") (fun _ => Some Process.running_process) (fun _ => true)
    0 GPG_ERR_SOURCE_DEFAULT (fun _ => GPG_ERR_NO_ERROR) None (fun _ => Some false)
    (fun _ => None) Process.os_succeeds.

End ProcessSpawn.

(** ** What a successful gnupg_spawn_process leaves *)

Module SpawnResults.
Import MachInt Err Win32 Spawn.

(** The values from [next] on are unused, and neither NULL nor -1 is
    among them. *)
Definition unused_from_next (s : state) : Prop :=
  0 < next s
  /\ forall h, next s <= h -> handles s !! h = None /\ streams s !! h = None.

(** The standard handles of this process are not among the unused
    values. *)
Definition std_handles_known (w : os) (s : state) : Prop :=
  std_input w < next s /\ std_output w < next s /\ std_error w < next s.

(** What the caller gets for one standard stream: when it asked for the
    stream, a new stream that owns a new handle of the kind [k], open
    after the call; NULL when it did not. *)
Definition stream_handed (requested : bool) (k : kind) (fp : Z) (s s' : state) : Prop :=
  if requested then
    fp <> 0 /\ streams s !! fp = None
    /\ exists h, streams s' !! fp = Some h
         /\ handles s !! h = None /\ handles s' !! h = Some k
  else fp = 0.

End SpawnResults.

(** * Properties *)

Module MachIntFacts.
Import MachInt.

Lemma to_int_small z : -2147483648 <= z <= INT_MAX -> to_int z = z.
Proof. unfold to_int, INT_MAX. intros H. rewrite Z.mod_small; lia. Qed.

Lemma to_size_small z : 0 <= z < 18446744073709551616 -> to_size z = z.
Proof. unfold to_size. intros H. by rewrite Z.mod_small. Qed.

Lemma to_int_range z : -2147483648 <= to_int z <= INT_MAX.
Proof.
  unfold to_int, INT_MAX.
  pose proof (Z.mod_pos_bound (z + 2147483648) 4294967296 ltac:(lia)). lia.
Qed.

End MachIntFacts.

Module ErrFacts.
Import Err.

Lemma from_syserror_is_error errno : is_error (gpg_err_code_from_syserror errno) = true.
Proof. unfold gpg_err_code_from_syserror. by case_decide. Qed.

Lemma gpg_err_make_no_error src ec : gpg_err_make src ec = no_error <-> ec = GPG_ERR_NO_ERROR.
Proof. unfold gpg_err_make, no_error. destruct ec; simpl; split; intros H; congruence. Qed.

End ErrFacts.

Module CmdlineFacts.
Import MachInt Err Cmdline MachIntFacts.

Local Open Scope nat_scope.

Lemma store_in buf p c :
  p < length buf -> store buf p c = Some (<[p:=c]> buf).
Proof. intros H. unfold store. by rewrite decide_True. Qed.

Lemma store_out buf p c :
  length buf <= p -> store buf p c = None.
Proof. intros H. unfold store. rewrite decide_False; [done | lia]. Qed.

Lemma take_store (buf : list ascii) p c :
  p < length buf -> take (S p) (<[p:=c]> buf) = take p buf ++ [c].
Proof.
  intros H. rewrite (take_S_r _ _ c).
  - by rewrite take_insert_ge.
  - by apply list_lookup_insert_eq.
Qed.

(** One store followed by a routine that writes [l] behaves as a routine
    that writes [c :: l]. *)
Lemma writes_cons buf p c l back k :
  back <= length l ->
  (forall buf1, length buf1 = length buf -> writes buf1 (S p) l back (k buf1)) ->
  writes buf p (c :: l) back (store buf p c ≫= k).
Proof.
  intros Hback Hk. split; [intros Hfit|intros Hp0 Hfit]; simpl in Hfit.
  - rewrite store_in by lia. simpl.
    destruct (Hk (<[p:=c]> buf)) as [Hok _]; [by rewrite length_insert|].
    rewrite length_insert in Hok.
    destruct Hok as (buf' & -> & Hlen & Htake); [lia|]. exists buf'.
    split_and!; [do 2 f_equal; simpl; lia | done |].
    replace (p + S (length l)) with (S p + length l) by lia.
    rewrite Htake, take_store by lia. by rewrite <- app_assoc.
  - destruct (decide (p < length buf)) as [Hp|Hp];
      [|by rewrite store_out by lia].
    rewrite store_in by done. simpl.
    destruct (Hk (<[p:=c]> buf)) as [_ Hno]; [by rewrite length_insert|].
    apply Hno; rewrite length_insert; lia.
Qed.

Lemma stpcpy_writes s : forall buf p,
  writes buf p (s ++ [NUL]) 1 (stpcpy buf p s).
Proof.
  induction s as [|c s IH]; intros buf p.
  - split; [intros Hfit|intros Hp0 Hfit]; simpl in *.
    + rewrite store_in by lia. simpl. exists (<[p:=NUL]> buf).
      rewrite length_insert. split_and!; [do 2 f_equal; lia | done |].
      replace (p + 1) with (S p) by lia. apply take_store. lia.
    + by rewrite store_out by lia.
  - apply (writes_cons buf p c (s ++ [NUL]) 1 (fun b => stpcpy b (S p) s)).
    + rewrite length_app. simpl. lia.
    + intros buf1 _. apply IH.
Qed.

Lemma copy_doubling_writes s : forall buf p,
  writes buf p (double_quotes s) 0 (copy_doubling buf p s).
Proof.
  induction s as [|c s IH]; intros buf p.
  - split; [intros Hfit|intros Hp0 Hfit]; simpl in *; [|lia]. exists buf.
    split_and!; [do 2 f_equal; lia | done |].
    by rewrite Nat.add_0_r, app_nil_r.
  - cbn [copy_doubling double_quotes flat_map]. fold (double_quotes s).
    destruct (decide (c = DQUOTE)) as [->|Hc]; cbn [app].
    + apply (writes_cons buf p DQUOTE (DQUOTE :: double_quotes s) 0
               (fun b => store b (S p) DQUOTE ≫= fun b2 => copy_doubling b2 (S (S p)) s));
        [lia|].
      intros buf1 _.
      apply (writes_cons buf1 (S p) DQUOTE (double_quotes s) 0
               (fun b2 => copy_doubling b2 (S (S p)) s)); [lia|].
      intros buf2 _. apply IH.
    + apply (writes_cons buf p c (double_quotes s) 0
               (fun b => copy_doubling b (S p) s)); [lia|].
      intros buf1 _. apply IH.
Qed.


(** Two routines in sequence, the second one starting [length x1]
    characters before the end of what the first one wrote. *)
Lemma writes_seq buf p l1 x1 l2 back2 r1 (k : list ascii -> nat -> option (list ascii * nat)) :
  p <= length buf ->
  length x1 <= length l2 ->
  writes buf p (l1 ++ x1) (length x1) r1 ->
  (forall buf1, length buf1 = length buf ->
     take (p + length (l1 ++ x1)) buf1 = take p buf ++ l1 ++ x1 ->
     writes buf1 (p + length l1) l2 back2 (k buf1 (p + length l1))) ->
  writes buf p (l1 ++ l2) back2 (r1 ≫= fun '(b, q) => k b q).
Proof.
  intros Hp Hx [Hfit1 Hno1] Hk. rewrite !length_app in *.
  split; [intros Hfit|intros _ Hfit]; rewrite ?length_app in Hfit.
  - destruct Hfit1 as (buf1 & -> & Hlen1 & Htake1); [lia|]. simpl.
    replace (p + (length l1 + length x1) - length x1) with (p + length l1) by lia.
    destruct (Hk buf1 Hlen1) as [Hfit2 _].
    { exact Htake1. }
    destruct Hfit2 as (buf2 & -> & Hlen2 & Htake2); [lia|]. exists buf2.
    rewrite !length_app.
    split_and!; [do 2 f_equal; lia | congruence |].
    replace (p + (length l1 + length l2)) with (p + length l1 + length l2) by lia.
    rewrite Htake2. rewrite app_assoc. f_equal.
    apply (f_equal (take (p + length l1))) in Htake1.
    rewrite take_take, Nat.min_l in Htake1 by lia. rewrite Htake1.
    rewrite app_assoc. apply take_app_length'.
    rewrite length_app, length_take_le; lia.
  - destruct (decide (p + (length l1 + length x1) <= length buf)) as [Hf|Hf].
    + destruct Hfit1 as (buf1 & -> & Hlen1 & Htake1); [lia|]. simpl.
      replace (p + (length l1 + length x1) - length x1) with (p + length l1) by lia.
      destruct (Hk buf1 Hlen1) as [_ Hno2].
      { exact Htake1. }
      apply Hno2; lia.
    + rewrite Hno1 by lia. done.
Qed.

Lemma strpbrk_needs_quoting s :
  is_Some (strpbrk s quoting_chars) <-> needs_quoting s = true.
Proof.
  induction s as [|c s IH]; simpl.
  - split; [intros [? ?]|]; done.
  - destruct (bool_decide (c ∈ quoting_chars)); simpl.
    + split; [done | by eexists].
    + rewrite <- IH. rewrite fmap_is_Some. done.
Qed.

(** The tail of the quoting branch: the closing quote and the terminator. *)
Lemma close_quote_writes buf p :
  writes buf p [DQUOTE; NUL] 1
    (store buf p DQUOTE ≫= fun b3 => store b3 (S p) NUL ≫= fun b4 => Some (b4, S p)).
Proof.
  apply (writes_cons buf p DQUOTE [NUL] 1 (fun b3 => stpcpy b3 (S p) [])).
  - simpl. lia.
  - intros buf1 _. apply (stpcpy_writes []).
Qed.

Lemma quoted_shape (l : list ascii) :
  (DQUOTE :: l ++ [DQUOTE]) ++ [NUL] = [DQUOTE] ++ (l ++ [DQUOTE; NUL]).
Proof. simpl. by rewrite <- app_assoc. Qed.

Lemma build_w32_commandline_copy_writes s buf p :
  p <= length buf ->
  writes buf p (spec_token s ++ [NUL]) 1 (build_w32_commandline_copy buf p s).
Proof.
  intros Hp. destruct s as [|c s].
  { apply (stpcpy_writes [DQUOTE; DQUOTE]). }
  unfold build_w32_commandline_copy, spec_token.
  pose proof (strpbrk_needs_quoting (c :: s)) as Hq.
  destruct (strpbrk (c :: s) quoting_chars) as [i|].
  - rewrite (proj1 Hq) by by eexists.
    rewrite quoted_shape.
    apply (writes_seq buf p [DQUOTE] [NUL] _ 1 _
             (fun b1 p1 => copy_doubling b1 p1 (c :: s) ≫= fun '(b2, p2) =>
                 store b2 p2 DQUOTE ≫= fun b3 =>
                 store b3 (S p2) NUL ≫= fun b4 => Some (b4, S p2))).
    + done.
    + rewrite length_app. simpl. lia.
    + apply (stpcpy_writes [DQUOTE]).
    + intros buf1 Hlen1 Htake1.
      apply (writes_seq buf1 (p + length [DQUOTE]) (double_quotes (c :: s)) [] _ 1 _
               (fun b2 p2 => store b2 p2 DQUOTE ≫= fun b3 =>
                             store b3 (S p2) NUL ≫= fun b4 => Some (b4, S p2))).
      * apply (f_equal length) in Htake1.
        rewrite length_take, !length_app, length_take in Htake1. simpl in *. lia.
      * simpl. lia.
      * rewrite app_nil_r. apply copy_doubling_writes.
      * intros buf2 _ _. apply close_quote_writes.
  - destruct (needs_quoting (c :: s)).
    + destruct (proj2 Hq eq_refl) as [? ?]. done.
    + apply stpcpy_writes.
Qed.


Lemma take_lookup_last (b pre l : list ascii) n x :
  take (n + length (l ++ [x])) b = pre ++ l ++ [x] ->
  length pre = n ->
  b !! (n + length l) = Some x.
Proof.
  intros Htake Hpre.
  rewrite <- (lookup_take_lt b (n + length (l ++ [x]))), Htake
    by (rewrite length_app; simpl; lia).
  rewrite lookup_app_r, Hpre by lia.
  replace (n + length l - n) with (length l + 0) by lia.
  by rewrite lookup_app_r, Nat.add_comm, Nat.add_sub by lia.
Qed.

Lemma join_args_writes argv : forall buf p,
  buf !! p = Some NUL ->
  writes buf p (flat_map (fun a => SPACE :: spec_token a) argv ++ [NUL]) 1
    (join_args buf p argv).
Proof.
  induction argv as [|a argv IH]; intros buf p Hnul.
  - pose proof (lookup_lt_Some _ _ _ Hnul) as Hp.
    split; [intros _|simpl; lia]. exists buf. simpl.
    split_and!; [do 2 f_equal; lia | done |].
    replace (p + 1) with (S p) by lia. by apply take_S_r.
  - pose proof (lookup_lt_Some _ _ _ Hnul) as Hp.
    assert (join_args buf p (a :: argv)
            = (store buf p SPACE ≫= fun b1 => build_w32_commandline_copy b1 (S p) a)
                ≫= fun '(b, q) => join_args b q argv) as ->.
    { simpl. by destruct (store buf p SPACE). }
    cbn [flat_map]. rewrite <- app_assoc.
    apply (writes_seq buf p (SPACE :: spec_token a) [NUL] _ 1 _
             (fun b q => join_args b q argv)).
    + lia.
    + rewrite length_app. simpl. lia.
    + apply (writes_cons buf p SPACE (spec_token a ++ [NUL]) 1
               (fun b1 => build_w32_commandline_copy b1 (S p) a)).
      * rewrite length_app. simpl. lia.
      * intros buf1 Hlen1. apply build_w32_commandline_copy_writes. lia.
    + intros buf1 Hlen1 Htake1. apply IH.
      apply (take_lookup_last buf1 (take p buf) (SPACE :: spec_token a) p NUL).
      * exact Htake1.
      * apply length_take_le. lia.
Qed.

(** The two copying steps of build_w32_commandline as one routine. *)
Lemma render_writes buf pgmname argv :
  writes buf 0 (spec_commandline pgmname argv ++ [NUL]) 1
    (build_w32_commandline_copy buf 0 pgmname ≫= fun '(b, q) => join_args b q argv).
Proof.
  unfold spec_commandline. rewrite <- app_assoc.
  apply (writes_seq buf 0 (spec_token pgmname) [NUL] _ 1 _
           (fun b q => join_args b q argv)).
  - lia.
  - rewrite length_app. simpl. lia.
  - apply build_w32_commandline_copy_writes. lia.
  - intros buf1 Hlen1 Htake1. apply join_args_writes.
    apply (take_lookup_last buf1 (take 0 buf) (spec_token pgmname) 0 NUL);
      [exact Htake1 | done].
Qed.

Lemma c_str_prefix s : forall buf,
  c_string s ->
  take (length s + 1) buf = s ++ [NUL] ->
  c_str buf = Some s.
Proof.
  unfold c_string.
  induction s as [|c s IH]; intros buf Hs Htake; destruct buf as [|b buf];
    simpl in *; try done.
  - injection Htake as ->. by rewrite decide_True.
  - injection Htake as -> Htake. apply not_elem_of_cons in Hs as [Hc Hs].
    rewrite decide_False by done. by rewrite (IH buf).
Qed.

Lemma double_quotes_elem c t : c ∈ double_quotes t -> c = DQUOTE \/ c ∈ t.
Proof.
  unfold double_quotes. rewrite !list_elem_of_In, in_flat_map.
  intros (x & Hx & Hc). case_decide; subst.
  - left. destruct Hc as [<-|[<-|[]]]; done.
  - right. destruct Hc as [<-|[]]. done.
Qed.

Lemma spec_token_c_string t : c_string t -> c_string (spec_token t).
Proof.
  unfold c_string, spec_token. intros Ht.
  destruct t as [|c t].
  { rewrite !not_elem_of_cons. split_and!; [done | done | apply not_elem_of_nil]. }
  destruct (needs_quoting (c :: t)); [|done].
  rewrite not_elem_of_cons, not_elem_of_app. split_and!; try done.
  - intros [?|?]%double_quotes_elem; done.
  - by intros ?%list_elem_of_singleton.
Qed.

Lemma spec_commandline_c_string pgmname argv :
  c_string pgmname -> Forall c_string argv -> c_string (spec_commandline pgmname argv).
Proof.
  intros Hp Ha. unfold spec_commandline, c_string.
  rewrite not_elem_of_app. split; [by apply spec_token_c_string|].
  rewrite list_elem_of_In, in_flat_map. intros (a & Hin & Hc).
  rewrite Forall_forall in Ha. apply list_elem_of_In in Hin.
  apply list_elem_of_In in Hc. apply elem_of_cons in Hc as [?|Hc]; [done|].
  by apply (spec_token_c_string a (Ha a Hin)).
Qed.


Local Open Scope Z_scope.

Lemma inner_quotes_cons c t :
  inner_quotes (c :: t) = (if decide (c = DQUOTE) then 1 else 0) + inner_quotes t.
Proof.
  unfold inner_quotes. case_decide.
  - rewrite filter_cons_True by done. simpl length. lia.
  - rewrite filter_cons_False by done. lia.
Qed.

Lemma inner_quotes_nonneg t : 0 <= inner_quotes t.
Proof. unfold inner_quotes. lia. Qed.

Lemma double_quotes_length t :
  Z.of_nat (length (double_quotes t)) = Z.of_nat (length t) + inner_quotes t.
Proof.
  induction t as [|c t IH]; [done|].
  rewrite inner_quotes_cons. cbn [double_quotes flat_map]. fold (double_quotes t).
  rewrite length_app. case_decide; simpl length; lia.
Qed.

Lemma token_bytes_eq t : token_bytes t = Z.of_nat (length t) + 3 + inner_quotes t.
Proof. done. Qed.

Lemma spec_token_length t : Z.of_nat (length (spec_token t)) + 1 <= token_bytes t.
Proof.
  rewrite token_bytes_eq. pose proof (inner_quotes_nonneg t).
  unfold spec_token. destruct t as [|c t]; [simpl; lia|].
  destruct (needs_quoting (c :: t)); [|lia].
  cbn [length]. rewrite length_app, Nat2Z.inj_succ, Nat2Z.inj_add, double_quotes_length.
  simpl length. lia.
Qed.

Lemma args_bytes_nonneg argv : 0 <= args_bytes argv.
Proof.
  induction argv as [|a argv IH]; simpl; [lia|].
  pose proof (spec_token_length a). lia.
Qed.

Lemma spec_commandline_length pgmname argv :
  Z.of_nat (length (spec_commandline pgmname argv)) + 2 <= exact_n pgmname argv.
Proof.
  unfold exact_n, spec_commandline. fold (args_bytes argv).
  rewrite length_app, Nat2Z.inj_add.
  pose proof (spec_token_length pgmname).
  assert (Z.of_nat (length (flat_map (fun a => SPACE :: spec_token a) argv))
          <= args_bytes argv); [|lia].
  induction argv as [|a argv IH]; simpl; [lia|].
  rewrite length_app, Nat2Z.inj_succ, Nat2Z.inj_add.
  pose proof (spec_token_length a). fold (args_bytes argv). lia.
Qed.

Lemma count_inner_quotes_exact s : forall n,
  0 <= n -> n + inner_quotes s <= INT_MAX ->
  count_inner_quotes n s = n + inner_quotes s.
Proof.
  induction s as [|c s IH]; intros n Hn Hmax.
  - unfold inner_quotes. simpl. lia.
  - rewrite inner_quotes_cons in *. pose proof (inner_quotes_nonneg s).
    simpl. case_decide.
    + rewrite to_int_small by (unfold INT_MAX in *; lia).
      rewrite IH by lia. lia.
    + rewrite IH by lia. lia.
Qed.

Lemma count_token_exact n s :
  0 <= n -> n + token_bytes s <= INT_MAX ->
  count_token n s = n + token_bytes s.
Proof.
  intros Hn Hmax. rewrite token_bytes_eq in *.
  pose proof (inner_quotes_nonneg s). unfold INT_MAX in *.
  unfold count_token, strlen.
  rewrite (to_size_small (Z.of_nat (length s))) by lia.
  rewrite (to_size_small n) by lia.
  rewrite (to_size_small (Z.of_nat (length s) + 1 + 2)) by lia.
  rewrite to_size_small by lia.
  rewrite to_int_small by (unfold INT_MAX; lia).
  rewrite count_inner_quotes_exact by (unfold INT_MAX; lia). lia.
Qed.

Lemma foldl_count_token_exact argv : forall n,
  0 <= n -> n + args_bytes argv <= INT_MAX ->
  foldl count_token n argv = n + args_bytes argv.
Proof.
  induction argv as [|a argv IH]; intros n Hn Hmax; simpl in *; [lia|].
  pose proof (args_bytes_nonneg argv). pose proof (spec_token_length a).
  fold (args_bytes argv) in *.
  rewrite count_token_exact by lia. rewrite IH by lia. lia.
Qed.

Lemma computed_n_exact pgmname argv :
  exact_n pgmname argv <= INT_MAX -> computed_n pgmname argv = exact_n pgmname argv.
Proof.
  unfold exact_n, computed_n. fold (args_bytes argv). intros Hmax.
  pose proof (args_bytes_nonneg argv). pose proof (spec_token_length pgmname).
  rewrite count_token_exact by lia.
  rewrite foldl_count_token_exact by lia.
  rewrite to_int_small by (unfold INT_MAX in *; lia). lia.
Qed.


Section BuilderFacts.

Variable xtrymalloc : Z -> option (list ascii).
Variable errno : Z.
Variable default_errsource : gpg_err_source_t.

Local Abbreviation build := (build_w32_commandline xtrymalloc errno default_errsource).

(** Once the block is there, the builder either leaves the rendered
    command line and its terminator at the start of the block, or runs
    over the end of the block. *)
Lemma build_w32_commandline_outcome pgmname argv block :
  xtrymalloc (to_size (computed_n pgmname argv)) = Some block ->
  ((length (spec_commandline pgmname argv) < length block)%nat ->
     exists buf, build pgmname argv = Ok buf
              /\ take (length (spec_commandline pgmname argv) + 1) buf
                 = spec_commandline pgmname argv ++ [NUL])
  /\ ((length block <= length (spec_commandline pgmname argv))%nat ->
        build pgmname argv = Fault).
Proof.
  intros Hblock. unfold build_w32_commandline. rewrite Hblock.
  destruct (render_writes block pgmname argv) as [Hfit Hno].
  rewrite length_app in Hfit, Hno. simpl in Hfit, Hno.
  split; intros Hlen.
  - destruct Hfit as (buf & Hr & _ & Htake); [lia|].
    exists buf. rewrite Hr. split; [done|]. by rewrite Htake.
  - rewrite Hno by lia. done.
Qed.

(** C1 (amended): for every program path and argument vector of C
    strings whose byte count (per token its length plus 3 plus one per
    inner double quote, plus one) fits an int, build_w32_commandline,
    once its block is allocated, returns the command line: the tokens
    joined by single spaces, program path first, each token copied
    verbatim when it holds none of space, tab, newline, vertical tab,
    form feed or double quote, wrapped in double quotes with every inner
    double quote doubled otherwise, and rendered as two double quotes
    when it is empty. *)
Theorem build_w32_commandline_renders pgmname argv :
  c_string pgmname -> Forall c_string argv ->
  malloc_sized xtrymalloc -> exact_n pgmname argv <= INT_MAX ->
  is_Some (xtrymalloc (exact_n pgmname argv)) ->
  exists buf, build pgmname argv = Ok buf
              /\ c_str buf = Some (spec_commandline pgmname argv).
Proof.
  intros Hpgm Hargv Hsized Hmax [block Hblock].
  pose proof (spec_commandline_c_string pgmname argv Hpgm Hargv) as Hc.
  pose proof (spec_commandline_length pgmname argv) as Hlen.
  pose proof (computed_n_exact pgmname argv Hmax) as Hn.
  assert (to_size (computed_n pgmname argv) = exact_n pgmname argv) as Hsize.
  { rewrite Hn. apply to_size_small. unfold INT_MAX in *. lia. }
  rewrite <- Hsize in Hblock.
  destruct (build_w32_commandline_outcome pgmname argv block Hblock) as [Hfit _].
  destruct Hfit as (buf & Hok & Htake).
  { rewrite (Hsized _ _ Hblock), Hsize. lia. }
  exists buf. split; [done|]. by apply c_str_prefix.
Qed.

(** C10 (amended): when the byte count (per token its length plus 3 plus
    one per inner double quote, plus one) fits an int, the [n] that
    build_w32_commandline computes is that count, it covers the rendered
    command line with its joining spaces and its terminator, and no
    store of the copying routines falls outside the block of [n] bytes. *)
Theorem computed_n_sufficient pgmname argv :
  malloc_sized xtrymalloc -> exact_n pgmname argv <= INT_MAX ->
  computed_n pgmname argv = exact_n pgmname argv
  /\ Z.of_nat (length (spec_commandline pgmname argv)) + 1 <= computed_n pgmname argv
  /\ build pgmname argv <> Fault.
Proof.
  intros Hsized Hmax.
  pose proof (spec_commandline_length pgmname argv) as Hlen.
  pose proof (computed_n_exact pgmname argv Hmax) as Hn.
  split_and!; [done | lia |].
  destruct (xtrymalloc (to_size (computed_n pgmname argv))) as [block|] eqn:Hblock.
  - destruct (build_w32_commandline_outcome pgmname argv block Hblock) as [Hfit _].
    destruct Hfit as (buf & -> & _); [|done].
    rewrite (Hsized _ _ Hblock), Hn, to_size_small by (unfold INT_MAX in *; lia).
    lia.
  - unfold build_w32_commandline. by rewrite Hblock.
Qed.

End BuilderFacts.

Lemma malloc_filled_sized fill : malloc_sized (malloc_filled fill).
Proof.
  intros size block [= <-]. apply length_replicate.
Qed.


Lemma build_w32_commandline_renders_witness :
  c_string sample_pgmname /\ Forall c_string sample_argv
  /\ malloc_sized (malloc_filled "x")
  /\ exact_n sample_pgmname sample_argv <= INT_MAX
  /\ is_Some (malloc_filled "x" (exact_n sample_pgmname sample_argv))
  /\ exists buf,
       build_w32_commandline (malloc_filled "x") 0 GPG_ERR_SOURCE_DEFAULT
         sample_pgmname sample_argv = Ok buf
       /\ c_str buf = Some (spec_commandline sample_pgmname sample_argv).
Proof.
  assert (c_string sample_pgmname) as Hp by (by apply (bool_decide_unpack _)).
  assert (Forall c_string sample_argv) as Ha
    by (repeat constructor; by apply (bool_decide_unpack _)).
  assert (exact_n sample_pgmname sample_argv <= INT_MAX) as Hmax by (by vm_compute).
  assert (is_Some (malloc_filled "x" (exact_n sample_pgmname sample_argv))) as Hsome
    by (by eexists).
  split_and!; [done | done | apply malloc_filled_sized | done | done |].
  exact (build_w32_commandline_renders (malloc_filled "x") 0 GPG_ERR_SOURCE_DEFAULT
           sample_pgmname sample_argv Hp Ha (malloc_filled_sized "x") Hmax Hsome).
Defined.

Lemma computed_n_sufficient_witness :
  malloc_sized (malloc_filled "x")
  /\ exact_n sample_pgmname sample_argv <= INT_MAX
  /\ computed_n sample_pgmname sample_argv = exact_n sample_pgmname sample_argv
  /\ Z.of_nat (length (spec_commandline sample_pgmname sample_argv)) + 1
     <= computed_n sample_pgmname sample_argv
  /\ build_w32_commandline (malloc_filled "x") 0 GPG_ERR_SOURCE_DEFAULT
       sample_pgmname sample_argv <> Fault.
Proof.
  assert (exact_n sample_pgmname sample_argv <= INT_MAX) as Hmax by (by vm_compute).
  split; [apply malloc_filled_sized|]. split; [done|].
  apply (computed_n_sufficient (malloc_filled "x") 0 GPG_ERR_SOURCE_DEFAULT
           sample_pgmname sample_argv (malloc_filled_sized "x") Hmax).
Defined.

(** An argument of 2^32 characters: the count wraps around to 8. *)
Lemma replicate_plain k :
  needs_quoting (replicate k "b"%char) = false /\ inner_quotes (replicate k "b"%char) = 0.
Proof.
  induction k as [|k [IH1 IH2]]; [done|]. split.
  - simpl. exact IH1.
  - change (replicate (S k) "b"%char) with ("b"%char :: replicate k "b"%char).
    rewrite inner_quotes_cons, IH2. done.
Qed.

Lemma long_argument_wraps k :
  Z.of_nat k = 4294967296 ->
  let pgmname := ["a"%char] in
  let argv := [replicate k "b"%char] in
  computed_n pgmname argv = 8
  /\ 8 < Z.of_nat (length (spec_commandline pgmname argv)) + 1
  /\ build_w32_commandline (malloc_filled "x") 0 GPG_ERR_SOURCE_DEFAULT pgmname argv
     = Fault.
Proof.
  intros Hk pgmname argv. subst pgmname argv.
  destruct (replicate_plain k) as [Hplain Hquotes].
  assert (computed_n ["a"%char] [replicate k "b"%char] = 8) as Hn.
  { unfold computed_n. cbn [foldl].
    change (count_token 0 ["a"%char]) with 4.
    unfold count_token, strlen. rewrite length_replicate, Hk.
    change (to_int (to_size (to_size 4 + to_size (to_size 4294967296 + 1 + 2)))) with 7.
    rewrite count_inner_quotes_exact by (rewrite ?Hquotes; unfold INT_MAX; lia).
    rewrite Hquotes. done. }
  assert (length (spec_commandline ["a"%char] [replicate k "b"%char]) = S (S k)) as Hlen.
  { unfold spec_commandline. cbn [flat_map spec_token needs_quoting existsb].
    change (bool_decide ("a"%char ∈ quoting_chars)) with false. cbn [orb app length].
    rewrite app_nil_r. f_equal. f_equal.
    destruct k as [|k]; [done|].
    change (replicate (S k) "b"%char) with ("b"%char :: replicate k "b"%char) in *.
    unfold spec_token. rewrite Hplain. cbn [length]. by rewrite length_replicate. }
  split_and!; [done | lia |].
  destruct (build_w32_commandline_outcome (malloc_filled "x") 0 GPG_ERR_SOURCE_DEFAULT
              ["a"%char] [replicate k "b"%char] (replicate 8 "x"%char)) as [_ Hno].
  { by rewrite Hn. }
  apply Hno. rewrite Hlen, length_replicate. lia.
Qed.

Lemma computed_n_wraps_around :
  let pgmname := ["a"%char] in
  let argv := [replicate (Z.to_nat 4294967296) "b"%char] in
  computed_n pgmname argv = 8
  /\ 8 < Z.of_nat (length (spec_commandline pgmname argv)) + 1
  /\ build_w32_commandline (malloc_filled "x") 0 GPG_ERR_SOURCE_DEFAULT pgmname argv
     = Fault.
Proof.
  apply (long_argument_wraps (Z.to_nat 4294967296)).
  apply Z2Nat.id. lia.
Qed.

(** C1 (the claim at a failing input): the program path a and one
    argument of 2^32 characters b are C strings, and the allocator gives
    a block of the size asked for at every request; the builder does not
    return a command line: it stores past the end of its block of 8
    bytes. *)
Lemma long_argument_is_not_rendered :
  let pgmname := ["a"%char] in
  let argv := [replicate (Z.to_nat 4294967296) "b"%char] in
  c_string pgmname /\ Forall c_string argv
  /\ malloc_sized (malloc_filled "x")
  /\ (forall size, is_Some (malloc_filled "x" size))
  /\ build_w32_commandline (malloc_filled "x") 0 GPG_ERR_SOURCE_DEFAULT pgmname argv
     = Fault.
Proof.
  cbv zeta. split_and!.
  - by apply (bool_decide_unpack _).
  - constructor; [|constructor]. unfold c_string. by intros [? _]%elem_of_replicate.
  - apply malloc_filled_sized.
  - intros size. by eexists.
  - apply (long_argument_wraps (Z.to_nat 4294967296)). apply Z2Nat.id. lia.
Qed.

End CmdlineFacts.

Module ProcessFacts.
Import MachInt Err Win32 Process ErrFacts.
Local Open Scope proc_scope.

Ltac unfold_m :=
  unfold bind, ret, deref, emit, poke, assign, xfree, pre_syscall, post_syscall in *.

(** process_kill only talks to the system: it returns what the result of
    TerminateProcess selects, and the stored objects and the caller's
    variables stay as they are. *)
Lemma process_kill_result w s p pr exit_code :
  heap s !! p = Some pr ->
  exists s',
    process_kill w p exit_code s
    = Some (if TerminateProcess w (hProcess pr) exit_code
            then gpg_err_code_from_syserror (errno w) else GPG_ERR_NO_ERROR, s')
    /\ heap s' = heap s /\ mem s' = mem s
    /\ Ev_TerminateProcess (hProcess pr) exit_code ∈ trace s'.
Proof.
  intros Hp. unfold process_kill. unfold_m.
  destruct (pre_syscall_func w), (post_syscall_func w); simpl; rewrite Hp; simpl;
    eexists; (split; [reflexivity|]); simpl; split_and!; try done; set_solver.
Qed.

(** C5: the kill request of gnupg_process_ctl and gnupg_process_terminate
    leave every process object as it is, so neither the terminated flag
    nor the cached exit status changes; and the kill request returns
    success without doing anything when the native process reference is
    the invalid handle or when terminated is set. *)
Theorem kill_leaves_process_object w s p pr exit_code :
  heap s !! p = Some pr ->
  (exists ec s',
     gnupg_process_ctl w p (GNUPG_PROCESS_KILL_WITH_EC exit_code) s = Some (ec, s')
     /\ heap s' = heap s
     /\ (hProcess pr = INVALID_HANDLE_VALUE \/ terminated pr = true ->
         ec = GPG_ERR_NO_ERROR /\ s' = s))
  /\ (exists ec s',
        gnupg_process_terminate w p s = Some (ec, s') /\ heap s' = heap s).
Proof.
  intros Hp. split.
  - unfold gnupg_process_ctl, process_vctl.
    unfold bind at 1. unfold deref at 1. rewrite Hp.
    destruct (terminated pr) eqn:Ht.
    { exists GPG_ERR_NO_ERROR, s. by split_and!. }
    destruct (decide (hProcess pr = INVALID_HANDLE_VALUE)) as [Hh|Hh].
    { exists GPG_ERR_NO_ERROR, s. by split_and!. }
    destruct (process_kill_result w s p pr exit_code Hp) as (s' & Hk & Hheap & _).
    eexists _, s'. split_and!; [exact Hk | done |].
    intros [?|?]; done.
  - destruct (process_kill_result w s p pr 1 Hp) as (s' & Hk & Hheap & _).
    eexists _, s'. split; [exact Hk | done].
Qed.


Lemma kill_leaves_process_object_witness :
  heap (one_process running_process) !! 1 = Some running_process
  /\ (exists ec s',
        gnupg_process_ctl os_succeeds 1 (GNUPG_PROCESS_KILL_WITH_EC 9)
          (one_process running_process) = Some (ec, s')
        /\ heap s' = heap (one_process running_process)
        /\ (hProcess running_process = INVALID_HANDLE_VALUE
            \/ terminated running_process = true ->
            ec = GPG_ERR_NO_ERROR /\ s' = one_process running_process))
  /\ (exists ec s',
        gnupg_process_terminate os_succeeds 1 (one_process running_process) = Some (ec, s')
        /\ heap s' = heap (one_process running_process)).
Proof.
  assert (heap (one_process running_process) !! 1 = Some running_process) as Hp
    by reflexivity.
  split; [exact Hp|].
  exact (kill_leaves_process_object os_succeeds (one_process running_process) 1
           running_process 9 Hp).
Defined.

(** C8 (the code at the failing inputs): on a running process with a live
    native reference, the kill request and gnupg_process_terminate return
    an error code when TerminateProcess succeeds and success when it
    fails. *)
Theorem process_kill_inverts_the_result :
  (fst <$> gnupg_process_ctl os_succeeds 1 (GNUPG_PROCESS_KILL_WITH_EC 9)
             (one_process running_process)) = Some GPG_ERR_MISSING_ERRNO
  /\ (fst <$> gnupg_process_ctl os_fails 1 (GNUPG_PROCESS_KILL_WITH_EC 9)
                (one_process running_process)) = Some GPG_ERR_NO_ERROR
  /\ (fst <$> gnupg_process_terminate os_succeeds 1 (one_process running_process))
     = Some GPG_ERR_MISSING_ERRNO
  /\ (fst <$> gnupg_process_terminate os_fails 1 (one_process running_process))
     = Some GPG_ERR_NO_ERROR.
Proof. split_and!; reflexivity. Qed.

(** C2 (the code at the failing inputs): releasing a process that is
    still recorded as running only frees the object, without
    TerminateProcess or a wait; releasing one whose terminated flag is set
    calls TerminateProcess and waits before it frees the object. *)
Theorem release_tests_the_flag_inverted :
  (trace ∘ snd <$> gnupg_process_release os_succeeds (Some 1) (one_process running_process))
  = Some [Ev_xfree 1]
  /\ (trace ∘ snd <$> gnupg_process_release os_succeeds (Some 1)
                       (one_process terminated_process))
     = Some [Ev_TerminateProcess 100 1; Ev_WaitForSingleObject 100 true; Ev_xfree 1].
Proof. split; reflexivity. Qed.

(** What gnupg_process_release does, for every object and system. *)
Lemma release_of_running w s p pr :
  heap s !! p = Some pr -> terminated pr = false ->
  gnupg_process_release w (Some p) s
  = Some (tt, mk_state (delete p (heap s)) (mem s) (trace s ++ [Ev_xfree p])).
Proof.
  intros Hp Ht. unfold gnupg_process_release. unfold_m. rewrite Hp, Ht. simpl.
  by rewrite Hp.
Qed.

Lemma release_of_terminated w s p pr :
  heap s !! p = Some pr -> terminated pr = true ->
  exists s', gnupg_process_release w (Some p) s = Some (tt, s')
    /\ Ev_TerminateProcess (hProcess pr) 1 ∈ trace s'.
Proof.
  intros Hp Ht. unfold gnupg_process_release, gnupg_process_terminate.
  unfold bind at 1. unfold deref at 1. rewrite Hp, Ht.
  destruct (process_kill_result w s p pr 1 Hp) as (s1 & Hk & Hheap & Hmem & Htr).
  unfold bind at 1. unfold bind at 1. rewrite Hk.
  assert (heap s1 !! p = Some pr) as Hp1 by by rewrite Hheap.
  unfold gnupg_process_wait. unfold_m. rewrite Hp1.
  destruct (decide (hProcess pr = INVALID_HANDLE_VALUE)); simpl.
  - rewrite Hp1. eexists. split; [reflexivity|]. simpl. set_solver.
  - destruct (pre_syscall_func w), (post_syscall_func w),
      (WaitForSingleObject w (hProcess pr) true);
      repeat (progress (simpl; rewrite ?Hp1, ?lookup_insert_eq));
      eexists; (split; [reflexivity|]); simpl; set_solver.
Qed.


(** C6 (amended): while the terminated flag is false the get-exit-code
    and get-exit-id requests return GPG_ERR_UNFINISHED, an error, and
    report no status (the first leaves the caller's variable alone, the
    second leaves -1 in it); once terminated is true they return success
    with -1 when the native process reference is the invalid handle,
    success with the native exit status when GetExitCodeProcess
    succeeds, and the error code of the system when it fails. *)
Theorem exit_status_query w s p pr a :
  heap s !! p = Some pr ->
  (terminated pr = false ->
     is_error GPG_ERR_UNFINISHED = true
     /\ gnupg_process_ctl w p (GNUPG_PROCESS_GET_EXIT_CODE (Some a)) s
        = Some (GPG_ERR_UNFINISHED, s)
     /\ gnupg_process_ctl w p (GNUPG_PROCESS_GET_EXIT_ID (Some a)) s
        = Some (GPG_ERR_UNFINISHED, mk_state (heap s) (<[a:=-1]> (mem s)) (trace s)))
  /\ (terminated pr = true ->
      (hProcess pr = INVALID_HANDLE_VALUE ->
         gnupg_process_ctl w p (GNUPG_PROCESS_GET_EXIT_CODE (Some a)) s
         = Some (GPG_ERR_NO_ERROR, mk_state (heap s) (<[a:=4294967295]> (mem s)) (trace s))
         /\ gnupg_process_ctl w p (GNUPG_PROCESS_GET_EXIT_ID (Some a)) s
            = Some (GPG_ERR_NO_ERROR, mk_state (heap s) (<[a:=-1]> (mem s)) (trace s)))
      /\ (hProcess pr <> INVALID_HANDLE_VALUE ->
          forall exit_code, GetExitCodeProcess w (hProcess pr) = Some exit_code ->
          (exists s', gnupg_process_ctl w p (GNUPG_PROCESS_GET_EXIT_CODE (Some a)) s
                      = Some (GPG_ERR_NO_ERROR, s')
                      /\ mem s' !! a = Some exit_code)
          /\ (exists s', gnupg_process_ctl w p (GNUPG_PROCESS_GET_EXIT_ID (Some a)) s
                         = Some (GPG_ERR_NO_ERROR, s')
                         /\ mem s' !! a = Some (to_int exit_code)))
      /\ (hProcess pr <> INVALID_HANDLE_VALUE ->
          GetExitCodeProcess w (hProcess pr) = None ->
          is_error (gpg_err_code_from_syserror (errno w)) = true
          /\ (exists s', gnupg_process_ctl w p (GNUPG_PROCESS_GET_EXIT_CODE (Some a)) s
                         = Some (gpg_err_code_from_syserror (errno w), s'))
          /\ (exists s', gnupg_process_ctl w p (GNUPG_PROCESS_GET_EXIT_ID (Some a)) s
                         = Some (gpg_err_code_from_syserror (errno w), s')))).
Proof.
  intros Hp. unfold gnupg_process_ctl, process_vctl. unfold_m. simpl. rewrite Hp.
  split; intros Ht; rewrite Ht; simpl.
  - split_and!; [done | by destruct s | done].
  - split_and!.
    + intros Hh. rewrite !decide_True by done. done.
    + intros Hh exit_code Hq. rewrite !decide_False by done. simpl. rewrite Hq. simpl.
      split; eexists; (split; [reflexivity|]); simpl; by rewrite lookup_insert_eq.
    + intros Hh Hq. rewrite !decide_False by done. simpl. rewrite Hq.
      split_and!; [apply from_syserror_is_error | by eexists | by eexists].
Qed.

Lemma exit_status_query_witness :
  heap (one_process running_process) !! 1 = Some running_process
  /\ terminated running_process = false
  /\ gnupg_process_ctl os_succeeds 1 (GNUPG_PROCESS_GET_EXIT_CODE (Some 50))
       (one_process running_process)
     = Some (GPG_ERR_UNFINISHED, one_process running_process)
  /\ heap (one_process terminated_process) !! 1 = Some terminated_process
  /\ terminated terminated_process = true
  /\ hProcess terminated_process <> INVALID_HANDLE_VALUE
  /\ GetExitCodeProcess os_succeeds (hProcess terminated_process) = Some 7
  /\ (exists s', gnupg_process_ctl os_succeeds 1 (GNUPG_PROCESS_GET_EXIT_CODE (Some 50))
                   (one_process terminated_process) = Some (GPG_ERR_NO_ERROR, s')
                 /\ mem s' !! 50 = Some 7).
Proof.
  assert (heap (one_process running_process) !! 1 = Some running_process) as Hr
    by reflexivity.
  assert (heap (one_process terminated_process) !! 1 = Some terminated_process) as Ht
    by reflexivity.
  assert (hProcess terminated_process <> INVALID_HANDLE_VALUE) as Hh by done.
  pose proof (exit_status_query os_succeeds _ 1 _ 50 Hr) as [Hrun _].
  pose proof (exit_status_query os_succeeds _ 1 _ 50 Ht) as [_ Hterm].
  destruct (Hrun eq_refl) as (_ & Hcode & _).
  destruct (Hterm eq_refl) as (_ & Hnative & _).
  destruct (Hnative Hh 7 eq_refl) as [Hc _].
  split_and!; [exact Hr | reflexivity | exact Hcode | exact Ht | reflexivity
              | exact Hh | reflexivity | exact Hc].
Defined.

(** The claim as stated fails once GetExitCodeProcess fails: with the
    terminated flag set, both queries return an error. *)
Lemma exit_status_query_can_fail :
  terminated terminated_process = true
  /\ (fst <$> gnupg_process_ctl os_fails 1 (GNUPG_PROCESS_GET_EXIT_CODE (Some 50))
                (one_process terminated_process)) = Some (GPG_ERR_SYSTEM 5)
  /\ (fst <$> gnupg_process_ctl os_fails 1 (GNUPG_PROCESS_GET_EXIT_ID (Some 50))
                (one_process terminated_process)) = Some (GPG_ERR_SYSTEM 5).
Proof. split_and!; reflexivity. Qed.


(** One hand-off: every stream end that is asked for goes to the caller's
    variable, and its field is reset to the invalid handle. *)
Lemma hand_off_effect w op s p pr r_in r_out r_err :
  heap s !! p = Some pr ->
  exists s',
    run_hand_off w op p r_in r_out r_err s = Some (GPG_ERR_NO_ERROR, s')
    /\ heap s' !! p
       = Some (reset_if r_err set_hd_err
                 (reset_if r_out set_hd_out (reset_if r_in set_hd_in pr)))
    /\ mem s'
       = store_if r_err (handed w op End_err (hd_err pr))
           (store_if r_out (handed w op End_out (hd_out pr))
              (store_if r_in (handed w op End_in (hd_in pr)) (mem s))).
Proof.
  intros Hp.
  destruct op as [fl|nonblock|];
    unfold run_hand_off, gnupg_process_get_fds, gnupg_process_get_streams,
      gnupg_process_ctl, process_vctl;
    unfold_m;
    destruct r_in, r_out, r_err;
    repeat (progress (simpl; rewrite ?Hp, ?lookup_insert_eq));
    eexists; (split; [reflexivity|]); simpl; rewrite ?lookup_insert_eq;
    try destruct nonblock; done.
Qed.

Lemma reset_field e r_in r_out r_err pr a :
  wanted e r_in r_out r_err = Some a ->
  stream_field e
    (reset_if r_err set_hd_err (reset_if r_out set_hd_out (reset_if r_in set_hd_in pr)))
  = INVALID_HANDLE_VALUE.
Proof. destruct e, r_in, r_out, r_err; simpl; intros; done. Qed.

Lemma stored_value e r_in r_out r_err (v : stream_end -> Z) m a :
  wanted e r_in r_out r_err = Some a ->
  separate e r_in r_out r_err ->
  store_if r_err (v End_err) (store_if r_out (v End_out) (store_if r_in (v End_in) m)) !! a
  = Some (v e).
Proof.
  intros Ha Hsep.
  assert (forall e', e' <> e -> wanted e' r_in r_out r_err <> Some a) as Hne
    by (intros e' He'; rewrite <- Ha; by apply Hsep).
  pose proof (Hne End_in) as Hin. pose proof (Hne End_out) as Hout.
  pose proof (Hne End_err) as Herr.
  destruct e; simpl in *; subst.
  - destruct r_out as [b|], r_err as [c|]; simpl;
      rewrite ?lookup_insert_ne by naive_solver; by rewrite lookup_insert_eq.
  - destruct r_err as [c|]; simpl;
      rewrite ?lookup_insert_ne by naive_solver; by rewrite lookup_insert_eq.
  - simpl. by rewrite lookup_insert_eq.
Qed.

(** C9: after gnupg_process_get_fds, gnupg_process_get_streams or the
    get-handles request has handed a stream end to the caller, the field
    of that stream end is the invalid handle, and a second hand-off of it
    through any of the three operations hands out the invalid handle (or
    what the wrapping call makes of the invalid handle), never the live
    handle again. *)
Theorem stream_end_handed_out_once w op1 op2 e s p pr
    r_in r_out r_err r_in' r_out' r_err' a a' :
  heap s !! p = Some pr ->
  wanted e r_in r_out r_err = Some a ->
  wanted e r_in' r_out' r_err' = Some a' ->
  separate e r_in r_out r_err ->
  separate e r_in' r_out' r_err' ->
  exists s1 pr1,
    run_hand_off w op1 p r_in r_out r_err s = Some (GPG_ERR_NO_ERROR, s1)
    /\ mem s1 !! a = Some (handed w op1 e (stream_field e pr))
    /\ heap s1 !! p = Some pr1
    /\ stream_field e pr1 = INVALID_HANDLE_VALUE
    /\ exists s2 pr2,
         run_hand_off w op2 p r_in' r_out' r_err' s1 = Some (GPG_ERR_NO_ERROR, s2)
         /\ mem s2 !! a' = Some (handed w op2 e INVALID_HANDLE_VALUE)
         /\ heap s2 !! p = Some pr2
         /\ stream_field e pr2 = INVALID_HANDLE_VALUE.
Proof.
  intros Hp Ha Ha' Hsep Hsep'.
  destruct (hand_off_effect w op1 s p pr r_in r_out r_err Hp) as (s1 & Hrun1 & Hp1 & Hm1).
  pose proof (reset_field e r_in r_out r_err pr a Ha) as Hreset1.
  destruct (hand_off_effect w op2 s1 p _ r_in' r_out' r_err' Hp1)
    as (s2 & Hrun2 & Hp2 & Hm2).
  pose proof (reset_field e r_in' r_out' r_err' 
                (reset_if r_err set_hd_err
                   (reset_if r_out set_hd_out (reset_if r_in set_hd_in pr))) a' Ha')
    as Hreset2.
  eexists s1, _. split_and!; [exact Hrun1 | | exact Hp1 | exact Hreset1 |].
  - rewrite Hm1.
    exact (stored_value e r_in r_out r_err
             (fun e' => handed w op1 e' (stream_field e' pr)) (mem s) a Ha Hsep).
  - eexists s2, _. split_and!; [exact Hrun2 | | exact Hp2 | exact Hreset2].
    rewrite Hm2, <- Hreset1.
    exact (stored_value e r_in' r_out' r_err'
             (fun e' => handed w op2 e'
                          (stream_field e'
                             (reset_if r_err set_hd_err
                                (reset_if r_out set_hd_out
                                   (reset_if r_in set_hd_in pr)))))
             (mem s1) a' Ha' Hsep').
Qed.

Lemma stream_end_handed_out_once_witness :
  heap (one_process running_process) !! 1 = Some running_process
  /\ wanted End_out (Some 10) (Some 11) None = Some 11
  /\ wanted End_out None (Some 21) (Some 22) = Some 21
  /\ separate End_out (Some 10) (Some 11) None
  /\ separate End_out None (Some 21) (Some 22)
  /\ exists s1 pr1,
       run_hand_off os_succeeds (By_get_streams false) 1 (Some 10) (Some 11) None
         (one_process running_process) = Some (GPG_ERR_NO_ERROR, s1)
       /\ mem s1 !! 11 = Some (handed os_succeeds (By_get_streams false) End_out
                                 (stream_field End_out running_process))
       /\ heap s1 !! 1 = Some pr1
       /\ stream_field End_out pr1 = INVALID_HANDLE_VALUE
       /\ exists s2 pr2,
            run_hand_off os_succeeds By_get_handles 1 None (Some 21) (Some 22) s1
            = Some (GPG_ERR_NO_ERROR, s2)
            /\ mem s2 !! 21 = Some (handed os_succeeds By_get_handles End_out
                                      INVALID_HANDLE_VALUE)
            /\ heap s2 !! 1 = Some pr2
            /\ stream_field End_out pr2 = INVALID_HANDLE_VALUE.
Proof.
  assert (separate End_out (Some 10) (Some 11) None) as Hs1
    by (intros [| |] He; simpl; done).
  assert (separate End_out None (Some 21) (Some 22)) as Hs2
    by (intros [| |] He; simpl; done).
  split_and!; [reflexivity | reflexivity | reflexivity | exact Hs1 | exact Hs2 |].
  exact (stream_end_handed_out_once os_succeeds (By_get_streams false) By_get_handles
           End_out (one_process running_process) 1 running_process
           (Some 10) (Some 11) None None (Some 21) (Some 22) 11 21
           eq_refl eq_refl eq_refl Hs1 Hs2).
Defined.

End ProcessFacts.

Module WaitFacts.
Import MachInt Err Win32 Wait ErrFacts.

Local Open Scope nat_scope.

Lemma set_exitcode_sized r i v n :
  sized r n -> i < n ->
  exists r1, set_exitcode r i v = Some r1 /\ sized r1 n /\ (r = None <-> r1 = None)
    /\ forall arr, r = Some arr -> r1 = Some (<[i:=v]> arr).
Proof.
  intros Hs Hi. destruct r as [arr|]; simpl.
  - rewrite decide_True by (rewrite (Hs arr); [lia | done]).
    eexists. split_and!; [done | | done | by intros ? [= ->]].
    intros arr' [= <-]. rewrite length_insert. by apply Hs.
  - exists None. split_and!; done.
Qed.

Lemma drop_lookup_cons {A} (l : list A) i x :
  l !! i = Some x -> drop i l = x :: drop (S i) l.
Proof. intros H. by rewrite (drop_S _ x). Qed.

(** A pid of -1 at or after index [i] stops the first loop. *)
Lemma check_loop_invalid pids : forall n i r procs,
  i + n = length pids -> length procs = length pids ->
  sized r (length pids) ->
  (-1)%Z ∈ drop i pids ->
  exists r1, check_loop pids r procs i n = Loop_invalid r1.
Proof.
  induction n as [|n IH]; intros i r procs Hn Hprocs Hs Hin.
  - rewrite drop_ge in Hin by lia. by apply elem_of_nil in Hin.
  - destruct (lookup_lt_is_Some_2 pids i ltac:(lia)) as [pid Hpid].
    destruct (set_exitcode_sized r i (-1)%Z (length pids) Hs ltac:(lia))
      as (r1 & Hset & Hs1 & _).
    simpl. rewrite Hset, Hpid.
    destruct (decide (pid = (-1)%Z)) as [->|Hne]; [by eexists|].
    rewrite decide_True by lia.
    apply IH; [lia | by rewrite length_insert | done |].
    rewrite (drop_lookup_cons _ _ _ Hpid) in Hin.
    apply elem_of_cons in Hin as [?|?]; [congruence | done].
Qed.

(** Without a pid of -1 the first loop copies the pids into [procs]. *)
Lemma check_loop_done pids : forall n i r procs,
  i + n = length pids -> length procs = length pids ->
  take i procs = take i pids ->
  sized r (length pids) ->
  (-1)%Z ∉ drop i pids ->
  exists r1, check_loop pids r procs i n = Loop_done r1 pids
    /\ sized r1 (length pids) /\ (r = None <-> r1 = None).
Proof.
  induction n as [|n IH]; intros i r procs Hn Hprocs Htake Hs Hnotin.
  - rewrite !take_ge in Htake by lia. subst procs. by exists r.
  - destruct (lookup_lt_is_Some_2 pids i ltac:(lia)) as [pid Hpid].
    destruct (set_exitcode_sized r i (-1)%Z (length pids) Hs ltac:(lia))
      as (r1 & Hset & Hs1 & Hnone & _).
    simpl. rewrite Hset, Hpid.
    rewrite (drop_lookup_cons _ _ _ Hpid) in Hnotin.
    apply not_elem_of_cons in Hnotin as [Hne Hnotin].
    rewrite decide_False by done. rewrite decide_True by lia.
    destruct (IH (S i) r1 (<[i:=pid]> procs)) as (r2 & Hloop & Hs2 & Hnone2);
      [lia | by rewrite length_insert | | done | done |].
    + rewrite (take_S_r pids i pid) by done.
      rewrite (take_S_r _ i pid) by (apply list_lookup_insert_eq; lia).
      by rewrite take_insert_ge, Htake by lia.
    + exists r2. split; [exact Hloop|]. split; [exact Hs2|]. by rewrite Hnone.
Qed.


(** After a successful wait, with every exit code query answered, the
    second loop stores the statuses from index [i] on and turns the
    result into a general error at the first status that is not 0. *)
Lemma exit_loop_spec w pgmnames pids : forall n i ec r tr,
  i + n = length pids -> length pgmnames = length pids ->
  sized r (length pids) ->
  Forall (fun pid => query_allowed w pid = true) pids ->
  exists tr',
    exit_loop w pgmnames pids pids i n ec r tr
    = Some (if decide (Forall (fun pid => exit_status w pid = 0%Z) (drop i pids))
            then ec else GPG_ERR_GENERAL,
            (fun arr => take i arr ++ ((fun pid => to_int (exit_status w pid)) <$> drop i pids))
              <$> r,
            tr')
    /\ (forall e, e ∈ tr -> e ∈ tr')
    /\ (r = None -> forall j pid name,
          i <= j -> pids !! j = Some pid -> pgmnames !! j = Some name ->
          exit_status w pid <> 0%Z ->
          Ev_log_error_running name (to_int (exit_status w pid)) ∈ tr').
Proof.
  induction n as [|n IH]; intros i ec r tr Hn Hnames Hs Hq.
  - exists tr. simpl. rewrite drop_ge by lia. rewrite decide_True by constructor.
    split_and!.
    + do 2 f_equal. destruct r as [arr|]; [|done]. simpl.
      by rewrite app_nil_r, take_ge by (rewrite (Hs arr); [lia | done]).
    + done.
    + intros _ j pid name Hj Hpid. apply lookup_lt_Some in Hpid. lia.
  - destruct (lookup_lt_is_Some_2 pids i ltac:(lia)) as [pid Hpid].
    destruct (lookup_lt_is_Some_2 pgmnames i ltac:(lia)) as [name Hname].
    assert (query_allowed w pid = true) as Hallowed.
    { rewrite Forall_forall in Hq. apply Hq. by eapply list_elem_of_lookup_2. }
    rewrite (drop_lookup_cons _ _ _ Hpid).
    cbn [exit_loop]. rewrite Hpid. cbn [mbind option_bind].
    unfold GetExitCodeProcess. rewrite Hallowed.
    destruct (decide (exit_status w pid = 0%Z)) as [Hzero|Hnonzero].
    + destruct (set_exitcode_sized r i 0%Z (length pids) Hs ltac:(lia))
        as (r1 & Hset & Hs1 & Hnone & Hsome).
      rewrite Hset. cbn [mbind option_bind].
      destruct (IH (S i) ec r1 (tr ++ [Ev_GetExitCodeProcess pid]))
        as (tr' & Hloop & Hsub & Hlog); [lia | done | done | done |].
      exists tr'. rewrite Hloop. split_and!.
      * do 2 f_equal. apply f_equal2.
        -- repeat case_decide; try done.
           ++ exfalso. apply H0. by constructor.
           ++ exfalso. apply H. by inversion H0.
        -- destruct r as [arr|].
           ++ rewrite (Hsome arr eq_refl). simpl. f_equal.
              rewrite (take_S_r _ i 0%Z)
                by (apply list_lookup_insert_eq; rewrite (Hs arr); [lia | done]).
              rewrite take_insert_ge by lia. rewrite <- app_assoc. simpl.
              by rewrite Hzero.
           ++ by rewrite (proj1 Hnone eq_refl).
      * intros e He. apply Hsub. rewrite elem_of_app. by left.
      * intros Hr j pid' name' Hj Hpid' Hname' Hst.
        destruct (decide (j = i)) as [->|Hji]; [congruence|].
        apply (Hlog (proj1 Hnone Hr) j pid' name'); [lia | done | done | done].
    + destruct r as [arr|].
      * destruct (set_exitcode_sized (Some arr) i (to_int (exit_status w pid))
                    (length pids) Hs ltac:(lia))
          as (r1 & Hset & Hs1 & Hnone & Hsome).
        rewrite Hset. cbn [mbind option_bind].
        destruct (IH (S i) GPG_ERR_GENERAL r1 (tr ++ [Ev_GetExitCodeProcess pid]))
          as (tr' & Hloop & Hsub & Hlog); [lia | done | done | done |].
        exists tr'. rewrite Hloop. split_and!.
        -- do 2 f_equal. apply f_equal2.
           ++ rewrite (decide_False (P := Forall _ (pid :: _)))
                by (by inversion 1).
              by case_decide.
           ++ rewrite (Hsome arr eq_refl). simpl. f_equal.
              rewrite (take_S_r _ i (to_int (exit_status w pid)))
                by (apply list_lookup_insert_eq; rewrite (Hs arr); [lia | done]).
              rewrite take_insert_ge by lia. by rewrite <- app_assoc.
        -- intros e He. apply Hsub. rewrite elem_of_app. by left.
        -- done.
      * rewrite Hname. cbn [mbind option_bind].
        destruct (IH (S i) GPG_ERR_GENERAL None
                    (tr ++ [Ev_GetExitCodeProcess pid;
                            Ev_log_error_running name (to_int (exit_status w pid))]))
          as (tr' & Hloop & Hsub & Hlog); [lia | done | done | done |].
        exists tr'. rewrite Hloop. split_and!.
        -- do 2 f_equal. apply f_equal2; [|done].
           rewrite (decide_False (P := Forall _ (pid :: _)))
             by (by inversion 1).
           by case_decide.
        -- intros e He. apply Hsub. rewrite elem_of_app. by left.
        -- intros _ j pid' name' Hj Hpid' Hname' Hst.
           destruct (decide (j = i)) as [->|Hji].
           ++ assert (pid' = pid) as -> by congruence.
              assert (name' = name) as -> by congruence.
              apply Hsub. set_solver.
           ++ apply (Hlog eq_refl j pid' name'); [lia | done | done | done].
Qed.


(** C4 (amended): given that the array of handles can be allocated, a pid
    of -1 in the list makes gnupg_wait_processes return an invalid-value
    error before any wait call; and after a joint wait that returns
    WAIT_OBJECT_0, if GetExitCodeProcess succeeds for every process,
    every entry of a caller-supplied r_exitcodes array holds that
    process's exit status (as an int), a diagnostic names every failing
    program when r_exitcodes is NULL, the result is a general error if
    some exit status is not 0, and it is success exactly when every
    process exited with status 0. *)
Theorem wait_processes_reports w pgmnames pids count hang r_exitcodes :
  xtrycalloc_ok w = true ->
  length pids = count -> length pgmnames = count -> sized r_exitcodes count ->
  ((-1)%Z ∈ pids ->
     exists r1, gnupg_wait_processes w pgmnames pids count hang r_exitcodes
                = Returned (my_error w GPG_ERR_INV_VALUE) r1 []
                /\ err_code (my_error w GPG_ERR_INV_VALUE) = GPG_ERR_INV_VALUE
                /\ no_wait [])
  /\ ((-1)%Z ∉ pids ->
      WaitForMultipleObjects w pids true hang = WAIT_OBJECT_0 ->
      Forall (fun pid => query_allowed w pid = true) pids ->
      exists err tr,
        gnupg_wait_processes w pgmnames pids count hang r_exitcodes
        = Returned err
            ((fun _ => (fun pid => to_int (exit_status w pid)) <$> pids) <$> r_exitcodes)
            tr
        /\ (Exists (fun pid => exit_status w pid <> 0%Z) pids ->
            err = gpg_err_make GPG_ERR_SOURCE_DEFAULT GPG_ERR_GENERAL)
        /\ (err = no_error <-> Forall (fun pid => exit_status w pid = 0%Z) pids)
        /\ (r_exitcodes = None -> forall i pid name,
              pids !! i = Some pid -> pgmnames !! i = Some name ->
              exit_status w pid <> 0%Z ->
              Ev_log_error_running name (to_int (exit_status w pid)) ∈ tr)).
Proof.
  intros Halloc Hpids Hnames Hs. subst count.
  unfold gnupg_wait_processes. rewrite Halloc. simpl negb. cbv iota.
  split.
  - intros Hin.
    destruct (check_loop_invalid pids (length pids) 0 r_exitcodes
                (replicate (length pids) 0%Z)) as [r1 Hloop];
      [lia | by rewrite length_replicate | done | done |].
    rewrite Hloop. exists r1. split_and!; [done | done |].
    intros procs wait_all infinite. apply not_elem_of_nil.
  - intros Hnotin Hwait Hq.
    destruct (check_loop_done pids (length pids) 0 r_exitcodes
                (replicate (length pids) 0%Z)) as (r1 & Hloop & Hs1 & Hnone);
      [lia | by rewrite length_replicate | done | done | done |].
    rewrite Hloop, Hwait.
    destruct (exit_loop_spec w pgmnames pids (length pids) 0 GPG_ERR_NO_ERROR r1
                [Ev_WaitForMultipleObjects pids true hang])
      as (tr' & Hexit & _ & Hlog); [lia | done | done | done |].
    rewrite drop_0 in Hexit. rewrite Hexit. clear Hexit.
    eexists _, tr'. split_and!.
    + f_equal. destruct r_exitcodes as [arr|], r1 as [arr1|]; simpl; try done.
      * discriminate (proj2 Hnone eq_refl).
      * discriminate (proj1 Hnone eq_refl).
    + intros Hex. rewrite decide_False; [done|].
      intros Hall. apply Exists_exists in Hex as (pid & Hin & Hne).
      rewrite Forall_forall in Hall. by apply Hne, Hall.
    + case_decide as Hall; [split; [done | intros _; reflexivity]|].
      split; [|done]. by intros ?%gpg_err_make_no_error.
    + intros Hr i pid name Hpid Hname Hne.
      apply (Hlog (proj1 Hnone Hr) i pid name); [lia | done | done | done].
Qed.

Lemma wait_processes_reports_witness :
  xtrycalloc_ok os_three = true
  /\ length three_pids = 3 /\ length three_names = 3
  /\ sized (Some [9; 9; 9]%Z) 3
  /\ ((-1)%Z ∉ three_pids)
  /\ WaitForMultipleObjects os_three three_pids true true = WAIT_OBJECT_0
  /\ Forall (fun pid => query_allowed os_three pid = true) three_pids
  /\ exists err tr,
       gnupg_wait_processes os_three three_names three_pids 3 true (Some [9; 9; 9]%Z)
       = Returned err (Some [0; 3; 0]%Z) tr
       /\ (Exists (fun pid => exit_status os_three pid <> 0%Z) three_pids ->
           err = gpg_err_make GPG_ERR_SOURCE_DEFAULT GPG_ERR_GENERAL)
       /\ (err = no_error <-> Forall (fun pid => exit_status os_three pid = 0%Z) three_pids)
       /\ (Some [9; 9; 9]%Z = None -> forall i pid name,
             three_pids !! i = Some pid -> three_names !! i = Some name ->
             exit_status os_three pid <> 0%Z ->
             Ev_log_error_running name (to_int (exit_status os_three pid)) ∈ tr).
Proof.
  assert (sized (Some [9; 9; 9]%Z) 3) as Hs by (by intros arr [= <-]).
  assert ((-1)%Z ∉ three_pids) as Hnotin by (by apply (bool_decide_unpack _)).
  assert (Forall (fun pid => query_allowed os_three pid = true) three_pids) as Hq
    by (by repeat constructor).
  split_and!; [reflexivity | reflexivity | reflexivity | exact Hs | exact Hnotin
              | reflexivity | exact Hq |].
  exact (proj2 (wait_processes_reports os_three three_names three_pids 3 true
                  (Some [9; 9; 9]%Z) eq_refl eq_refl eq_refl Hs)
           Hnotin eq_refl Hq).
Defined.

(** The claim as stated fails when the exit code of a process cannot be
    queried: every process exited with status 0 and the joint wait
    succeeded, yet the entries keep -1 and the result is an error. *)
Lemma wait_processes_query_failure :
  Forall (fun pid => exit_status os_no_query pid = 0%Z) three_pids
  /\ WaitForMultipleObjects os_no_query three_pids true true = WAIT_OBJECT_0
  /\ exists tr,
       gnupg_wait_processes os_no_query three_names three_pids 3 true (Some [9; 9; 9]%Z)
       = Returned (gpg_err_make GPG_ERR_SOURCE_DEFAULT GPG_ERR_GENERAL)
           (Some [-1; -1; -1]%Z) tr.
Proof.
  split_and!; [by repeat constructor | reflexivity | by eexists].
Qed.

End WaitFacts.

Module SpawnFacts.
Import MachInt Err Win32 Spawn.

(** C7 (the code at the failing inputs): without pipes, the child's
    standard input and output follow KEEP_STDIN and KEEP_STDOUT, but its
    standard error does not follow KEEP_STDERR: with KEEP_STDERR alone it
    is a handle to the null device, and with KEEP_STDOUT alone it is the
    standard error of the parent. *)
Theorem stderr_ignores_keep_stderr :
  std_error os_ok = 3
  /\ trace (run os_ok GNUPG_SPAWN_KEEP_STDERR false false false).2
     = [Ev_open_null false 100; Ev_open_null true 101; Ev_open_null true 102;
        Ev_CreateProcessW 100 101 102 false; Ev_ResumeThread 104]
  /\ trace (run os_ok GNUPG_SPAWN_KEEP_STDOUT false false false).2
     = [Ev_open_null false 100; Ev_CreateProcessW 100 2 3 false; Ev_ResumeThread 102]
  /\ trace (run os_ok GNUPG_SPAWN_KEEP_STDIN false false false).2
     = [Ev_open_null true 100; Ev_open_null true 101;
        Ev_CreateProcessW 1 100 101 false; Ev_ResumeThread 103].
Proof. split_and!; reflexivity. Qed.

(** For every value of the flags, the child gets the parent's standard
    error exactly when KEEP_STDOUT is set. *)
Lemma stderr_follows_keep_stdout flags :
  exists hin hout herr,
    child_std_handles (trace (run os_ok flags false false false).2) = Some (hin, hout, herr)
    /\ (hin = std_input os_ok <-> has_flag flags GNUPG_SPAWN_KEEP_STDIN = true)
    /\ (hout = std_output os_ok <-> has_flag flags GNUPG_SPAWN_KEEP_STDOUT = true)
    /\ (herr = std_error os_ok <-> has_flag flags GNUPG_SPAWN_KEEP_STDOUT = true).
Proof.
  unfold run, gnupg_spawn_process.
  destruct (has_flag flags GNUPG_SPAWN_KEEP_STDIN),
    (has_flag flags GNUPG_SPAWN_KEEP_STDOUT),
    (has_flag flags GNUPG_SPAWN_DETACHED),
    (has_flag flags GNUPG_SPAWN_RUN_ASFW),
    (has_flag flags GNUPG_SPAWN_NONBLOCK);
    eexists _, _, _; (split; [reflexivity|]); split_and!; done.
Qed.

(** C3 (the code at the failing inputs): gnupg_spawn_process returns an
    error while handles it created are still open: the pipe and its
    stream when the command line cannot be allocated, the pipe and its
    stream for standard input when the pipe for standard output cannot be
    created, and the handles to the null device when CreateProcessW
    fails. *)
Theorem spawn_error_leaves_handles_open :
  (let r := run os_no_memory 0 true false false in
   (err_code ∘ sp_err <$> r.1) = Some (GPG_ERR_SYSTEM 12)
   /\ leaked_handles start r.2 = [(101, Pipe_write); (100, Pipe_read)]
   /\ leaked_streams start r.2 = [(102, 101)])
  /\ (let r := run os_no_stdout_pipe 0 true true false in
      (err_code ∘ sp_err <$> r.1) = Some GPG_ERR_GENERAL
      /\ leaked_handles start r.2 = [(101, Pipe_write); (100, Pipe_read)]
      /\ leaked_streams start r.2 = [(102, 101)])
  /\ (let r := run os_no_process 0 false false false in
      (err_code ∘ sp_err <$> r.1) = Some GPG_ERR_GENERAL
      /\ leaked_handles start r.2
         = [(101, Null_device true); (102, Null_device true); (100, Null_device false)]
      /\ leaked_streams start r.2 = []).
Proof. cbv zeta. split_and!; reflexivity. Qed.

(** The sibling paths unwind: nothing stays open when the stream for the
    last pipe cannot be made, or when CreateProcessW fails with all three
    pipes in place. *)
Lemma spawn_error_paths_that_unwind :
  (let r := run os_no_stderr_stream 0 true true true in
   (err_code ∘ sp_err <$> r.1) = Some (GPG_ERR_SYSTEM 12)
   /\ leaked_handles start r.2 = [] /\ leaked_streams start r.2 = [])
  /\ (let r := run os_no_process 0 true true true in
      (err_code ∘ sp_err <$> r.1) = Some GPG_ERR_GENERAL
      /\ leaked_handles start r.2 = [] /\ leaked_streams start r.2 = []).
Proof. cbv zeta. split_and!; reflexivity. Qed.

End SpawnFacts.

Module ProcessCallsFacts.
Import MachInt Err Win32 Process ProcessCalls ErrFacts ProcessFacts.
Local Open Scope proc_scope.

Lemma evolves_refl pr : evolves pr pr.
Proof. unfold evolves, kept_or_invalid. naive_solver. Qed.

Lemma kept_or_invalid_trans h1 h2 h3 :
  kept_or_invalid h1 h2 -> kept_or_invalid h2 h3 -> kept_or_invalid h1 h3.
Proof. unfold kept_or_invalid. intros [->| ->] [->| ->]; auto. Qed.

Lemma evolves_trans pr1 pr2 pr3 : evolves pr1 pr2 -> evolves pr2 pr3 -> evolves pr1 pr3.
Proof.
  intros (Hn1 & Hf1 & He1 & Ht1 & Hp1 & Hi1 & Ho1 & Hr1)
         (Hn2 & Hf2 & He2 & Ht2 & Hp2 & Hi2 & Ho2 & Hr2).
  split_and!; try congruence; eauto using kept_or_invalid_trans.
Qed.

Lemma updates_refl T s : updates T s s.
Proof. intros q. split; [done|]. intros pr Hq. exists pr. split; [done | apply evolves_refl]. Qed.

Lemma updates_trans T s1 s2 s3 : updates T s1 s2 -> updates T s2 s3 -> updates T s1 s3.
Proof.
  intros H12 H23 q. destruct (H12 q) as [Hf1 He1], (H23 q) as [Hf2 He2]. split.
  - intros Hq. by rewrite Hf2, Hf1.
  - intros pr Hpr. destruct (He1 pr Hpr) as (pr2 & Hpr2 & Hev1).
    destruct (He2 pr2 Hpr2) as (pr3 & Hpr3 & Hev2).
    exists pr3. split; [done | by eapply evolves_trans].
Qed.

Lemma updates_weaken T T' s s' : (forall q, q ∈ T -> q ∈ T') -> updates T s s' -> updates T' s s'.
Proof.
  intros Hsub Hu q. destruct (Hu q) as [Hf He]. split; [|done].
  intros Hq. apply Hf. intros Hin. by apply Hq, Hsub.
Qed.

(** A call that leaves the heap alone, or replaces the object at [p] by
    an evolved one, updates [p] only. *)
Lemma updates_same_heap T s s' : heap s' = heap s -> updates T s s'.
Proof.
  intros Hh q. rewrite Hh. split; [done|]. intros pr Hq. exists pr.
  split; [done | apply evolves_refl].
Qed.

Lemma updates_insert p pr pr' s s' :
  heap s !! p = Some pr -> heap s' = <[p:=pr']> (heap s) -> evolves pr pr' ->
  updates [p] s s'.
Proof.
  intros Hp Hh Hev q. rewrite Hh. split.
  - intros Hq. apply lookup_insert_ne. intros ->. apply Hq. by left.
  - intros prq Hq. destruct (decide (q = p)) as [->|Hne].
    + rewrite lookup_insert_eq. exists pr'. split; [done|]. congruence.
    + rewrite lookup_insert_ne by done. exists prq. split; [done | apply evolves_refl].
Qed.


Lemma evolves_set_terminated pr : evolves pr (set_terminated pr true).
Proof. unfold evolves, kept_or_invalid. simpl. split_and!; auto. Qed.

Lemma evolves_set_hProcess pr : evolves pr (set_hProcess pr INVALID_HANDLE_VALUE).
Proof. unfold evolves, kept_or_invalid. simpl. split_and!; auto. Qed.

Lemma evolves_reset pr r_in r_out r_err :
  evolves pr (reset_if r_err set_hd_err (reset_if r_out set_hd_out (reset_if r_in set_hd_in pr))).
Proof.
  unfold evolves, kept_or_invalid.
  destruct r_in, r_out, r_err; simpl; split_and!; auto.
Qed.

(** process_kill leaves the heap and the caller's variables alone. *)
Lemma process_kill_heap w s p exit_code ec s' :
  process_kill w p exit_code s = Some (ec, s') -> heap s' = heap s /\ mem s' = mem s.
Proof.
  unfold process_kill. unfold_m.
  destruct (pre_syscall_func w), (post_syscall_func w); simpl;
    destruct (heap s !! p); simpl; intros ?; by simplify_eq/=.
Qed.

(** gnupg_process_wait changes at most the terminated flag of its object. *)
Lemma process_wait_heap w s p hang ec s' :
  gnupg_process_wait w p hang s = Some (ec, s') ->
  exists pr, heap s !! p = Some pr
    /\ mem s' = mem s
    /\ (heap s' = heap s \/ heap s' = <[p:=set_terminated pr true]> (heap s)).
Proof.
  unfold gnupg_process_wait. unfold_m. intros Hw.
  destruct (heap s !! p) as [pr|] eqn:Hp; [|done].
  exists pr. split; [done|].
  destruct (decide (hProcess pr = INVALID_HANDLE_VALUE)).
  { simplify_eq/=. auto. }
  destruct (pre_syscall_func w), (post_syscall_func w),
    (WaitForSingleObject w (hProcess pr) hang);
    repeat (progress (simpl in Hw; rewrite ?Hp in Hw));
    simplify_eq/=; auto.
Qed.

(** One hand-off replaces the object by the one with the requested
    fields reset. *)
Lemma hand_off_heap w op s p pr r_in r_out r_err :
  heap s !! p = Some pr ->
  exists s',
    run_hand_off w op p r_in r_out r_err s = Some (GPG_ERR_NO_ERROR, s')
    /\ heap s'
       = <[p:=reset_if r_err set_hd_err
                (reset_if r_out set_hd_out (reset_if r_in set_hd_in pr))]> (heap s).
Proof.
  intros Hp.
  destruct op as [fl|nonblock|];
    unfold run_hand_off, gnupg_process_get_fds, gnupg_process_get_streams,
      gnupg_process_ctl, process_vctl;
    unfold_m;
    destruct r_in, r_out, r_err;
    repeat (progress (simpl; rewrite ?Hp, ?lookup_insert_eq));
    eexists; (split; [reflexivity|]); simpl;
    rewrite ?insert_insert_eq; try done; by rewrite insert_id.
Qed.

Lemma hand_off_faults w op s p r_in r_out r_err :
  heap s !! p = None ->
  run_hand_off w op p r_in r_out r_err s = None
  \/ exists ec, run_hand_off w op p r_in r_out r_err s = Some (ec, s).
Proof.
  intros Hp.
  destruct op as [fl|nonblock|];
    unfold run_hand_off, gnupg_process_get_fds, gnupg_process_get_streams,
      gnupg_process_ctl, process_vctl;
    unfold_m;
    destruct r_in, r_out, r_err; simpl; rewrite ?Hp; simpl; eauto;
    right; destruct s; eauto.
Qed.

Lemma hand_off_updates w op s p r_in r_out r_err ec s' :
  run_hand_off w op p r_in r_out r_err s = Some (ec, s') -> updates [p] s s'.
Proof.
  intros Hrun. destruct (heap s !! p) as [pr|] eqn:Hp.
  - destruct (hand_off_heap w op s p pr r_in r_out r_err Hp) as (s1 & Hrun1 & Hh).
    rewrite Hrun in Hrun1. injection Hrun1 as -> ->.
    eapply updates_insert; [done | done | apply evolves_reset].
  - destruct (hand_off_faults w op s p r_in r_out r_err Hp) as [Hf|[ec' Hf]];
      rewrite Hrun in Hf; [done|]. injection Hf as -> ->. apply updates_refl.
Qed.

Lemma process_vctl_updates w s p req ec s' :
  process_vctl w p req s = Some (ec, s') -> updates [p] s s'.
Proof.
  destruct req as [|r_id|r_st|r_h|r_in r_out r_err|r_ec|code|n].
  - intros [= <- <-]. apply updates_refl.
  - unfold process_vctl. unfold_m. destruct r_id; simpl.
    + destruct (heap s !! p); simpl; intros [= <- <-]. by apply updates_same_heap.
    + intros [= <- <-]. apply updates_refl.
  - unfold process_vctl. unfold_m. destruct r_st; simpl; [|done].
    destruct (heap s !! p) as [pr|]; simpl; [|done].
    destruct (terminated pr); simpl; [|intros [= <- <-]; by apply updates_same_heap].
    destruct (decide (hProcess pr = INVALID_HANDLE_VALUE)); simpl;
      [intros [= <- <-]; by apply updates_same_heap|].
    destruct (GetExitCodeProcess w (hProcess pr)); simpl;
      intros [= <- <-]; by apply updates_same_heap.
  - unfold process_vctl. unfold_m. destruct r_h; simpl.
    + destruct (heap s !! p) as [pr|] eqn:Hp; simpl; [|done]. rewrite Hp. simpl.
      intros [= <- <-].
      eapply updates_insert; [done | done | apply evolves_set_hProcess].
    + intros [= <- <-]. apply updates_refl.
  - apply (hand_off_updates w By_get_handles s p r_in r_out r_err).
  - unfold process_vctl. unfold_m.
    destruct (heap s !! p) as [pr|]; simpl; [|done].
    destruct (terminated pr); simpl; [|intros [= <- <-]; by apply updates_same_heap].
    destruct (decide (hProcess pr = INVALID_HANDLE_VALUE)); simpl.
    + destruct r_ec; simpl; [|done]. intros [= <- <-]. by apply updates_same_heap.
    + destruct (GetExitCodeProcess w (hProcess pr)); simpl;
        [destruct r_ec; simpl; [|done]|]; intros [= <- <-]; by apply updates_same_heap.
  - unfold process_vctl. unfold bind at 1. unfold deref at 1.
    destruct (heap s !! p) as [pr|]; [|done].
    destruct (terminated pr); [intros [= <- <-]; apply updates_refl|].
    destruct (decide (hProcess pr = INVALID_HANDLE_VALUE));
      [intros [= <- <-]; apply updates_refl|].
    intros Hk. apply process_kill_heap in Hk as [Hh _]. by apply updates_same_heap.
  - intros [= <- <-]. apply updates_refl.
Qed.

Lemma process_wait_updates w s p hang ec s' :
  gnupg_process_wait w p hang s = Some (ec, s') -> updates [p] s s'.
Proof.
  intros Hw. apply process_wait_heap in Hw as (pr & Hp & _ & [Hh|Hh]).
  - by apply updates_same_heap.
  - eapply updates_insert; [done | done | apply evolves_set_terminated].
Qed.


Lemma wait_list_loop_updates w l hang : forall n i ec s ec' s',
  wait_list_loop w l hang i n ec s = Some (ec', s') -> updates l s s'.
Proof.
  induction n as [|n IH]; intros i ec s ec' s' Hrun; simpl in Hrun.
  - injection Hrun as <- <-. apply updates_refl.
  - destruct (l !! i) as [p|] eqn:Hi; [|done].
    unfold bind at 1 in Hrun. unfold deref at 1 in Hrun.
    destruct (heap s !! p) as [pr|] eqn:Hp; [|done].
    destruct (terminated pr); [by eapply IH|].
    unfold bind at 1 in Hrun.
    destruct (gnupg_process_wait w p hang s) as [[ec1 s1]|] eqn:Hw; [|done].
    assert (updates l s s1) as Hu1.
    { apply (updates_weaken [p]); [|by eapply process_wait_updates].
      intros q ->%list_elem_of_singleton. by eapply list_elem_of_lookup_2. }
    destruct (is_error ec1).
    + injection Hrun as <- <-. done.
    + eapply updates_trans; [done | by eapply IH].
Qed.

(** X1: whatever call is made on process objects (a control request, a
    wait, a terminate, a hand-off of stream ends, a list wait), every
    object that was in the heap is still there afterwards with the same
    name, flags and cached exit code, a terminated flag that was set is
    still set, each handle field has kept its value or become the invalid
    handle, and the objects the call was not given are untouched. *)
Theorem calls_let_objects_evolve w c s ec s' :
  run_call w c s = Some (ec, s') -> updates (targets c) s s'.
Proof.
  destruct c as [p req|p hang|p|p fl r_in r_out r_err|p nb r_in r_out r_err|l count hang];
    simpl.
  - apply process_vctl_updates.
  - apply process_wait_updates.
  - intros Hk. apply process_kill_heap in Hk as [Hh _]. by apply updates_same_heap.
  - apply (hand_off_updates w (By_get_fds fl)).
  - apply (hand_off_updates w (By_get_streams nb)).
  - apply wait_list_loop_updates.
Qed.

Lemma calls_let_objects_evolve_witness :
  run_call os_succeeds (Call_wait 1 true) two_processes
  = Some (GPG_ERR_NO_ERROR,
          mk_state {[ 1 := set_terminated running_process true; 2 := terminated_process ]} ∅
            [Ev_WaitForSingleObject 100 true])
  /\ updates [1] two_processes
       (mk_state {[ 1 := set_terminated running_process true; 2 := terminated_process ]} ∅
          [Ev_WaitForSingleObject 100 true]).
Proof.
  assert (run_call os_succeeds (Call_wait 1 true) two_processes
          = Some (GPG_ERR_NO_ERROR,
                  mk_state {[ 1 := set_terminated running_process true;
                              2 := terminated_process ]} ∅
                    [Ev_WaitForSingleObject 100 true])) as Hrun by reflexivity.
  split; [exact Hrun|].
  exact (calls_let_objects_evolve os_succeeds (Call_wait 1 true) two_processes _ _ Hrun).
Defined.


(** X2: gnupg_process_wait on an object with a live handle makes exactly
    one wait call, between the hooks when they are installed; it returns
    success and sets the terminated flag exactly when the wait returns
    WAIT_OBJECT_0, returns GPG_ERR_TIMEOUT exactly on WAIT_TIMEOUT and a
    general error otherwise, each time leaving the object as it was. *)
Theorem process_wait_outcome w s p pr hang :
  heap s !! p = Some pr -> hProcess pr <> INVALID_HANDLE_VALUE ->
  exists ec s' log,
    gnupg_process_wait w p hang s = Some (ec, s')
    /\ trace s' = trace s ++ pre_events w
                    ++ [Ev_WaitForSingleObject (hProcess pr) hang]
                    ++ post_events w ++ log
    /\ (forall e, e ∈ log -> exists msg, e = Ev_log_error msg \/ e = Ev_log_debug msg)
    /\ mem s' = mem s
    /\ (ec = GPG_ERR_NO_ERROR <-> WaitForSingleObject w (hProcess pr) hang = WAIT_OBJECT_0)
    /\ (ec = GPG_ERR_TIMEOUT <-> WaitForSingleObject w (hProcess pr) hang = WAIT_TIMEOUT)
    /\ (ec = GPG_ERR_NO_ERROR \/ ec = GPG_ERR_TIMEOUT \/ ec = GPG_ERR_GENERAL)
    /\ heap s' = (if decide (ec = GPG_ERR_NO_ERROR)
                  then <[p:=set_terminated pr true]> (heap s) else heap s).
Proof.
  intros Hp Hh. unfold gnupg_process_wait, pre_events, post_events. unfold_m.
  rewrite Hp. rewrite decide_False by done.
  destruct (pre_syscall_func w), (post_syscall_func w),
    (WaitForSingleObject w (hProcess pr) hang) eqn:Hcode;
    repeat (progress (simpl; rewrite ?Hp));
    eexists _, _, _; (split; [reflexivity|]); simpl;
    (split; [rewrite <- ?app_assoc; simpl; try reflexivity;
             (instantiate (1 := []) || idtac); reflexivity|]);
    (split; [intros e He; repeat (apply elem_of_cons in He as [->|He]; [eauto|]);
             by apply elem_of_nil in He|]);
    split_and!; auto; try done.
Qed.


Lemma process_wait_outcome_witness :
  heap two_processes !! 1 = Some running_process
  /\ hProcess running_process <> INVALID_HANDLE_VALUE
  /\ exists ec s' log,
       gnupg_process_wait os_hooks_timeout 1 false two_processes = Some (ec, s')
       /\ trace s' = trace two_processes ++ pre_events os_hooks_timeout
                       ++ [Ev_WaitForSingleObject (hProcess running_process) false]
                       ++ post_events os_hooks_timeout ++ log
       /\ (forall e, e ∈ log -> exists msg, e = Ev_log_error msg \/ e = Ev_log_debug msg)
       /\ mem s' = mem two_processes
       /\ (ec = GPG_ERR_NO_ERROR
           <-> WaitForSingleObject os_hooks_timeout (hProcess running_process) false
               = WAIT_OBJECT_0)
       /\ (ec = GPG_ERR_TIMEOUT
           <-> WaitForSingleObject os_hooks_timeout (hProcess running_process) false
               = WAIT_TIMEOUT)
       /\ (ec = GPG_ERR_NO_ERROR \/ ec = GPG_ERR_TIMEOUT \/ ec = GPG_ERR_GENERAL)
       /\ heap s' = (if decide (ec = GPG_ERR_NO_ERROR)
                     then <[1:=set_terminated running_process true]> (heap two_processes)
                     else heap two_processes).
Proof.
  assert (hProcess running_process <> INVALID_HANDLE_VALUE) as Hh by done.
  split; [reflexivity|]. split; [exact Hh|].
  exact (process_wait_outcome os_hooks_timeout two_processes 1 running_process false
           eq_refl Hh).
Defined.

Lemma process_terminate_runs w s p pr :
  heap s !! p = Some pr ->
  exists ec s',
    gnupg_process_terminate w p s = Some (ec, s') /\ heap s' = heap s /\ mem s' = mem s.
Proof.
  intros Hp. unfold gnupg_process_terminate, process_kill. unfold_m.
  destruct (pre_syscall_func w), (post_syscall_func w); simpl; rewrite Hp; simpl;
    eexists _, _; (split; [reflexivity|]); done.
Qed.

(** X3: gnupg_process_terminate does not look at the terminated flag:
    on an object whose handle is not INVALID_HANDLE_VALUE it makes,
    whatever the flag is, exactly one TerminateProcess call on the
    object's handle with exit code 1, between the hooks when they are
    installed, and changes neither the heap nor the caller's variables.
    (INVALID_HANDLE_VALUE is left out: it is the pseudo-handle of the
    calling process, on which TerminateProcess does not return.) *)
Theorem terminate_calls_once w s p pr :
  heap s !! p = Some pr ->
  hProcess pr <> INVALID_HANDLE_VALUE ->
  exists ec s',
    gnupg_process_terminate w p s = Some (ec, s')
    /\ trace s' = trace s ++ pre_events w
                    ++ [Ev_TerminateProcess (hProcess pr) 1] ++ post_events w
    /\ heap s' = heap s /\ mem s' = mem s.
Proof.
  intros Hp _. unfold gnupg_process_terminate, process_kill, pre_events, post_events.
  unfold_m.
  destruct (pre_syscall_func w), (post_syscall_func w); simpl; rewrite Hp; simpl;
    eexists _, _; (split; [reflexivity|]); simpl; rewrite <- ?app_assoc; done.
Qed.

Lemma terminate_calls_once_witness :
  heap two_processes !! 2 = Some terminated_process
  /\ hProcess terminated_process <> INVALID_HANDLE_VALUE
  /\ exists ec s',
       gnupg_process_terminate os_hooks_timeout 2 two_processes = Some (ec, s')
       /\ trace s' = trace two_processes ++ pre_events os_hooks_timeout
                       ++ [Ev_TerminateProcess (hProcess terminated_process) 1]
                       ++ post_events os_hooks_timeout
       /\ heap s' = heap two_processes /\ mem s' = mem two_processes.
Proof.
  assert (hProcess terminated_process <> INVALID_HANDLE_VALUE) as Hh by (by vm_compute).
  split; [reflexivity|]. split; [exact Hh|].
  exact (terminate_calls_once os_hooks_timeout two_processes 2 terminated_process eq_refl Hh).
Defined.

(** X4: the get-process-handle request moves the native handle to the
    caller: the caller's variable receives it, the object keeps the
    invalid handle, no system call is made; afterwards a wait on the
    object returns success at once without waiting and without setting
    the terminated flag, and the kill request is a no-op. *)
Theorem handle_transfer_disarms w s p pr a :
  heap s !! p = Some pr ->
  exists s1,
    gnupg_process_ctl w p (GNUPG_PROCESS_GET_P_HANDLE (Some a)) s
    = Some (GPG_ERR_NO_ERROR, s1)
    /\ mem s1 !! a = Some (hProcess pr)
    /\ heap s1 = <[p:=set_hProcess pr INVALID_HANDLE_VALUE]> (heap s)
    /\ trace s1 = trace s
    /\ (forall hang, gnupg_process_wait w p hang s1 = Some (GPG_ERR_NO_ERROR, s1))
    /\ (forall exit_code,
          gnupg_process_ctl w p (GNUPG_PROCESS_KILL_WITH_EC exit_code) s1
          = Some (GPG_ERR_NO_ERROR, s1)).
Proof.
  intros Hp. unfold gnupg_process_ctl, process_vctl. unfold_m. simpl.
  rewrite Hp. simpl. rewrite Hp. eexists. split; [reflexivity|]. simpl.
  split_and!; [by rewrite lookup_insert_eq | done | done | |].
  - intros hang. unfold gnupg_process_wait. unfold_m. simpl.
    by rewrite lookup_insert_eq.
  - intros exit_code. rewrite lookup_insert_eq. simpl.
    by destruct (terminated pr).
Qed.

Lemma handle_transfer_disarms_witness :
  heap two_processes !! 1 = Some running_process
  /\ exists s1,
       gnupg_process_ctl os_succeeds 1 (GNUPG_PROCESS_GET_P_HANDLE (Some 70)) two_processes
       = Some (GPG_ERR_NO_ERROR, s1)
       /\ mem s1 !! 70 = Some (hProcess running_process)
       /\ heap s1 = <[1:=set_hProcess running_process INVALID_HANDLE_VALUE]>
                      (heap two_processes)
       /\ trace s1 = trace two_processes
       /\ (forall hang,
             gnupg_process_wait os_succeeds 1 hang s1 = Some (GPG_ERR_NO_ERROR, s1))
       /\ (forall exit_code,
             gnupg_process_ctl os_succeeds 1 (GNUPG_PROCESS_KILL_WITH_EC exit_code) s1
             = Some (GPG_ERR_NO_ERROR, s1)).
Proof.
  split; [reflexivity|].
  exact (handle_transfer_disarms os_succeeds two_processes 1 running_process 70 eq_refl).
Defined.

(** X5: gnupg_process_release frees the object, whatever its flag and
    the answers of the system, as long as an object with the flag
    terminated set has a handle other than INVALID_HANDLE_VALUE (the
    release of such an object calls TerminateProcess on its handle, and
    on INVALID_HANDLE_VALUE, the pseudo-handle of the calling process,
    that call does not return): the object is gone from the heap, every
    other object and the caller's variables are as before, and the last
    thing done is the xfree.  Releasing NULL does nothing. *)
Theorem release_frees_the_object w s p pr :
  heap s !! p = Some pr ->
  (terminated pr = true -> hProcess pr <> INVALID_HANDLE_VALUE) ->
  gnupg_process_release w None s = Some (tt, s)
  /\ exists s',
       gnupg_process_release w (Some p) s = Some (tt, s')
       /\ heap s' = delete p (heap s)
       /\ mem s' = mem s
       /\ last (trace s') = Some (Ev_xfree p).
Proof.
  intros Hp _. split; [done|].
  destruct (terminated pr) eqn:Ht.
  - unfold gnupg_process_release.
    unfold bind at 1. unfold deref at 1. rewrite Hp, Ht.
    destruct (process_terminate_runs w s p pr Hp) as (ec1 & s1 & Hk & Hh1 & Hm1).
    unfold bind at 1. unfold bind at 1. rewrite Hk.
    unfold bind at 1.
    destruct (gnupg_process_wait w p true s1) as [[ec2 s2]|] eqn:Hw.
    + destruct (process_wait_heap _ _ _ _ _ _ Hw) as (pr1 & Hp1 & Hm2 & Hh2).
      unfold ret at 1. unfold xfree.
      assert (is_Some (heap s2 !! p)) as [pr2 Hp2].
      { destruct Hh2 as [->| ->]; [by eexists | rewrite lookup_insert_eq; by eexists]. }
      rewrite Hp2. eexists. split; [reflexivity|]. simpl.
      split_and!; [|congruence | by rewrite last_snoc].
      destruct Hh2 as [->| ->]; [by rewrite Hh1 | by rewrite delete_insert_eq, Hh1].
    + exfalso. unfold gnupg_process_wait in Hw. unfold_m.
      rewrite Hh1, Hp in Hw.
      destruct (decide (hProcess pr = INVALID_HANDLE_VALUE)); [done|].
      destruct (pre_syscall_func w), (post_syscall_func w),
        (WaitForSingleObject w (hProcess pr) true);
        repeat (progress (simpl in Hw; rewrite ?Hh1, ?Hp in Hw)); done.
  - rewrite (release_of_running w s p pr Hp Ht). eexists. split; [reflexivity|].
    simpl. split_and!; [done | done | by rewrite last_snoc].
Qed.

Lemma release_frees_the_object_witness :
  heap two_processes !! 2 = Some terminated_process
  /\ (terminated terminated_process = true ->
      hProcess terminated_process <> INVALID_HANDLE_VALUE)
  /\ gnupg_process_release os_fails None two_processes = Some (tt, two_processes)
  /\ exists s',
       gnupg_process_release os_fails (Some 2) two_processes = Some (tt, s')
       /\ heap s' = delete 2 (heap two_processes)
       /\ mem s' = mem two_processes
       /\ last (trace s') = Some (Ev_xfree 2).
Proof.
  assert (terminated terminated_process = true ->
          hProcess terminated_process <> INVALID_HANDLE_VALUE) as Hh
    by (intros _; by vm_compute).
  split; [reflexivity|]. split; [exact Hh|].
  exact (release_frees_the_object os_fails two_processes 2 terminated_process eq_refl Hh).
Defined.








End ProcessCallsFacts.

Module WaitResultsFacts.
Import MachInt Err Win32 Wait WaitResults ErrFacts WaitFacts.

Local Open Scope nat_scope.

(** The first loop without a pid of -1: it fills the array with -1 and
    copies the pids. *)
Lemma check_loop_fills pids : forall n i r procs,
  i + n = length pids -> length procs = length pids ->
  take i procs = take i pids ->
  sized r (length pids) ->
  (-1)%Z ∉ drop i pids ->
  check_loop pids r procs i n
  = Loop_done ((fun arr => take i arr ++ replicate n (-1)%Z) <$> r) pids.
Proof.
  induction n as [|n IH]; intros i r procs Hn Hprocs Htake Hs Hnotin.
  - rewrite !take_ge in Htake by lia. subst procs. simpl. f_equal.
    destruct r as [arr|]; [|done]. simpl.
    by rewrite app_nil_r, take_ge by (rewrite (Hs arr); [lia | done]).
  - destruct (lookup_lt_is_Some_2 pids i ltac:(lia)) as [pid Hpid].
    destruct (set_exitcode_sized r i (-1)%Z (length pids) Hs ltac:(lia))
      as (r1 & Hset & Hs1 & Hnone & Hsome).
    simpl. rewrite Hset, Hpid.
    rewrite (drop_lookup_cons _ _ _ Hpid) in Hnotin.
    apply not_elem_of_cons in Hnotin as [Hne Hnotin].
    rewrite decide_False by done. rewrite decide_True by lia.
    rewrite (IH (S i) r1 (<[i:=pid]> procs)); [| lia | by rewrite length_insert | | done | done].
    + f_equal. destruct r as [arr|].
      * rewrite (Hsome arr eq_refl). simpl. f_equal.
        rewrite (take_S_r _ i (-1)%Z)
          by (apply list_lookup_insert_eq; rewrite (Hs arr); [lia | done]).
        rewrite take_insert_ge by lia. by rewrite <- app_assoc.
      * by rewrite (proj1 Hnone eq_refl).
    + rewrite (take_S_r pids i pid) by done.
      rewrite (take_S_r _ i pid) by (apply list_lookup_insert_eq; lia).
      by rewrite take_insert_ge, Htake by lia.
Qed.

(** The first loop stops at the first pid of -1, at index [k]: the
    entries up to [k] are -1 by then, the later ones are untouched. *)
Lemma check_loop_stops pids k : forall n i r procs,
  i + n = length pids -> length procs = length pids ->
  sized r (length pids) ->
  i <= k -> pids !! k = Some (-1)%Z ->
  (forall j, i <= j < k -> pids !! j <> Some (-1)%Z) ->
  check_loop pids r procs i n
  = Loop_invalid ((fun arr => take i arr ++ replicate (S k - i) (-1)%Z ++ drop (S k) arr)
                    <$> r).
Proof.
  induction n as [|n IH]; intros i r procs Hn Hprocs Hs Hik Hk Hfirst.
  - apply lookup_lt_Some in Hk. lia.
  - destruct (lookup_lt_is_Some_2 pids i ltac:(lia)) as [pid Hpid].
    destruct (set_exitcode_sized r i (-1)%Z (length pids) Hs ltac:(lia))
      as (r1 & Hset & Hs1 & Hnone & Hsome).
    simpl. rewrite Hset, Hpid.
    destruct (decide (pid = (-1)%Z)) as [->|Hne].
    + assert (k = i) as ->.
      { destruct (decide (k = i)); [done|]. exfalso. apply (Hfirst i); [lia | done]. }
      f_equal. destruct r as [arr|].
      * rewrite (Hsome arr eq_refl). simpl. f_equal.
        replace (S i - i) with 1 by lia. simpl.
        assert (i < length arr) as Hlt by (rewrite (Hs arr); [lia | done]).
        rewrite <- (take_drop i (<[i:=(-1)%Z]> arr)) at 1.
        rewrite take_insert_ge by lia. f_equal.
        rewrite (drop_S _ (-1)%Z i) by (by apply list_lookup_insert_eq).
        f_equal. by rewrite drop_insert_lt by lia.
      * by rewrite (proj1 Hnone eq_refl).
    + assert (i < k) as Hlt.
      { destruct (decide (k = i)) as [->|]; [congruence | lia]. }
      rewrite decide_True by lia.
      rewrite (IH (S i) r1 (<[i:=pid]> procs));
        [| lia | by rewrite length_insert | done | lia | done |].
      * f_equal. destruct r as [arr|].
        -- rewrite (Hsome arr eq_refl). simpl. f_equal.
           rewrite (take_S_r _ i (-1)%Z)
             by (apply list_lookup_insert_eq; rewrite (Hs arr); [lia | done]).
           rewrite take_insert_ge by lia. rewrite drop_insert_lt by lia.
           rewrite <- app_assoc. f_equal.
           replace (S k - i) with (S (S k - S i)) by lia. done.
        -- by rewrite (proj1 Hnone eq_refl).
      * intros j Hj. apply Hfirst. lia.
Qed.


(** X7: a pid of -1 is found by the loop that also presets the exit
    codes, so the rejection leaves a caller-supplied r_exitcodes array
    partly written: with the first -1 at index [k], the entries up to [k]
    are -1 and the entries after [k] are what the caller had there; no
    wait and no query is made. *)
Theorem rejection_presets_a_prefix w pgmnames pids count hang r_exitcodes k :
  xtrycalloc_ok w = true ->
  length pids = count -> sized r_exitcodes count ->
  pids !! k = Some (-1)%Z ->
  (forall j, j < k -> pids !! j <> Some (-1)%Z) ->
  gnupg_wait_processes w pgmnames pids count hang r_exitcodes
  = Returned (my_error w GPG_ERR_INV_VALUE)
      ((fun arr => replicate (S k) (-1)%Z ++ drop (S k) arr) <$> r_exitcodes) [].
Proof.
  intros Halloc Hpids Hs Hk Hfirst. subst count.
  unfold gnupg_wait_processes. rewrite Halloc. simpl negb. cbv iota.
  rewrite (check_loop_stops pids k (length pids) 0 r_exitcodes);
    [| lia | by rewrite length_replicate | done | lia | done
     | intros j Hj; apply Hfirst; lia].
  by destruct r_exitcodes.
Qed.

Lemma rejection_presets_a_prefix_witness :
  xtrycalloc_ok os_three = true
  /\ length [100; -1; 300; -1]%Z = 4 /\ sized (Some [5; 6; 7; 8]%Z) 4
  /\ [100; -1; 300; -1]%Z !! 1 = Some (-1)%Z
  /\ (forall j, j < 1 -> [100; -1; 300; -1]%Z !! j <> Some (-1)%Z)
  /\ gnupg_wait_processes os_three ["a"; "b"; "c"; "d"]%string [100; -1; 300; -1]%Z 4 true
       (Some [5; 6; 7; 8]%Z)
     = Returned (my_error os_three GPG_ERR_INV_VALUE) (Some [-1; -1; 7; 8]%Z) [].
Proof.
  assert (sized (Some [5; 6; 7; 8]%Z) 4) as Hs by (by intros arr [= <-]).
  assert (forall j, j < 1 -> [100; -1; 300; -1]%Z !! j <> Some (-1)%Z) as Hfirst.
  { intros j Hj. assert (j = 0) as -> by lia. done. }
  split; [reflexivity|]. split; [reflexivity|]. split; [exact Hs|].
  split; [reflexivity|]. split; [exact Hfirst|].
  exact (rejection_presets_a_prefix os_three ["a"; "b"; "c"; "d"]%string
           [100; -1; 300; -1]%Z 4 true (Some [5; 6; 7; 8]%Z) 1
           eq_refl eq_refl Hs eq_refl Hfirst).
Defined.

(** X8: when the joint wait does not return WAIT_OBJECT_0, no exit code
    is queried, every entry of a caller-supplied r_exitcodes array is -1,
    and the result is GPG_ERR_TIMEOUT for WAIT_TIMEOUT (the processes are
    still running) and a general error in every other case. *)
Theorem unfinished_wait_reports_no_status w pgmnames pids count hang r_exitcodes :
  xtrycalloc_ok w = true ->
  length pids = count -> sized r_exitcodes count ->
  (-1)%Z ∉ pids ->
  WaitForMultipleObjects w pids true hang <> WAIT_OBJECT_0 ->
  exists tr,
    gnupg_wait_processes w pgmnames pids count hang r_exitcodes
    = Returned (gpg_err_make GPG_ERR_SOURCE_DEFAULT
                  (wait_error (WaitForMultipleObjects w pids true hang)))
        ((fun _ => replicate count (-1)%Z) <$> r_exitcodes) tr
    /\ no_query tr.
Proof.
  intros Halloc Hpids Hs Hnotin Hcode. subst count.
  unfold gnupg_wait_processes. rewrite Halloc. simpl negb. cbv iota.
  rewrite (check_loop_fills pids (length pids) 0 r_exitcodes);
    [| lia | by rewrite length_replicate | done | done | done].
  assert ((fun arr : list Z => take 0 arr ++ replicate (length pids) (-1)%Z) <$> r_exitcodes
          = (fun _ => replicate (length pids) (-1)%Z) <$> r_exitcodes) as ->
    by (by destruct r_exitcodes).
  destruct (WaitForMultipleObjects w pids true hang); [done | | |];
    eexists; (split; [reflexivity|]); intros h Hin;
    repeat (apply elem_of_cons in Hin as [?|Hin]; [done|]);
    by apply elem_of_nil in Hin.
Qed.

Lemma unfinished_wait_reports_no_status_witness :
  xtrycalloc_ok os_running = true
  /\ length three_pids = 3 /\ sized (Some [5; 6; 7]%Z) 3
  /\ ((-1)%Z ∉ three_pids)
  /\ WaitForMultipleObjects os_running three_pids true false <> WAIT_OBJECT_0
  /\ exists tr,
       gnupg_wait_processes os_running three_names three_pids 3 false (Some [5; 6; 7]%Z)
       = Returned (gpg_err_make GPG_ERR_SOURCE_DEFAULT
                     (wait_error (WaitForMultipleObjects os_running three_pids true false)))
           ((fun _ => replicate 3 (-1)%Z) <$> Some [5; 6; 7]%Z) tr
       /\ no_query tr.
Proof.
  assert (sized (Some [5; 6; 7]%Z) 3) as Hs by (by intros arr [= <-]).
  assert ((-1)%Z ∉ three_pids) as Hnotin by (by apply (bool_decide_unpack _)).
  assert (WaitForMultipleObjects os_running three_pids true false <> WAIT_OBJECT_0)
    as Hcode by done.
  split; [reflexivity|]. split; [reflexivity|]. split; [exact Hs|].
  split; [exact Hnotin|]. split; [exact Hcode|].
  exact (unfinished_wait_reports_no_status os_running three_names three_pids 3 false
           (Some [5; 6; 7]%Z) eq_refl eq_refl Hs Hnotin Hcode).
Defined.


Lemma zip_with_entry_preset w (pids : list Z) :
  zip_with (entry w) pids (replicate (length pids) (-1)%Z)
  = (fun pid => entry w pid (-1)%Z) <$> pids.
Proof. induction pids as [|pid pids IH]; simpl; [done | by rewrite IH]. Qed.

(** The second loop in general: an entry is overwritten only when the
    exit code of its process can be queried. *)
Lemma exit_loop_general w pgmnames pids : forall n i ec r tr,
  i + n = length pids -> length pgmnames = length pids ->
  sized r (length pids) ->
  exists tr',
    exit_loop w pgmnames pids pids i n ec r tr
    = Some (if decide (Forall (clean w) (drop i pids)) then ec else GPG_ERR_GENERAL,
            (fun arr => take i arr ++ zip_with (entry w) (drop i pids) (drop i arr)) <$> r,
            tr').
Proof.
  induction n as [|n IH]; intros i ec r tr Hn Hnames Hs.
  - exists tr. simpl. rewrite drop_ge by lia. rewrite decide_True by constructor.
    do 2 f_equal. destruct r as [arr|]; [|done]. simpl.
    by rewrite app_nil_r, take_ge by (rewrite (Hs arr); [lia | done]).
  - destruct (lookup_lt_is_Some_2 pids i ltac:(lia)) as [pid Hpid].
    destruct (lookup_lt_is_Some_2 pgmnames i ltac:(lia)) as [name Hname].
    rewrite (drop_lookup_cons _ _ _ Hpid).
    cbn [exit_loop]. rewrite Hpid. cbn [mbind option_bind].
    unfold GetExitCodeProcess.
    assert (forall (arr : list Z) v, r = Some arr ->
              take (S i) (<[i:=v]> arr)
                ++ zip_with (entry w) (drop (S i) pids) (drop (S i) (<[i:=v]> arr))
              = take i arr ++ v :: zip_with (entry w) (drop (S i) pids) (drop (S i) arr))
      as Hwrite.
    { intros arr v Harr. assert (i < length arr) by (rewrite (Hs arr); [lia | done]).
      rewrite (take_S_r _ i v) by (by apply list_lookup_insert_eq).
      rewrite take_insert_ge, drop_insert_lt by lia. by rewrite <- app_assoc. }
    assert (forall (arr : list Z), r = Some arr ->
              exists x, arr !! i = Some x /\ drop i arr = x :: drop (S i) arr) as Hold.
    { intros arr Harr.
      destruct (lookup_lt_is_Some_2 arr i) as [x Hx]; [rewrite (Hs arr); [lia | done]|].
      exists x. split; [done | by apply drop_lookup_cons]. }
    destruct (query_allowed w pid) eqn:Hallowed.
    + destruct (decide (exit_status w pid = 0%Z)) as [Hzero|Hnonzero].
      * destruct (set_exitcode_sized r i 0%Z (length pids) Hs ltac:(lia))
          as (r1 & Hset & Hs1 & Hnone & Hsome).
        rewrite Hset. cbn [mbind option_bind].
        destruct (IH (S i) ec r1 (tr ++ [Ev_GetExitCodeProcess pid]))
          as (tr' & Hloop); [lia | done | done |].
        exists tr'. rewrite Hloop. do 2 f_equal. apply f_equal2.
        -- repeat case_decide; try done.
           ++ exfalso. apply H0. constructor; [by split | done].
           ++ exfalso. apply H. by inversion H0.
        -- destruct r as [arr|]; [|by rewrite (proj1 Hnone eq_refl)].
           rewrite (Hsome arr eq_refl). simpl. f_equal.
           destruct (Hold arr eq_refl) as (x & _ & ->).
           rewrite (Hwrite arr 0%Z eq_refl). simpl.
           unfold entry at 2. by rewrite Hallowed, Hzero.
      * assert (~ Forall (clean w) (pid :: drop (S i) pids)) as Hnot.
        { inversion 1 as [|? ? [_ ?]]. done. }
        rewrite (decide_False (P := Forall _ (pid :: _))) by done.
        destruct r as [arr|].
        -- destruct (set_exitcode_sized (Some arr) i (to_int (exit_status w pid))
                       (length pids) Hs ltac:(lia))
             as (r1 & Hset & Hs1 & Hnone & Hsome).
           rewrite Hset. cbn [mbind option_bind].
           destruct (IH (S i) GPG_ERR_GENERAL r1 (tr ++ [Ev_GetExitCodeProcess pid]))
             as (tr' & Hloop); [lia | done | done |].
           exists tr'. rewrite Hloop. do 2 f_equal. apply f_equal2.
           ++ by case_decide.
           ++ rewrite (Hsome arr eq_refl). simpl. f_equal.
              destruct (Hold arr eq_refl) as (x & _ & ->).
              rewrite (Hwrite arr _ eq_refl). simpl.
              unfold entry at 2. by rewrite Hallowed.
        -- rewrite Hname. cbn [mbind option_bind].
           destruct (IH (S i) GPG_ERR_GENERAL None
                       (tr ++ [Ev_GetExitCodeProcess pid;
                               Ev_log_error_running name (to_int (exit_status w pid))]))
             as (tr' & Hloop); [lia | done | done |].
           exists tr'. rewrite Hloop. do 2 f_equal. apply f_equal2; [|done].
           by case_decide.
    + assert (~ Forall (clean w) (pid :: drop (S i) pids)) as Hnot.
      { inversion 1 as [|? ? [? _]]. congruence. }
      rewrite (decide_False (P := Forall _ (pid :: _))) by done.
      cbn [mbind option_bind].
      destruct (IH (S i) GPG_ERR_GENERAL r
                  (tr ++ [Ev_GetExitCodeProcess pid; Ev_log_exit_code_failed (to_int pid)]))
        as (tr' & Hloop); [lia | done | done |].
      exists tr'. rewrite Hloop. do 2 f_equal. apply f_equal2; [by case_decide|].
      destruct r as [arr|]; [|done]. simpl. f_equal.
      destruct (Hold arr eq_refl) as (x & Hx & ->). simpl.
      unfold entry at 2. rewrite Hallowed.
      rewrite (take_S_r _ i x) by done. by rewrite <- app_assoc.
Qed.

(** X9: the complete result of a joint wait that returns WAIT_OBJECT_0:
    gnupg_wait_processes returns success exactly when the exit code of
    every process can be queried and is 0, and a general error otherwise;
    in a caller-supplied r_exitcodes array the entry of a process is its
    exit status converted to int when the exit code can be queried, and
    the preset -1 when it cannot. *)
Theorem joint_wait_result w pgmnames pids count hang r_exitcodes :
  xtrycalloc_ok w = true ->
  length pids = count -> length pgmnames = count -> sized r_exitcodes count ->
  (-1)%Z ∉ pids ->
  WaitForMultipleObjects w pids true hang = WAIT_OBJECT_0 ->
  exists err tr,
    gnupg_wait_processes w pgmnames pids count hang r_exitcodes
    = Returned err
        ((fun _ => (fun pid => entry w pid (-1)%Z) <$> pids) <$> r_exitcodes) tr
    /\ (err = no_error <-> Forall (clean w) pids)
    /\ (err = no_error
        \/ err = gpg_err_make GPG_ERR_SOURCE_DEFAULT GPG_ERR_GENERAL).
Proof.
  intros Halloc Hpids Hnames Hs Hnotin Hwait. subst count.
  unfold gnupg_wait_processes. rewrite Halloc. simpl negb. cbv iota.
  rewrite (check_loop_fills pids (length pids) 0 r_exitcodes);
    [| lia | by rewrite length_replicate | done | done | done].
  rewrite Hwait.
  destruct (exit_loop_general w pgmnames pids (length pids) 0 GPG_ERR_NO_ERROR
              ((fun arr : list Z => take 0 arr ++ replicate (length pids) (-1)%Z)
                 <$> r_exitcodes)
              [Ev_WaitForMultipleObjects pids true hang]) as (tr' & Hexit);
    [lia | done | |].
  { intros arr Harr. destruct r_exitcodes as [arr0|]; [|done].
    injection Harr as <-. simpl. apply length_replicate. }
  rewrite drop_0 in Hexit. rewrite Hexit. clear Hexit.
  eexists _, tr'. split_and!.
  - f_equal. destruct r_exitcodes as [arr|]; [|done]. simpl. f_equal.
    apply zip_with_entry_preset.
  - case_decide as Hall; [split; [done | intros _; reflexivity]|].
    split; [|done]. by intros ?%gpg_err_make_no_error.
  - case_decide; auto.
Qed.

Lemma joint_wait_result_witness :
  xtrycalloc_ok os_mixed = true
  /\ length three_pids = 3 /\ length three_names = 3 /\ sized (Some [5; 6; 7]%Z) 3
  /\ ((-1)%Z ∉ three_pids)
  /\ WaitForMultipleObjects os_mixed three_pids true true = WAIT_OBJECT_0
  /\ exists err tr,
       gnupg_wait_processes os_mixed three_names three_pids 3 true (Some [5; 6; 7]%Z)
       = Returned err (Some [0; -1; -1]%Z) tr
       /\ (err = no_error <-> Forall (clean os_mixed) three_pids)
       /\ (err = no_error
           \/ err = gpg_err_make GPG_ERR_SOURCE_DEFAULT GPG_ERR_GENERAL).
Proof.
  assert (sized (Some [5; 6; 7]%Z) 3) as Hs by (by intros arr [= <-]).
  assert ((-1)%Z ∉ three_pids) as Hnotin by (by apply (bool_decide_unpack _)).
  split; [reflexivity|]. split; [reflexivity|]. split; [reflexivity|].
  split; [exact Hs|]. split; [exact Hnotin|]. split; [reflexivity|].
  exact (joint_wait_result os_mixed three_names three_pids 3 true (Some [5; 6; 7]%Z)
           eq_refl eq_refl eq_refl Hs Hnotin eq_refl).
Defined.

End WaitResultsFacts.

Module CmdlineMoreFacts.
Import MachInt Err Cmdline CmdlineTokens MachIntFacts CmdlineFacts.

Local Open Scope nat_scope.

Lemma double_quotes_cons c t :
  double_quotes (c :: t)
  = (if decide (c = DQUOTE) then [DQUOTE; DQUOTE] else [c]) ++ double_quotes t.
Proof. done. Qed.

Lemma separated_flat_map (argv : list (list ascii)) :
  separated (flat_map (fun a => SPACE :: spec_token a) argv).
Proof. destruct argv; [by left | right; eexists; reflexivity]. Qed.

Lemma separated_no_quote r l : separated r -> r <> DQUOTE :: l.
Proof. intros [->|[r' ->]]; done. Qed.

(** The end of a quoted token is found again: a lone double quote. *)
Lemma quoted_prefix_unique t1 : forall t2 r1 r2,
  separated r1 -> separated r2 ->
  double_quotes t1 ++ DQUOTE :: r1 = double_quotes t2 ++ DQUOTE :: r2 ->
  t1 = t2 /\ r1 = r2.
Proof.
  induction t1 as [|c1 t1 IH]; intros [|c2 t2] r1 r2 Hr1 Hr2;
    rewrite ?double_quotes_cons.
  - simpl. by intros [= ->].
  - destruct (decide (c2 = DQUOTE)) as [->|H2]; cbn [app]; intros Heq.
    + injection Heq as Heq. by apply separated_no_quote in Heq.
    + injection Heq as Heq _. done.
  - destruct (decide (c1 = DQUOTE)) as [->|H1]; cbn [app]; intros Heq.
    + injection Heq as Heq. symmetry in Heq. by apply separated_no_quote in Heq.
    + injection Heq as Heq _. done.
  - destruct (decide (c1 = DQUOTE)) as [->|H1], (decide (c2 = DQUOTE)) as [->|H2];
      cbn [app]; intros Heq.
    + injection Heq as Heq. destruct (IH _ _ _ Hr1 Hr2 Heq) as [-> ->]. done.
    + injection Heq as Heq _. done.
    + injection Heq as Heq _. done.
    + injection Heq as -> Heq. destruct (IH _ _ _ Hr1 Hr2 Heq) as [-> ->]. done.
Qed.

Lemma needs_quoting_false t :
  needs_quoting t = false -> Forall (fun c => c <> SPACE /\ c <> DQUOTE) t.
Proof.
  induction t as [|c t IH]; [constructor|]. simpl.
  intros [Hc Ht]%orb_false_elim. constructor; [|by apply IH].
  apply bool_decide_eq_false in Hc. unfold quoting_chars in Hc.
  split; intros ->; apply Hc; [by left | by do 5 right; left].
Qed.

(** The end of a verbatim token is found again: the first space. *)
Lemma plain_prefix_unique t1 : forall t2 r1 r2,
  Forall (fun c => c <> SPACE /\ c <> DQUOTE) t1 ->
  Forall (fun c => c <> SPACE /\ c <> DQUOTE) t2 ->
  separated r1 -> separated r2 ->
  t1 ++ r1 = t2 ++ r2 ->
  t1 = t2 /\ r1 = r2.
Proof.
  induction t1 as [|c1 t1 IH]; intros [|c2 t2] r1 r2 H1 H2 Hr1 Hr2; simpl.
  - done.
  - intros ->. apply Forall_cons in H2 as [[Hc _] _].
    destruct Hr1 as [?|[r' [= -> _]]]; done.
  - intros <-. apply Forall_cons in H1 as [[Hc _] _].
    destruct Hr2 as [?|[r' [= -> _]]]; done.
  - intros [= -> Heq]. apply Forall_cons in H1 as [_ H1].
    apply Forall_cons in H2 as [_ H2].
    destruct (IH _ _ _ H1 H2 Hr1 Hr2 Heq) as [-> ->]. done.
Qed.

(** How a token is rendered: in quotes, or verbatim. *)
Lemma spec_token_cases t :
  spec_token t = DQUOTE :: double_quotes t ++ [DQUOTE]
  \/ (spec_token t = t /\ Forall (fun c => c <> SPACE /\ c <> DQUOTE) t
      /\ exists c t', t = c :: t').
Proof.
  unfold spec_token. destruct t as [|c t]; [by left|].
  destruct (needs_quoting (c :: t)) eqn:Hq; [by left|].
  right. split_and!; [done | by apply needs_quoting_false | by eexists _, _].
Qed.

Lemma token_prefix_unique t1 t2 r1 r2 :
  separated r1 -> separated r2 ->
  spec_token t1 ++ r1 = spec_token t2 ++ r2 ->
  t1 = t2 /\ r1 = r2.
Proof.
  intros Hr1 Hr2.
  destruct (spec_token_cases t1) as [->|(-> & H1 & c1 & t1' & ->)],
           (spec_token_cases t2) as [->|(-> & H2 & c2 & t2' & ->)].
  - cbn [app]. rewrite <- !app_assoc. cbn [app]. intros [= Heq].
    by apply quoted_prefix_unique.
  - cbn [app]. intros [= <- _]. apply Forall_cons in H2 as [[_ ?] _]. done.
  - cbn [app]. intros [= -> _]. apply Forall_cons in H1 as [[_ ?] _]. done.
  - by apply plain_prefix_unique.
Qed.

Lemma args_unique argv1 : forall argv2,
  flat_map (fun a => SPACE :: spec_token a) argv1
  = flat_map (fun a => SPACE :: spec_token a) argv2 ->
  argv1 = argv2.
Proof.
  induction argv1 as [|a1 argv1 IH]; intros [|a2 argv2]; [done | done | done |].
  cbn [flat_map app]. intros [= Heq].
  apply token_prefix_unique in Heq as [-> Heq]; [|apply separated_flat_map..].
  f_equal. by apply IH.
Qed.

(** The rendering of the specification can be read back. *)
Lemma spec_commandline_inj pgmname1 argv1 pgmname2 argv2 :
  spec_commandline pgmname1 argv1 = spec_commandline pgmname2 argv2 ->
  pgmname1 = pgmname2 /\ argv1 = argv2.
Proof.
  unfold spec_commandline. intros Heq.
  apply token_prefix_unique in Heq as [-> Heq]; [|apply separated_flat_map..].
  split; [done|]. by apply args_unique.
Qed.

Section BuilderMoreFacts.

Variable xtrymalloc : Z -> option (list ascii).
Variable errno : Z.
Variable default_errsource : gpg_err_source_t.

Local Abbreviation build := (build_w32_commandline xtrymalloc errno default_errsource).

Lemma build_ok_c_str pgmname argv buf :
  c_string pgmname -> Forall c_string argv ->
  build pgmname argv = Ok buf ->
  c_str buf = Some (spec_commandline pgmname argv).
Proof.
  intros Hpgm Hargv Hok.
  pose proof (spec_commandline_c_string pgmname argv Hpgm Hargv) as Hc.
  destruct (xtrymalloc (to_size (computed_n pgmname argv))) as [block|] eqn:Hblock.
  - destruct (build_w32_commandline_outcome xtrymalloc errno default_errsource
                pgmname argv block Hblock) as [Hfit Hno].
    destruct (decide (length (spec_commandline pgmname argv) < length block)%nat)
      as [Hlen|Hlen].
    + destruct (Hfit Hlen) as (buf' & Hok' & Htake).
      rewrite Hok in Hok'. injection Hok' as ->.
      by apply c_str_prefix.
    + rewrite Hno in Hok by lia. done.
  - unfold build_w32_commandline in Hok. by rewrite Hblock in Hok.
Qed.

(** X10: two calls of build_w32_commandline that return the same command
    line (the same C string in their blocks) were given the same program
    path and the same argument vector: the quoting never lets one
    argument vector pass for another. *)
Theorem command_line_determines_arguments pgmname1 argv1 buf1 pgmname2 argv2 buf2 :
  c_string pgmname1 -> Forall c_string argv1 ->
  c_string pgmname2 -> Forall c_string argv2 ->
  build pgmname1 argv1 = Ok buf1 ->
  build pgmname2 argv2 = Ok buf2 ->
  c_str buf1 = c_str buf2 ->
  pgmname1 = pgmname2 /\ argv1 = argv2.
Proof.
  intros Hp1 Ha1 Hp2 Ha2 Hok1 Hok2 Heq.
  rewrite (build_ok_c_str _ _ _ Hp1 Ha1 Hok1), (build_ok_c_str _ _ _ Hp2 Ha2 Hok2) in Heq.
  injection Heq as Heq. by apply spec_commandline_inj.
Qed.

End BuilderMoreFacts.

Lemma command_line_determines_arguments_witness :
  let build := build_w32_commandline (malloc_filled "x") 0 GPG_ERR_SOURCE_DEFAULT in
  c_string sample_pgmname /\ Forall c_string sample_argv
  /\ (exists buf, build sample_pgmname sample_argv = Ok buf)
  /\ (sample_pgmname = sample_pgmname /\ sample_argv = sample_argv).
Proof.
  cbv zeta.
  assert (c_string sample_pgmname) as Hp by (by apply (bool_decide_unpack _)).
  assert (Forall c_string sample_argv) as Ha
    by (repeat constructor; by apply (bool_decide_unpack _)).
  destruct (build_w32_commandline (malloc_filled "x") 0 GPG_ERR_SOURCE_DEFAULT
              sample_pgmname sample_argv) as [buf| |] eqn:Hok.
  - split; [exact Hp|]. split; [exact Ha|]. split; [by exists buf|].
    exact (command_line_determines_arguments (malloc_filled "x") 0 GPG_ERR_SOURCE_DEFAULT
             _ _ _ _ _ _ Hp Ha Hp Ha Hok Hok eq_refl).
  - by vm_compute in Hok.
  - by vm_compute in Hok.
Defined.

End CmdlineMoreFacts.

Module SysFacts.
Import MachInt Err Win32 Sys ErrFacts MachIntFacts.
Local Open Scope sys_scope.

Lemma build_error_is_error xtrymalloc errno src pgmname argv err :
  Cmdline.build_w32_commandline xtrymalloc errno src pgmname argv = Cmdline.Error err ->
  err <> no_error.
Proof.
  unfold Cmdline.build_w32_commandline.
  destruct (xtrymalloc _); [by destruct (_ ≫= _) as [[??]|]|].
  intros [= <-]. unfold Cmdline.my_error_from_syserror.
  rewrite gpg_err_make_no_error. intros H.
  pose proof (from_syserror_is_error errno) as He. by rewrite H in He.
Qed.

Lemma my_error_general w : my_error w GPG_ERR_GENERAL <> no_error.
Proof. unfold my_error. by rewrite gpg_err_make_no_error. Qed.

Lemma my_error_syserror w : my_error_from_syserror w <> no_error.
Proof.
  unfold my_error_from_syserror. rewrite gpg_err_make_no_error. intros H.
  pose proof (from_syserror_is_error (errno w)) as He. by rewrite H in He.
Qed.

Lemma fresh_handle s h : fresh s -> next s <= h -> handles s !! h = None.
Proof. intros [_ H] Hh. by apply H. Qed.

Lemma fresh_fd s h : fresh s -> next s <= h -> fds s !! h = None.
Proof. intros [_ H] Hh. by apply H. Qed.

Lemma fresh_stream s h : fresh s -> next s <= h -> streams s !! h = None.
Proof. intros [_ H] Hh. by apply H. Qed.

Lemma fresh_object s h : fresh s -> next s <= h -> heap s !! h = None.
Proof. intros [_ H] Hh. by apply H. Qed.

Ltac fresh_lookup Hfresh :=
  first [ apply (fresh_handle _ _ Hfresh) | apply (fresh_fd _ _ Hfresh)
        | apply (fresh_stream _ _ Hfresh) | apply (fresh_object _ _ Hfresh)
        | symmetry; apply (fresh_handle _ _ Hfresh)
        | symmetry; apply (fresh_fd _ _ Hfresh)
        | symmetry; apply (fresh_stream _ _ Hfresh)
        | symmetry; apply (fresh_object _ _ Hfresh) ]; lia.

(** Comparisons of fresh values with -1 and with NULL. *)
Ltac fresh_test :=
  match goal with
  | |- context [?a =? ?b] =>
      first [ rewrite (proj2 (Z.eqb_neq a b)) by lia
            | rewrite (proj2 (Z.eqb_eq a b)) by lia ]; simpl
  end.

(** The answers of the operating system that the goal depends on. *)
Ltac answers :=
  match goal with
  | |- context [CreatePipe_ok ?w ?n] => destruct (CreatePipe_ok w n) eqn:?; simpl
  | |- context [SetHandleInformation_ok ?w ?n] =>
      destruct (SetHandleInformation_ok w n) eqn:?; simpl
  | |- context [CreateFileW_ok ?w ?n] => destruct (CreateFileW_ok w n) eqn:?; simpl
  | |- context [_open_osfhandle_ok ?w ?n] => destruct (_open_osfhandle_ok w n) eqn:?; simpl
  | |- context [es_sysopen_ok ?w ?n] => destruct (es_sysopen_ok w n) eqn:?; simpl
  | |- context [utf8_to_wchar_ok ?w ?n] => destruct (utf8_to_wchar_ok w n) eqn:?; simpl
  | |- context [CreateProcessW_ok ?w ?n] => destruct (CreateProcessW_ok w n) eqn:?; simpl
  | |- context [IsProcessInJob ?w ?n] =>
      destruct (IsProcessInJob w n) as [[|]|] eqn:?; simpl
  | |- context [QueryInformationJobObject ?w ?n] =>
      destruct (QueryInformationJobObject w n) as [[[|] [|]]|] eqn:?; simpl
  end.

(** A lookup of a descriptor that the call has just made or closed. *)
Ltac fd_lookup :=
  match goal with
  | |- context [@lookup _ _ (gmap Z Z) _ ?j (<[?i:=?x]> ?m)] =>
      rewrite (lookup_insert m i j x); case_decide; try lia; simpl
  | |- context [@lookup _ _ (gmap Z Z) _ ?j (delete ?i ?m)] =>
      rewrite (lookup_delete m i j); case_decide; try lia; simpl
  end.

(** The run of a call, one answer and one comparison after the other. *)
Ltac run Hfresh :=
  pose proof (proj1 Hfresh); simpl; repeat first [ answers | fresh_test | fd_lookup ].

(** Equality of two tables, key by key. *)
Ltac map_cases Hfresh :=
  apply map_eq; intros ?;
  repeat (progress rewrite ?lookup_delete, ?lookup_insert, ?lookup_alter);
  repeat case_decide; subst; try lia; try done; try fresh_lookup Hfresh.

Ltac run_spawn_fd :=
  unfold gnupg_spawn_process_fd, bind, w32_open_null, convert_both, CreateProcessW, when,
    ask, emit, new_handle, CloseHandle, ret, bind, INVALID_HANDLE_VALUE.

Lemma start_fresh : fresh start.
Proof.
  split; [simpl; lia|]. intros h Hh. simpl in *.
  split_and!; rewrite ?lookup_insert, ?lookup_singleton, ?lookup_empty;
    repeat case_decide; try lia; done.
Qed.

Lemma spawn_fd_returns w pgmname argv infd outfd errfd s :
  Cmdline.build_w32_commandline (xtrymalloc w) (errno w) (default_errsource w)
    pgmname argv <> Cmdline.Fault ->
  is_Some (gnupg_spawn_process_fd w pgmname argv infd outfd errfd s).
Proof.
  run_spawn_fd.
  destruct (Cmdline.build_w32_commandline _ _ _ _ _) as [cmdline|e|] eqn:Hb; [| |done];
    intros _; [|done].
  destruct (infd =? -1), (outfd =? -1), (errfd =? -1); simpl.
  all: repeat first [ answers | match goal with
                                | |- context [?a =? ?b] => destruct (a =? b); simpl
                                end ].
  all: done.
Qed.

(** What a call of gnupg_spawn_process_fd leaves behind. *)
Lemma spawn_fd_outcome w pgmname argv infd outfd errfd s err pid s' :
  fresh s ->
  gnupg_spawn_process_fd w pgmname argv infd outfd errfd s = Some ((err, pid), s') ->
  same_but_handles s s'
  /\ ((err = no_error
       /\ exists hProcess, pid = to_int hProcess /\ next s <= hProcess < next s + 4
            /\ handles s' = <[hProcess:=mk_info Spawn.Process_handle false]> (handles s))
      \/ (err <> no_error /\ pid = -1 /\ handles s' = handles s)).
Proof.
  intros Hfresh. run_spawn_fd.
  destruct (Cmdline.build_w32_commandline _ _ _ _ _) as [cmdline|e|] eqn:Hb; [| |done].
  - destruct (infd =? -1), (outfd =? -1), (errfd =? -1); simpl.
    all: run Hfresh.
    all: intros ?; simplify_eq/=.
    all: split; [done|].
    all: first [ right; split_and!; [apply my_error_general | done | map_cases Hfresh]
               | left; split; [done|]; eexists; split_and!;
                 [reflexivity | lia | lia | map_cases Hfresh] ].
  - intros ?; simplify_eq/=. split; [done|]. right. split_and!; try done.
    by apply build_error_is_error in Hb.
Qed.

(** X11: gnupg_spawn_process_fd returns whenever the command line can be
    built, it changes nothing but the handle table, and of the handles
    it opens only the process handle of a successful call stays open:
    the handles of the null device and the thread handle are closed on
    every path, the pid is the process handle, and after an error the
    pid is -1 and the table is as before. *)
Theorem spawn_fd_leaves_only_the_process w pgmname argv infd outfd errfd s :
  fresh s ->
  Cmdline.build_w32_commandline (xtrymalloc w) (errno w) (default_errsource w)
    pgmname argv <> Cmdline.Fault ->
  exists err pid s',
    gnupg_spawn_process_fd w pgmname argv infd outfd errfd s = Some ((err, pid), s')
    /\ same_but_handles s s'
    /\ ((err = no_error
         /\ exists hProcess, pid = to_int hProcess /\ handles s !! hProcess = None
              /\ handles s' = <[hProcess:=mk_info Spawn.Process_handle false]> (handles s))
        \/ (err <> no_error /\ pid = -1 /\ handles s' = handles s)).
Proof.
  intros Hfresh Hbuild.
  destruct (spawn_fd_returns w pgmname argv infd outfd errfd s Hbuild)
    as [[[err pid] s'] Hrun].
  exists err, pid, s'. split; [done|].
  destruct (spawn_fd_outcome _ _ _ _ _ _ _ _ _ _ Hfresh Hrun)
    as [Hsame [(-> & hProcess & -> & Hrange & Hh)|Herr]].
  - split; [done|]. left. split; [done|]. exists hProcess.
    split_and!; [done | fresh_lookup Hfresh | done].
  - split; [done|]. by right.
Qed.

Lemma spawn_fd_leaves_only_the_process_witness :
  fresh start
  /\ exists err pid s',
       gnupg_spawn_process_fd os_ok Spawn.sample_pgmname Spawn.sample_argv (-1) 5 (-1) start
       = Some ((err, pid), s')
       /\ same_but_handles start s'
       /\ ((err = no_error
            /\ exists hProcess, pid = to_int hProcess /\ handles start !! hProcess = None
                 /\ handles s'
                    = <[hProcess:=mk_info Spawn.Process_handle false]> (handles start))
           \/ (err <> no_error /\ pid = -1 /\ handles s' = handles start)).
Proof.
  split; [exact start_fresh|].
  apply (spawn_fd_leaves_only_the_process _ _ _ _ _ _ _ start_fresh). by vm_compute.
Defined.

Ltac in_list := repeat first [ apply list_elem_of_here | apply list_elem_of_further ].

(** X12: a successful gnupg_spawn_process_fd makes one CreateProcessW
    call: for the program and the command line that the quoting rule
    renders from the arguments, with handle inheritance, created
    suspended and detached; each standard stream of the child is the
    handle behind the descriptor given for it, or what opening the null
    device returned (for reading on stdin, for writing on stdout and
    stderr) when the descriptor is -1; the last call resumes the
    thread, whose handle is then closed. *)
Theorem spawn_fd_starts_the_child w pgmname argv infd outfd errfd s pid s' :
  Cmdline.c_string pgmname -> Forall Cmdline.c_string argv ->
  fresh s ->
  gnupg_spawn_process_fd w pgmname argv infd outfd errfd s = Some ((no_error, pid), s') ->
  exists hin hout herr hThread new,
    trace s' = trace s ++ new
    /\ created new
       = [Ev_CreateProcessW pgmname (Some (Cmdline.spec_commandline pgmname argv)) true
            [CREATE_DEFAULT_ERROR_MODE; PRIORITY_CLASS; CREATE_SUSPENDED; DETACHED_PROCESS]
            (Some (hin, hout, herr)) None]
    /\ last new = Some (Ev_ResumeThread hThread)
    /\ handles s' !! hThread = None
    /\ wired w infd false hin new /\ wired w outfd true hout new
    /\ wired w errfd true herr new.
Proof.
  intros Hpgm Hargv Hfresh. run_spawn_fd.
  destruct (Cmdline.build_w32_commandline _ _ _ _ _) as [cmdline|e|] eqn:Hb; [| |done].
  - apply (CmdlineMoreFacts.build_ok_c_str _ _ _ _ _ _ Hpgm Hargv) in Hb.
    unfold wired.
    destruct (Z.eqb_spec infd (-1)), (Z.eqb_spec outfd (-1)), (Z.eqb_spec errfd (-1));
      subst.
    all: run Hfresh.
    all: intros ?; simplify_eq/=;
      try match goal with
        | H : my_error _ _ = no_error |- _ => by apply my_error_general in H
        end.
    all: rewrite <- ?app_assoc; simpl.
    all: eexists _, _, _, _, _; split; [reflexivity|]; simpl; rewrite Hb.
    all: split; [reflexivity|]; split; [reflexivity|].
    all: split;
      [rewrite ?lookup_delete, ?lookup_insert; repeat case_decide; try lia; try done;
       fresh_lookup Hfresh|].
    all: split_and!; repeat case_decide; first [ done | in_list ].
  - intros ?; simplify_eq/=. by apply build_error_is_error in Hb.
Qed.

Lemma spawn_fd_starts_the_child_witness :
  Cmdline.c_string Spawn.sample_pgmname /\ Forall Cmdline.c_string Spawn.sample_argv
  /\ fresh start
  /\ exists pid s',
       gnupg_spawn_process_fd os_ok Spawn.sample_pgmname Spawn.sample_argv (-1) 5 (-1) start
       = Some ((no_error, pid), s')
       /\ exists hin hout herr hThread new,
            trace s' = trace start ++ new
            /\ created new
               = [Ev_CreateProcessW Spawn.sample_pgmname
                    (Some (Cmdline.spec_commandline Spawn.sample_pgmname Spawn.sample_argv))
                    true
                    [CREATE_DEFAULT_ERROR_MODE; PRIORITY_CLASS; CREATE_SUSPENDED;
                     DETACHED_PROCESS]
                    (Some (hin, hout, herr)) None]
            /\ last new = Some (Ev_ResumeThread hThread)
            /\ handles s' !! hThread = None
            /\ wired os_ok (-1) false hin new /\ wired os_ok 5 true hout new
            /\ wired os_ok (-1) true herr new.
Proof.
  assert (Cmdline.c_string Spawn.sample_pgmname) as Hp by (by apply (bool_decide_unpack _)).
  assert (Forall Cmdline.c_string Spawn.sample_argv) as Ha
    by (repeat constructor; by apply (bool_decide_unpack _)).
  split; [exact Hp|]. split; [exact Ha|]. split; [exact start_fresh|].
  destruct (gnupg_spawn_process_fd os_ok Spawn.sample_pgmname Spawn.sample_argv (-1) 5 (-1)
              start) as [[[err pid] s']|] eqn:Hrun; [|by vm_compute in Hrun].
  assert (err = no_error) as -> by (vm_compute in Hrun; by injection Hrun as <- _ _).
  exists pid, s'. split; [done|].
  exact (spawn_fd_starts_the_child _ _ _ _ _ _ _ _ _ Hp Ha start_fresh Hrun).
Defined.

(** X13: the pid that a successful gnupg_spawn_process_fd returns is the
    process handle as long as handle values fit an int: then
    gnupg_kill_process makes one TerminateProcess call on that open
    handle with exit code 1, and gnupg_release_process closes it, which
    leaves the handle table as it was before the spawn. *)
Theorem spawn_fd_kill_release w pgmname argv infd outfd errfd s pid s1 :
  fresh s -> next s + 4 <= INT_MAX ->
  gnupg_spawn_process_fd w pgmname argv infd outfd errfd s = Some ((no_error, pid), s1) ->
  handles s1 !! pid = Some (mk_info Spawn.Process_handle false)
  /\ exists s2 s3,
       gnupg_kill_process pid s1 = Some (tt, s2)
       /\ trace s2 = trace s1 ++ [Ev_TerminateProcess pid 1]
       /\ gnupg_release_process pid s2 = Some (tt, s3)
       /\ handles s3 = handles s.
Proof.
  intros Hfresh Hmax Hrun.
  destruct (spawn_fd_outcome _ _ _ _ _ _ _ _ _ _ Hfresh Hrun)
    as [_ [(_ & hProcess & -> & Hrange & Hh)|[? _]]]; [|done].
  pose proof (proj1 Hfresh).
  rewrite to_int_small by (unfold INT_MAX in *; lia).
  split; [by rewrite Hh, lookup_insert, decide_True|].
  unfold gnupg_kill_process, gnupg_release_process, INVALID_HANDLE_VALUE.
  change (to_int (-1)) with (-1).
  rewrite (proj2 (Z.eqb_neq hProcess (-1))) by lia. simpl.
  eexists _, _. split_and!; [reflexivity | done | reflexivity |]. simpl.
  rewrite Hh. apply delete_insert_id. fresh_lookup Hfresh.
Qed.

Lemma spawn_fd_kill_release_witness :
  fresh start /\ next start + 4 <= INT_MAX
  /\ exists pid s1,
       gnupg_spawn_process_fd os_ok Spawn.sample_pgmname Spawn.sample_argv (-1) 5 (-1) start
       = Some ((no_error, pid), s1)
       /\ handles s1 !! pid = Some (mk_info Spawn.Process_handle false)
       /\ exists s2 s3,
            gnupg_kill_process pid s1 = Some (tt, s2)
            /\ trace s2 = trace s1 ++ [Ev_TerminateProcess pid 1]
            /\ gnupg_release_process pid s2 = Some (tt, s3)
            /\ handles s3 = handles start.
Proof.
  assert (next start + 4 <= INT_MAX) as Hmax by (by vm_compute).
  split; [exact start_fresh|]. split; [exact Hmax|].
  destruct (gnupg_spawn_process_fd os_ok Spawn.sample_pgmname Spawn.sample_argv (-1) 5 (-1)
              start) as [[[err pid] s1]|] eqn:Hrun; [|by vm_compute in Hrun].
  assert (err = no_error) as -> by (vm_compute in Hrun; by injection Hrun as <- _ _).
  exists pid, s1. split; [done|].
  exact (spawn_fd_kill_release _ _ _ _ _ _ _ _ _ start_fresh Hmax Hrun).
Defined.

Ltac not_in_list :=
  let Hin := fresh "Hin" in
  intros Hin; repeat (apply elem_of_cons in Hin as [?|Hin]; [done|]);
  by apply elem_of_nil in Hin.

Ltac run_detached :=
  unfold gnupg_spawn_process_detached, bind, convert_both, CreateProcessW, when,
    ask, emit, new_handle, CloseHandle, ret, bind.

Lemma detached_returns w pgmname argv s :
  Cmdline.build_w32_commandline (xtrymalloc w) (errno w) (default_errsource w)
    pgmname argv <> Cmdline.Fault ->
  is_Some (gnupg_spawn_process_detached w pgmname argv s).
Proof.
  run_detached. destruct (is_error _); [done|].
  destruct (Cmdline.build_w32_commandline _ _ _ _ _) as [cmdline|e|] eqn:Hb; [| |done];
    intros _; [|done].
  destruct (match GNUPG_EXEC_DEBUG_FLAGS w with Some _ => _ | None => _ end); simpl.
  all: repeat answers; done.
Qed.

(** What a call of gnupg_spawn_process_detached leaves behind. *)
Lemma detached_outcome w pgmname argv s err s' :
  Cmdline.c_string pgmname -> Forall Cmdline.c_string argv ->
  fresh s ->
  gnupg_spawn_process_detached w pgmname argv s = Some (err, s') ->
  handles s' = handles s /\ same_but_handles s s'
  /\ (is_error (gnupg_access w pgmname) = true ->
        err = gpg_err_make (default_errsource w) (gnupg_access w pgmname) /\ s' = s)
  /\ (err = no_error ->
        exists cr_flags new,
          trace s' = trace s ++ new
          /\ created new
             = [Ev_CreateProcessW pgmname (Some (Cmdline.spec_commandline pgmname argv))
                  false cr_flags None None]
          /\ DETACHED_PROCESS ∈ cr_flags /\ CREATE_NEW_PROCESS_GROUP ∈ cr_flags
          /\ (CREATE_SUSPENDED ∉ cr_flags)
          /\ (CREATE_BREAKAWAY_FROM_JOB ∈ cr_flags
               <-> IsProcessInJob w (clock s) = Some true
                   /\ exists silent,
                        QueryInformationJobObject w (S (clock s)) = Some (true, silent))).
Proof.
  intros Hpgm Hargv Hfresh. run_detached.
  destruct (is_error (gnupg_access w pgmname)) eqn:Hacc.
  { intros ?; simplify_eq/=. split_and!; try done.
    rewrite gpg_err_make_no_error. intros Hno. by rewrite Hno in Hacc. }
  destruct (Cmdline.build_w32_commandline _ _ _ _ _) as [cmdline|e|] eqn:Hb; [| |done].
  - apply (CmdlineMoreFacts.build_ok_c_str _ _ _ _ _ _ Hpgm Hargv) in Hb.
    destruct (match GNUPG_EXEC_DEBUG_FLAGS w with Some _ => _ | None => _ end); simpl.
    all: repeat answers.
    all: intros ?; simplify_eq/=.
    all: split; [try done; map_cases Hfresh|]; split; [done|]; split; [done|].
    all: intros Herr; try (by apply my_error_general in Herr).
    all: rewrite <- ?app_assoc; simpl; rewrite Hb.
    all: eexists _, _; split; [reflexivity|]; simpl; split; [reflexivity|].
    all: split; [in_list|]; split; [in_list|]; split; [not_in_list|].
    all: split;
      [ intros Hin; first [ solve [split; [done | by eexists]]
                          | exfalso; revert Hin; not_in_list ]
      | intros [? [? ?]]; first [ solve [in_list] | simplify_eq ] ].
  - intros ?; simplify_eq/=. split_and!; try done.
    intros ->. by apply build_error_is_error in Hb.
Qed.

(** X14: gnupg_spawn_process_detached returns whenever the command line
    can be built; when the program is not accessible it returns the
    error of the access check and does nothing else; it never leaves a
    handle open (process and thread handle are both closed), and a
    successful call has made exactly one CreateProcessW call, for the
    program and its rendered command line, without handle inheritance,
    without standard handles, detached, in a new process group and not
    suspended. *)
Theorem detached_leaves_nothing_open w pgmname argv s :
  Cmdline.c_string pgmname -> Forall Cmdline.c_string argv ->
  fresh s ->
  Cmdline.build_w32_commandline (xtrymalloc w) (errno w) (default_errsource w)
    pgmname argv <> Cmdline.Fault ->
  exists err s',
    gnupg_spawn_process_detached w pgmname argv s = Some (err, s')
    /\ handles s' = handles s /\ same_but_handles s s'
    /\ (is_error (gnupg_access w pgmname) = true ->
          err = gpg_err_make (default_errsource w) (gnupg_access w pgmname) /\ s' = s)
    /\ (err = no_error ->
          exists cr_flags new,
            trace s' = trace s ++ new
            /\ created new
               = [Ev_CreateProcessW pgmname (Some (Cmdline.spec_commandline pgmname argv))
                    false cr_flags None None]
            /\ DETACHED_PROCESS ∈ cr_flags /\ CREATE_NEW_PROCESS_GROUP ∈ cr_flags
            /\ (CREATE_SUSPENDED ∉ cr_flags)).
Proof.
  intros Hpgm Hargv Hfresh Hbuild.
  destruct (detached_returns w pgmname argv s Hbuild) as [[err s'] Hrun].
  exists err, s'. split; [done|].
  destruct (detached_outcome _ _ _ _ _ _ Hpgm Hargv Hfresh Hrun)
    as (Hh & Hsame & Hacc & Hok).
  split_and!; [done..|].
  intros Herr. destruct (Hok Herr) as (cr_flags & new & ? & ? & ? & ? & ? & _).
  by exists cr_flags, new.
Qed.

(** X15: the process that gnupg_spawn_process_detached creates is given
    CREATE_BREAKAWAY_FROM_JOB exactly when IsProcessInJob succeeds and
    reports a job and QueryInformationJobObject succeeds and reports
    that the job allows a breakaway; a failure of either call, no job,
    or a job that only allows a silent breakaway leaves the flag out. *)
Theorem detached_breaks_away_when_allowed w pgmname argv s s' :
  Cmdline.c_string pgmname -> Forall Cmdline.c_string argv ->
  fresh s ->
  gnupg_spawn_process_detached w pgmname argv s = Some (no_error, s') ->
  exists cmdline inherit cr_flags std_handles handle_list,
    created (drop (length (trace s)) (trace s'))
    = [Ev_CreateProcessW pgmname cmdline inherit cr_flags std_handles handle_list]
    /\ (CREATE_BREAKAWAY_FROM_JOB ∈ cr_flags
         <-> IsProcessInJob w (clock s) = Some true
             /\ exists silent,
                  QueryInformationJobObject w (S (clock s)) = Some (true, silent)).
Proof.
  intros Hpgm Hargv Hfresh Hrun.
  destruct (detached_outcome _ _ _ _ _ _ Hpgm Hargv Hfresh Hrun) as (_ & _ & _ & Hok).
  destruct (Hok eq_refl) as (cr_flags & new & Htr & Hcr & _ & _ & _ & Hiff).
  eexists _, _, cr_flags, _, _. split; [|exact Hiff].
  by rewrite Htr, drop_app_length.
Qed.

Lemma detached_leaves_nothing_open_witness :
  Cmdline.c_string Spawn.sample_pgmname /\ Forall Cmdline.c_string Spawn.sample_argv
  /\ fresh start
  /\ exists err s',
       gnupg_spawn_process_detached os_ok Spawn.sample_pgmname Spawn.sample_argv start
       = Some (err, s')
       /\ handles s' = handles start /\ same_but_handles start s'
       /\ (is_error (gnupg_access os_ok Spawn.sample_pgmname) = true ->
             err = gpg_err_make (default_errsource os_ok)
                     (gnupg_access os_ok Spawn.sample_pgmname)
             /\ s' = start)
       /\ (err = no_error ->
             exists cr_flags new,
               trace s' = trace start ++ new
               /\ created new
                  = [Ev_CreateProcessW Spawn.sample_pgmname
                       (Some (Cmdline.spec_commandline Spawn.sample_pgmname
                                Spawn.sample_argv))
                       false cr_flags None None]
               /\ DETACHED_PROCESS ∈ cr_flags /\ CREATE_NEW_PROCESS_GROUP ∈ cr_flags
               /\ (CREATE_SUSPENDED ∉ cr_flags)).
Proof.
  assert (Cmdline.c_string Spawn.sample_pgmname) as Hp by (by apply (bool_decide_unpack _)).
  assert (Forall Cmdline.c_string Spawn.sample_argv) as Ha
    by (repeat constructor; by apply (bool_decide_unpack _)).
  split; [exact Hp|]. split; [exact Ha|]. split; [exact start_fresh|].
  apply (detached_leaves_nothing_open _ _ _ _ Hp Ha start_fresh). by vm_compute.
Defined.

Lemma detached_breaks_away_when_allowed_witness :
  Cmdline.c_string Spawn.sample_pgmname /\ Forall Cmdline.c_string Spawn.sample_argv
  /\ fresh start
  /\ exists s',
       gnupg_spawn_process_detached os_in_job Spawn.sample_pgmname Spawn.sample_argv start
       = Some (no_error, s')
       /\ exists cmdline inherit cr_flags std_handles handle_list,
            created (drop (length (trace start)) (trace s'))
            = [Ev_CreateProcessW Spawn.sample_pgmname cmdline inherit cr_flags std_handles
                 handle_list]
            /\ (CREATE_BREAKAWAY_FROM_JOB ∈ cr_flags
                 <-> IsProcessInJob os_in_job (clock start) = Some true
                     /\ exists silent,
                          QueryInformationJobObject os_in_job (S (clock start))
                          = Some (true, silent)).
Proof.
  assert (Cmdline.c_string Spawn.sample_pgmname) as Hp by (by apply (bool_decide_unpack _)).
  assert (Forall Cmdline.c_string Spawn.sample_argv) as Ha
    by (repeat constructor; by apply (bool_decide_unpack _)).
  split; [exact Hp|]. split; [exact Ha|]. split; [exact start_fresh|].
  destruct (gnupg_spawn_process_detached os_in_job Spawn.sample_pgmname Spawn.sample_argv
              start) as [[err s']|] eqn:Hrun; [|by vm_compute in Hrun].
  assert (err = no_error) as -> by (vm_compute in Hrun; by injection Hrun as <- _).
  exists s'. split; [done|].
  exact (detached_breaks_away_when_allowed _ _ _ _ _ Hp Ha start_fresh Hrun).
Defined.

Ltac run_pipe :=
  unfold create_pipe_and_estream, create_inheritable_pipe, SetHandleInformation,
    _open_osfhandle, close, es_sysopen, bind, when, ask, emit, new_handle, CloseHandle,
    ret, bind, INVALID_HANDLE_VALUE.

(** What a call of create_pipe_and_estream leaves behind. *)
Lemma pipe_outcome w flags r_fp outbound nonblock s :
  fresh s ->
  exists err fd0 fd1 fp s',
    create_pipe_and_estream w flags r_fp outbound nonblock s
    = Some ((err, fd0, fd1, fp), s')
    /\ heap s' = heap s /\ mem s' = mem s
    /\ ((err = no_error
         /\ fd0 <> -1 /\ fd1 <> -1 /\ fd0 <> fd1
         /\ fds s !! fd0 = None /\ fds s !! fd1 = None
         /\ exists r wr,
              r <> wr /\ handles s !! r = None /\ handles s !! wr = None
              /\ fds s' = <[fd1:=wr]> (<[fd0:=r]> (fds s))
              /\ handles s'
                 = <[wr:=mk_info Spawn.Pipe_write (Spawn.has_flag flags Spawn.INHERIT_WRITE)]>
                     (<[r:=mk_info Spawn.Pipe_read (Spawn.has_flag flags Spawn.INHERIT_READ)]>
                        (handles s))
              /\ (if r_fp then
                    exists f, fp = Some f /\ f <> 0 /\ streams s !! f = None
                      /\ streams s' = <[f:=if outbound then wr else r]> (streams s)
                  else fp = None /\ streams s' = streams s))
        \/ (err <> no_error /\ fd0 = -1 /\ fd1 = -1
            /\ fds s' = fds s /\ streams s' = streams s
            /\ (fp = None \/ fp = Some 0)
            /\ (handles s' = handles s
                \/ exists r inherit,
                     handles s !! r = None
                     /\ handles s' = <[r:=mk_info Spawn.Pipe_read inherit]> (handles s)))).
Proof.
  intros Hfresh. run_pipe. unfold Spawn.has_flag.
  destruct (Z.land flags Spawn.INHERIT_READ =? 0) eqn:Hr,
           (Z.land flags Spawn.INHERIT_WRITE =? 0) eqn:Hw, r_fp, outbound; simpl.
  all: run Hfresh.
  all: eexists _, _, _, _, _; split; [reflexivity|]; simpl.
  all: split; [done|]; split; [done|].
  all: first
    [ right; split; [first [apply my_error_general | apply my_error_syserror]|];
      split; [done|]; split; [done|];
      split; [try done; map_cases Hfresh|]; split; [try done; map_cases Hfresh|];
      split; [auto; fail|];
      first [ left; map_cases Hfresh; fail
            | right; exists (next s); eexists; split; [fresh_lookup Hfresh|];
              map_cases Hfresh; fail ]
    | left; split; [done|];
      do 5 (split; [first [lia | fresh_lookup Hfresh]|]);
      exists (next s), (next s + 1);
      split; [lia|]; split; [fresh_lookup Hfresh|]; split; [fresh_lookup Hfresh|];
      split; [reflexivity|]; split; [map_cases Hfresh|];
      first [ done
            | eexists; split; [reflexivity|]; split; [lia|]; split;
              [fresh_lookup Hfresh | reflexivity] ] ].
Qed.


(** The outcome in the words of the caller. *)
Lemma pipe_summary w flags r_fp outbound nonblock s :
  fresh s ->
  exists err fd0 fd1 fp s',
    create_pipe_and_estream w flags r_fp outbound nonblock s
    = Some ((err, fd0, fd1, fp), s')
    /\ heap s' = heap s /\ mem s' = mem s
    /\ ((err = no_error
         /\ pipe_made s s' fd0 fd1 (Spawn.has_flag flags Spawn.INHERIT_READ)
              (Spawn.has_flag flags Spawn.INHERIT_WRITE)
         /\ (if r_fp then stream_on s s' fp (if outbound then fd1 else fd0)
             else fp = None /\ streams s' = streams s))
        \/ (err <> no_error /\ fd0 = -1 /\ fd1 = -1
            /\ fds s' = fds s /\ streams s' = streams s)).
Proof.
  intros Hfresh.
  destruct (pipe_outcome w flags r_fp outbound nonblock s Hfresh)
    as (err & fd0 & fd1 & fp & s' & Hrun & Hheap & Hmem & Hcases).
  exists err, fd0, fd1, fp, s'. split_and!; [done..|].
  destruct Hcases as [(-> & ? & ? & ? & ? & ? & r & wr & ? & ? & ? & Hfds & Hh & Hfp)
                     |(? & ? & ? & ? & ? & _)].
  - left. split; [done|]. split.
    + split_and!; [done..|]. exists r, wr. rewrite Hfds, Hh.
      split_and!; try done.
      * rewrite lookup_insert_ne, lookup_insert by done. by rewrite decide_True.
      * rewrite lookup_insert. by rewrite decide_True.
      * rewrite lookup_insert_ne, lookup_insert by done. by rewrite decide_True.
      * rewrite lookup_insert. by rewrite decide_True.
    + destruct r_fp; [|done]. destruct Hfp as (f & -> & ? & ? & Hst).
      exists f, (if outbound then wr else r). rewrite Hst, Hfds.
      split_and!; try done.
      * rewrite lookup_insert. by rewrite decide_True.
      * destruct outbound.
        -- rewrite lookup_insert. by rewrite decide_True.
        -- rewrite lookup_insert_ne, lookup_insert by done. by rewrite decide_True.
  - right. by split_and!.
Qed.

(** X16: create_pipe_and_estream never faults and is all or nothing for
    the caller: it returns 0 with two new, distinct descriptors, neither
    of them -1, which own the read end and the write end of a new pipe
    (the read end inheritable exactly if INHERIT_READ is in the flags,
    the write end exactly if INHERIT_WRITE is), with a new non-NULL
    stream on the read end (the write end for an outbound pipe) stored
    through r_fp if and only if r_fp is given; or it returns an error
    with both descriptors -1 and with the tables of descriptors and
    streams as they were. *)
Theorem pipe_all_or_nothing w flags r_fp outbound nonblock s :
  fresh s ->
  exists err fd0 fd1 fp s',
    create_pipe_and_estream w flags r_fp outbound nonblock s
    = Some ((err, fd0, fd1, fp), s')
    /\ heap s' = heap s /\ mem s' = mem s
    /\ ((err = no_error
         /\ pipe_made s s' fd0 fd1 (Spawn.has_flag flags Spawn.INHERIT_READ)
              (Spawn.has_flag flags Spawn.INHERIT_WRITE)
         /\ (if r_fp then stream_on s s' fp (if outbound then fd1 else fd0)
             else fp = None /\ streams s' = streams s))
        \/ (err <> no_error /\ fd0 = -1 /\ fd1 = -1
            /\ fds s' = fds s /\ streams s' = streams s)).
Proof. exact (pipe_summary w flags r_fp outbound nonblock s). Qed.

Lemma pipe_all_or_nothing_witness :
  fresh start
  /\ exists err fd0 fd1 fp s',
       create_pipe_and_estream os_ok Spawn.INHERIT_WRITE true false false start
       = Some ((err, fd0, fd1, fp), s')
       /\ heap s' = heap start /\ mem s' = mem start
       /\ ((err = no_error
            /\ pipe_made start s' fd0 fd1
                 (Spawn.has_flag Spawn.INHERIT_WRITE Spawn.INHERIT_READ)
                 (Spawn.has_flag Spawn.INHERIT_WRITE Spawn.INHERIT_WRITE)
            /\ (if true then stream_on start s' fp (if false then fd1 else fd0)
                else fp = None /\ streams s' = streams start))
           \/ (err <> no_error /\ fd0 = -1 /\ fd1 = -1
               /\ fds s' = fds start /\ streams s' = streams start)).
Proof.
  split; [exact start_fresh|].
  exact (pipe_all_or_nothing os_ok Spawn.INHERIT_WRITE true false false start start_fresh).
Defined.

(** X17: the three public pipe functions differ in which end a child
    process inherits.  After a successful gnupg_create_inbound_pipe the
    read end, on which the stream is made, is not inheritable and the
    write end is; after a successful gnupg_create_outbound_pipe the
    write end, on which the stream is made, is not inheritable and the
    read end is; after a successful gnupg_create_pipe both ends are
    inheritable and there is no stream. *)
Theorem pipe_ends_inheritance w r_fp nonblock s :
  fresh s ->
  (forall fd0 fd1 fp s',
     gnupg_create_inbound_pipe w r_fp nonblock s = Some ((no_error, fd0, fd1, fp), s') ->
     pipe_made s s' fd0 fd1 false true
     /\ (if r_fp then stream_on s s' fp fd0 else fp = None))
  /\ (forall fd0 fd1 fp s',
        gnupg_create_outbound_pipe w r_fp nonblock s = Some ((no_error, fd0, fd1, fp), s') ->
        pipe_made s s' fd0 fd1 true false
        /\ (if r_fp then stream_on s s' fp fd1 else fp = None))
  /\ (forall fd0 fd1 fp s',
        gnupg_create_pipe w s = Some ((no_error, fd0, fd1, fp), s') ->
        pipe_made s s' fd0 fd1 true true /\ fp = None /\ streams s' = streams s).
Proof.
  intros Hfresh.
  unfold gnupg_create_inbound_pipe, gnupg_create_outbound_pipe, gnupg_create_pipe.
  split_and!; intros fd0 fd1 fp s' Hrun.
  - destruct (pipe_summary w Spawn.INHERIT_WRITE r_fp false nonblock s Hfresh)
      as (? & ? & ? & ? & ? & Hrun' & _ & _ & Hcases).
    rewrite Hrun in Hrun'. injection Hrun' as <- <- <- <- <-.
    destruct Hcases as [(_ & Hpipe & Hfp)|[? _]]; [|done].
    split; [exact Hpipe|]. destruct r_fp; [done|]. by destruct Hfp.
  - destruct (pipe_summary w Spawn.INHERIT_READ r_fp true nonblock s Hfresh)
      as (? & ? & ? & ? & ? & Hrun' & _ & _ & Hcases).
    rewrite Hrun in Hrun'. injection Hrun' as <- <- <- <- <-.
    destruct Hcases as [(_ & Hpipe & Hfp)|[? _]]; [|done].
    split; [exact Hpipe|]. destruct r_fp; [done|]. by destruct Hfp.
  - destruct (pipe_summary w Spawn.INHERIT_BOTH false false false s Hfresh)
      as (? & ? & ? & ? & ? & Hrun' & _ & _ & Hcases).
    rewrite Hrun in Hrun'. injection Hrun' as <- <- <- <- <-.
    destruct Hcases as [(_ & Hpipe & Hfp)|[? _]]; [|done].
    split; [exact Hpipe|]. done.
Qed.

Lemma pipe_ends_inheritance_witness :
  fresh start
  /\ (exists fd0 fd1 fp s',
        gnupg_create_inbound_pipe os_ok true false start
        = Some ((no_error, fd0, fd1, fp), s')
        /\ pipe_made start s' fd0 fd1 false true /\ stream_on start s' fp fd0)
  /\ (exists fd0 fd1 fp s',
        gnupg_create_outbound_pipe os_ok true false start
        = Some ((no_error, fd0, fd1, fp), s')
        /\ pipe_made start s' fd0 fd1 true false /\ stream_on start s' fp fd1)
  /\ (exists fd0 fd1 fp s',
        gnupg_create_pipe os_ok start = Some ((no_error, fd0, fd1, fp), s')
        /\ pipe_made start s' fd0 fd1 true true /\ fp = None
        /\ streams s' = streams start).
Proof.
  destruct (pipe_ends_inheritance os_ok true false start start_fresh) as (Hin & Hout & Hboth).
  split; [exact start_fresh|]. split_and!.
  - destruct (gnupg_create_inbound_pipe os_ok true false start)
      as [[[[[err fd0] fd1] fp] s']|] eqn:Hrun; [|by vm_compute in Hrun].
    assert (err = no_error) as -> by (vm_compute in Hrun; by injection Hrun as <- _ _ _ _).
    exists fd0, fd1, fp, s'. split; [done|]. by apply Hin.
  - destruct (gnupg_create_outbound_pipe os_ok true false start)
      as [[[[[err fd0] fd1] fp] s']|] eqn:Hrun; [|by vm_compute in Hrun].
    assert (err = no_error) as -> by (vm_compute in Hrun; by injection Hrun as <- _ _ _ _).
    exists fd0, fd1, fp, s'. split; [done|]. by apply Hout.
  - destruct (gnupg_create_pipe os_ok start)
      as [[[[[err fd0] fd1] fp] s']|] eqn:Hrun; [|by vm_compute in Hrun].
    assert (err = no_error) as -> by (vm_compute in Hrun; by injection Hrun as <- _ _ _ _).
    exists fd0, fd1, fp, s'. split; [done|]. by apply Hboth.
Defined.

(** X18: a pipe made by gnupg_create_pipe is undone by gnupg_close_pipe on
    its two descriptors: each call closes the descriptor and the end of
    the pipe it owns, and afterwards the tables of descriptors, handles
    and streams are as they were before the pipe was made. *)
Theorem pipe_close_round_trip w s fd0 fd1 fp s1 :
  fresh s ->
  gnupg_create_pipe w s = Some ((no_error, fd0, fd1, fp), s1) ->
  exists s2 s3,
    gnupg_close_pipe fd0 s1 = Some (tt, s2)
    /\ gnupg_close_pipe fd1 s2 = Some (tt, s3)
    /\ fds s2 !! fd0 = None /\ fds s2 !! fd1 = fds s1 !! fd1
    /\ fds s3 = fds s /\ handles s3 = handles s /\ streams s3 = streams s.
Proof.
  intros Hfresh Hrun. unfold gnupg_create_pipe in Hrun.
  destruct (pipe_outcome w Spawn.INHERIT_BOTH false false false s Hfresh)
    as (? & ? & ? & ? & ? & Hrun' & _ & _ & Hcases).
  rewrite Hrun in Hrun'. injection Hrun' as <- <- <- <- <-.
  destruct Hcases as [(_ & Hfd0 & Hfd1 & Hne & Hn0 & Hn1 & r & wr & Hrw & Hhr & Hhw & Hfds
                        & Hh & _ & Hst)|[? _]]; [|done].
  unfold gnupg_close_pipe, close.
  rewrite (proj2 (Z.eqb_neq fd0 (-1))), (proj2 (Z.eqb_neq fd1 (-1))) by done. simpl.
  rewrite Hfds, lookup_insert_ne, lookup_insert, decide_True by done.
  eexists _, _. split; [reflexivity|]. simpl.
  rewrite lookup_delete_ne, lookup_insert, decide_True by done.
  split; [reflexivity|]. simpl. split_and!; simpl.
  - rewrite lookup_delete. by rewrite decide_True.
  - done.
  - apply map_eq. intros i. rewrite !lookup_delete, !lookup_insert.
    repeat case_decide; subst; done.
  - rewrite Hh. apply map_eq. intros i. rewrite !lookup_delete, !lookup_insert.
    repeat case_decide; subst; done.
  - done.
Qed.

Lemma pipe_close_round_trip_witness :
  fresh start
  /\ exists fd0 fd1 fp s1,
       gnupg_create_pipe os_ok start = Some ((no_error, fd0, fd1, fp), s1)
       /\ exists s2 s3,
            gnupg_close_pipe fd0 s1 = Some (tt, s2)
            /\ gnupg_close_pipe fd1 s2 = Some (tt, s3)
            /\ fds s2 !! fd0 = None /\ fds s2 !! fd1 = fds s1 !! fd1
            /\ fds s3 = fds start /\ handles s3 = handles start
            /\ streams s3 = streams start.
Proof.
  split; [exact start_fresh|].
  destruct (gnupg_create_pipe os_ok start)
    as [[[[[err fd0] fd1] fp] s1]|] eqn:Hrun; [|by vm_compute in Hrun].
  assert (err = no_error) as -> by (vm_compute in Hrun; by injection Hrun as <- _ _ _ _).
  exists fd0, fd1, fp, s1. split; [done|].
  exact (pipe_close_round_trip os_ok start fd0 fd1 fp s1 start_fresh Hrun).
Defined.

End SysFacts.

Module OpenFdsFacts.
Import MachInt MachIntFacts OpenFds.

Lemma listed_prefix (l : list Z) rest :
  Forall (fun fd => fd <> -1) l -> listed (l ++ -1 :: rest) = l.
Proof.
  induction 1 as [|fd l Hfd _ IH]; [done|]. simpl.
  rewrite (proj2 (Z.eqb_neq fd (-1))) by done. by rewrite IH.
Qed.

Lemma store_int_length array idx v array' :
  store_int array idx v = Some array' -> length array' = length array.
Proof. unfold store_int. case_decide; [|done]. intros [= <-]. by rewrite length_insert. Qed.

Section ScanFacts.

Variable OPEN_MAX : option Z.
Variable calloc_ok : bool.
Variable realloc_ok : Z -> bool.
Variable uninitialised : nat -> Z.
Variable fstat : Z -> Z.
Variable errno_after_fstat : Z -> Z.
Variable EBADF : Z.

Local Abbreviation is_open := (is_open fstat errno_after_fstat EBADF).
Local Abbreviation scan := (scan realloc_ok uninitialised fstat errno_after_fstat EBADF).
Local Abbreviation opened := (fun n => filter (fun fd => is_open fd = true) (seqZ 0 n)).

Lemma opened_step fd :
  0 <= fd ->
  opened (fd + 1) = opened fd ++ (if is_open fd then [fd] else []).
Proof.
  intros Hfd. cbv beta. rewrite seqZ_app by lia. rewrite filter_app. f_equal.
  rewrite seqZ_cons by lia. rewrite seqZ_nil by lia.
  rewrite filter_cons, filter_nil. simpl. replace (0 + fd) with fd by lia.
  destruct (is_open fd); by case_decide.
Qed.

Lemma opened_length fd : 0 <= fd -> Z.of_nat (length (opened fd)) <= fd.
Proof.
  intros Hfd. cbv beta.
  pose proof (length_filter (fun fd => is_open fd = true) (seqZ 0 fd)) as Hle.
  rewrite length_seqZ in Hle. lia.
Qed.

Lemma opened_valid fd : Forall (fun fd => fd <> -1) (opened fd).
Proof.
  cbv beta. apply Forall_forall. intros x [_ Hx%elem_of_seqZ]%list_elem_of_filter. lia.
Qed.

Lemma opened_length_mono fd limit :
  0 <= fd <= limit -> (length (opened fd) <= length (opened limit))%nat.
Proof.
  intros Hfd. cbv beta. replace limit with (fd + (limit - fd)) by lia.
  rewrite seqZ_app by lia. rewrite filter_app, length_app. lia.
Qed.

Lemma capacity_step k : capacity k < capacity (S k).
Proof. cbn [capacity]. case_match; lia. Qed.

Lemma capacity_mono j k : (j <= k)%nat -> capacity j <= capacity k.
Proof.
  induction 1 as [|k _ IH]; [lia|]. pose proof (capacity_step k). lia.
Qed.

(** The loop from the descriptor [fd] on: the array holds the open
    descriptors below [fd] in its first [idx] cells and has room for one
    more entry; it has been reallocated [j] times. *)
Lemma scan_spec limit max_fd : forall fuel fd array narray idx j,
  limit = Z.max max_fd 0 -> limit <= INT_MAX ->
  0 <= fd <= limit ->
  (Z.to_nat (limit - fd) < fuel)%nat ->
  idx = Z.of_nat (length (opened fd)) ->
  take (Z.to_nat idx) array = opened fd ->
  Z.of_nat (length array) = narray -> idx + 1 <= narray <= idx + 257 ->
  narray = capacity j ->
  (forall k, (k < j)%nat -> realloc_ok (capacity (S k) * 4) = true) ->
  (exists array', scan fuel fd max_fd array narray idx = Returned (Some array')
                  /\ listed array' = opened limit
                  /\ forall k, capacity k <= Z.of_nat (length (opened limit)) ->
                               realloc_ok (capacity (S k) * 4) = true)
  \/ (scan fuel fd max_fd array narray idx = Returned None
      /\ exists k, capacity k <= Z.of_nat (length (opened limit))
                   /\ realloc_ok (capacity (S k) * 4) = false).
Proof.
  induction fuel as [|fuel IH]; intros fd array narray idx j Hlimit Hmax Hfd Hfuel Hidx Htake
    Hlen Hroom Hcap Hpast; [lia|].
  pose proof (opened_length fd ltac:(lia)) as Hcount.
  cbn [OpenFds.scan]. destruct (Z.ltb_spec fd max_fd) as [Hlt|Hge].
  - assert (to_int (fd + 1) = fd + 1) as Hfd1
      by (apply to_int_small; unfold INT_MAX in *; lia).
    assert (to_int (idx + 1) = idx + 1) as Hidx1
      by (apply to_int_small; unfold INT_MAX in *; lia).
    rewrite Hfd1, Hidx1.
    pose proof (opened_step fd ltac:(lia)) as Hstep.
    destruct (is_open fd) eqn:Hopen.
    + rewrite to_size_small by (unfold INT_MAX in *; lia).
      assert (forall array1 narray1 j1,
                take (Z.to_nat idx) array1 = opened fd ->
                Z.of_nat (length array1) = narray1 ->
                idx + 2 <= narray1 <= idx + 258 ->
                narray1 = capacity j1 ->
                (forall k, (k < j1)%nat -> realloc_ok (capacity (S k) * 4) = true) ->
                (exists array',
                    match store_int array1 idx fd with
                    | Some array'' => scan fuel (fd + 1) max_fd array'' narray1 (idx + 1)
                    | None => Fault
                    end = Returned (Some array')
                    /\ listed array' = opened limit
                    /\ forall k, capacity k <= Z.of_nat (length (opened limit)) ->
                                 realloc_ok (capacity (S k) * 4) = true)
                \/ (match store_int array1 idx fd with
                    | Some array'' => scan fuel (fd + 1) max_fd array'' narray1 (idx + 1)
                    | None => Fault
                    end = Returned None
                    /\ exists k, capacity k <= Z.of_nat (length (opened limit))
                                 /\ realloc_ok (capacity (S k) * 4) = false)) as Hstore.
      { intros array1 narray1 j1 Htake1 Hlen1 Hroom1 Hcap1 Hpast1. unfold store_int.
        rewrite decide_True by lia.
        apply (IH _ _ _ _ j1); try done; try lia.
        - rewrite Hstep, length_app. simpl. lia.
        - rewrite Hstep.
          replace (Z.to_nat (idx + 1)) with (S (Z.to_nat idx)) by lia.
          rewrite (take_S_r _ _ fd) by (apply list_lookup_insert_eq; lia).
          rewrite take_insert_ge by lia. by rewrite Htake1.
        - rewrite length_insert. lia. }
      destruct (Z.geb_spec (idx + 1) narray) as [Hfull|Hfree].
      * assert (narray = idx + 1) as Hn by lia.
        assert (capacity (S j) = idx + 1 + (if idx + 1 <? 256 then 32 else 256)) as Hnext
          by (cbn [capacity]; by rewrite <- Hcap, Hn).
        rewrite Hn. rewrite Hn in Hlen.
        set (add := if idx + 1 <? 256 then 32 else 256) in *.
        assert (add = 32 \/ add = 256) as Hadd by (unfold add; case_match; auto).
        rewrite (to_size_small (idx + 1 + add)) by (unfold INT_MAX in *; lia).
        unfold realloc. rewrite (to_size_small ((idx + 1 + add) * 4))
          by (unfold INT_MAX in *; lia).
        rewrite <- Hnext.
        destruct (realloc_ok (capacity (S j) * 4)) eqn:Hre.
        -- replace (capacity (S j) * 4 / 4) with (capacity (S j))
             by (symmetry; apply Z.div_mul; lia).
           apply (Hstore _ _ (S j)).
           ++ rewrite take_take, Nat.min_l by lia.
              rewrite take_app_le by lia. done.
           ++ rewrite length_take, length_app, length_map, length_seq. lia.
           ++ lia.
           ++ done.
           ++ intros k Hk. destruct (decide (k = j)) as [->|Hne]; [done|].
              apply Hpast. lia.
        -- right. split; [done|]. exists j. split; [|done].
           pose proof (opened_length_mono (fd + 1) limit ltac:(lia)) as Hmono.
           cbv beta in Hmono, Hstep, Hidx. rewrite Hstep, length_app in Hmono.
           simpl in Hmono. cbv beta. lia.
      * apply (Hstore _ _ j); [done | done | lia | done | done].
    + rewrite app_nil_r in Hstep. apply (IH _ _ _ _ j); try done; try lia.
      * by rewrite Hstep.
      * by rewrite Hstep.
  - assert (fd = limit) as -> by lia.
    unfold store_int. rewrite decide_True by lia. left. eexists. split; [done|].
    split.
    + rewrite insert_take_drop by lia. rewrite Htake.
      apply listed_prefix, opened_valid.
    + intros k Hk. apply Hpast.
      destruct (decide (k < j)%nat) as [|Hge']; [done|].
      pose proof (capacity_mono j k ltac:(lia)). lia.
Qed.

Lemma get_max_fds_cases :
  get_max_fds OPEN_MAX = 256 \/ OPEN_MAX = Some (get_max_fds OPEN_MAX).
Proof.
  unfold get_max_fds. destruct OPEN_MAX as [m|]; simpl; [|by left].
  destruct (Z.eqb_spec m (-1)); [by left | by right].
Qed.

(** X19: get_all_open_fds makes no store outside its array and comes to
    the end of its loop; every array it returns lists, before its
    terminating -1, exactly the descriptors below get_max_fds that fstat
    does not report as bad, in ascending order.  It returns NULL only
    when an allocation that it has asked for has failed: the calloc, or
    the realloc to the next capacity when the array was full, that is a
    realloc of 4 times [capacity (S k)] bytes where there are at least
    [capacity k] open descriptors; and when it returns an array, the
    calloc and every such realloc has succeeded. *)
Theorem get_all_open_fds_lists_the_open_descriptors :
  (forall open_max, OPEN_MAX = Some open_max -> is_int open_max) ->
  let result := get_all_open_fds OPEN_MAX calloc_ok realloc_ok uninitialised fstat
                  errno_after_fstat EBADF in
  let count := Z.of_nat (length (open_fds OPEN_MAX fstat errno_after_fstat EBADF)) in
  ((exists array,
      result = Returned (Some array)
      /\ listed array = open_fds OPEN_MAX fstat errno_after_fstat EBADF
      /\ calloc_ok = true
      /\ forall k, capacity k <= count -> realloc_ok (capacity (S k) * 4) = true)
   \/ (result = Returned None
       /\ (calloc_ok = false
           \/ exists k, capacity k <= count /\ realloc_ok (capacity (S k) * 4) = false))).
Proof.
  intros Hint. cbv zeta. unfold get_all_open_fds, calloc, open_fds.
  destruct calloc_ok; [|right; split; [done | by left]].
  set (max_fd := get_max_fds OPEN_MAX).
  assert (is_int max_fd) as Hmax.
  { destruct get_max_fds_cases as [H|H]; fold max_fd in H.
    - rewrite H. by unfold is_int, INT_MAX.
    - by apply Hint. }
  unfold is_int in Hmax.
  assert (opened (Z.max max_fd 0) = opened max_fd) as Hsame.
  { destruct (Z.le_gt_cases max_fd 0) as [Hneg|Hpos].
    - rewrite Z.max_r by lia. cbv beta. by rewrite !seqZ_nil by lia.
    - by rewrite Z.max_l by lia. }
  destruct (scan_spec (Z.max max_fd 0) max_fd (S (Z.to_nat max_fd)) 0
              (replicate (Z.to_nat 32) 0) 32 0 0%nat)
    as [(array & Hres & Hl & Hall)|(Hres & k & Hk & Hre)];
    try done; try lia.
  - unfold INT_MAX in *. lia.
  - left. exists array. rewrite Hsame in Hl, Hall. by split_and!.
  - right. split; [done|]. right. exists k. rewrite Hsame in Hk. by split.
Qed.

End ScanFacts.

Lemma get_all_open_fds_lists_the_open_descriptors_witness :
  let result := get_all_open_fds (Some 100) true (fun _ => true) (fun _ => 7)
                  sample_fstat (fun _ => 9) 9 in
  let count := Z.of_nat (length (open_fds (Some 100) sample_fstat (fun _ => 9) 9)) in
  (forall open_max, Some 100 = Some open_max -> is_int open_max)
  /\ ((exists array,
         result = Returned (Some array)
         /\ listed array = open_fds (Some 100) sample_fstat (fun _ => 9) 9
         /\ true = true
         /\ forall k, capacity k <= count ->
                      (fun _ : Z => true) (capacity (S k) * 4) = true)
      \/ (result = Returned None
          /\ (true = false
              \/ exists k, capacity k <= count
                           /\ (fun _ : Z => true) (capacity (S k) * 4) = false))).
Proof.
  cbv zeta.
  assert (forall open_max, Some 100 = Some open_max -> is_int open_max) as Hint
    by (intros ? [= <-]; by vm_compute).
  split; [exact Hint|].
  exact (get_all_open_fds_lists_the_open_descriptors (Some 100) true (fun _ => true)
           (fun _ => 7) sample_fstat (fun _ => 9) 9 Hint).
Defined.

End OpenFdsFacts.

(** ** gnupg_process_spawn *)

Module ProcessSpawnFacts.
Import MachInt Err Win32 Sys ProcessSpawn ErrFacts MachIntFacts SysFacts.
Local Open Scope sys_scope.

Lemma fresh_no_handle s : fresh s -> no_handle_from_next s.
Proof. intros [_ H] h Hh. by apply H. Qed.

Lemma opened_refl s : no_handle_from_next s -> opened [] s s.
Proof.
  intros Hs. split_and!; try done. intros h Hh [i Hi]. by rewrite Hs in Hi.
Qed.

Lemma opened_trans made1 made2 s s1 s2 :
  opened made1 s s1 -> opened made2 s1 s2 -> opened (made1 ++ made2) s s2.
Proof.
  intros (Hn1 & Hf1 & Hs1 & Hh1 & Hm1 & Hframe1 & Hnew1)
         (Hn2 & Hf2 & Hs2 & Hh2 & Hm2 & Hframe2 & Hnew2).
  split_and!; try congruence; try lia.
  - intros h Hh. rewrite Hframe2 by lia. by apply Hframe1.
  - intros h Hh Hsome. rewrite elem_of_app.
    destruct (decide (h < next s1)) as [Hlt|Hge].
    + rewrite Hframe2 in Hsome by done. destruct (Hnew1 h Hh Hsome). split; [by left | lia].
    + destruct (Hnew2 h ltac:(lia) Hsome). split; [by right | done].
Qed.

Lemma opened_no_handle made s s' : opened made s s' -> no_handle_from_next s'.
Proof.
  intros (Hn & _ & _ & _ & _ & _ & Hnew) h Hh.
  destruct (handles s' !! h) eqn:Hl; [|done].
  destruct (Hnew h ltac:(lia) ltac:(by eexists)). lia.
Qed.

Ltac run_block :=
  unfold create_inheritable_pipe, SetHandleInformation, w32_open_null, xfree, lift,
    Process.xfree, close_if_valid, bind, when, ask, emit, new_handle, CloseHandle, ret,
    bind, INVALID_HANDLE_VALUE;
  change (Z.land Spawn.INHERIT_READ Spawn.INHERIT_READ =? 0) with false;
  change (Z.land Spawn.INHERIT_READ Spawn.INHERIT_WRITE =? 0) with true;
  change (Z.land Spawn.INHERIT_WRITE Spawn.INHERIT_READ =? 0) with true;
  change (Z.land Spawn.INHERIT_WRITE Spawn.INHERIT_WRITE =? 0) with false.

(** Lookups in a table that the call has changed, key by key. *)
Ltac lookups :=
  repeat (progress rewrite ?lookup_delete, ?lookup_insert, ?lookup_alter);
  repeat case_decide; subst; try lia; try done.

(** The description of a state that a block has left, clause by clause. *)
Ltac block_clause Hs :=
  try match goal with
    | H : is_Some _ |- _ => destruct H as [? H]; revert H
    end;
  unfold valid, INVALID_HANDLE_VALUE; rewrite ?filter_cons, ?filter_nil;
  repeat case_decide; try done;
  rewrite ?elem_of_cons, ?elem_of_nil;
  repeat (progress rewrite ?lookup_delete, ?lookup_insert, ?lookup_alter);
  repeat case_decide; subst; try lia; try done;
  rewrite ?Hs by lia; try done; auto; try lia.

(** The clause on the handles that were closed on the way out. *)
Ltac gone_clause Hs :=
  unfold valid, INVALID_HANDLE_VALUE; rewrite ?filter_cons, ?filter_nil;
  repeat (progress rewrite ?lookup_delete, ?lookup_insert, ?lookup_alter);
  repeat case_decide; subst; simpl in *;
  repeat match goal with
    | H : context [_ ∈ _ :: _] |- _ => rewrite elem_of_cons in H
    | H : context [_ ∈ []] |- _ => rewrite elem_of_nil in H
    end;
  rewrite ?Hs by lia; try done; try lia; try (exfalso; intuition lia).

Ltac block_goal Hs :=
  repeat match goal with
    | |- _ /\ _ => split
    | |- forall _, _ => intros
    | |- _ = Minus_one => reflexivity
    end;
  try done; try lia;
  first [ solve [block_clause Hs]
        | solve [left; block_clause Hs]
        | solve [right; split; block_clause Hs]
        | solve [gone_clause Hs]
        | idtac ].

Section Blocks.

Variable w : os.
Variable F : process_flags.
Variable flags : Z.

Local Abbreviation pin := (stdin_pipe F flags).
Local Abbreviation nin := (stdin_null F flags).

Local Abbreviation pout := (stdout_pipe F flags).
Local Abbreviation nout := (stdout_null F flags).
Local Abbreviation perr := (stderr_pipe F flags).
Local Abbreviation nerr := (stderr_null F flags).

Lemma closed_refl s : closed [] s s.
Proof. by split_and!. Qed.

Lemma closed_trans gone1 gone2 s s1 s2 :
  closed gone1 s s1 -> closed gone2 s1 s2 -> closed (gone1 ++ gone2) s s2.
Proof.
  intros (Hn1 & Hf1 & Hs1 & Hh1 & Hm1 & Hl1) (Hn2 & Hf2 & Hs2 & Hh2 & Hm2 & Hl2).
  split_and!; try congruence. intros h. rewrite Hl2, Hl1.
  repeat case_decide; try done; rewrite elem_of_app in *; tauto.
Qed.

Lemma close_handle h s :
  exists s', CloseHandle h s = Some (tt, s') /\ closed [h] s s'.
Proof.
  eexists. split; [reflexivity|]. split_and!; try done. intros h'. simpl.
  rewrite lookup_delete. destruct (decide (h = h')) as [->|Hne].
  - rewrite decide_True; [done | by left].
  - rewrite decide_False; [done|]. rewrite elem_of_cons, elem_of_nil.
    intros [?|[]]. congruence.
Qed.

Lemma when_close b h s :
  exists s', when b (CloseHandle h) s = Some (tt, s')
             /\ closed (if b then [h] else []) s s'.
Proof.
  destruct b; simpl; [apply close_handle|].
  eexists. split; [reflexivity | apply closed_refl].
Qed.

Lemma close_if_valid_spec h s :
  exists s', close_if_valid h s = Some (tt, s') /\ closed (valid [h]) s s'.
Proof.
  unfold close_if_valid, valid. rewrite filter_cons, filter_nil.
  destruct (Z.eqb_spec h INVALID_HANDLE_VALUE) as [->|Hne]; case_decide; try done; simpl.
  - eexists. split; [reflexivity | apply closed_refl].
  - apply close_handle.
Qed.

Lemma valid_cons h hs : valid (h :: hs) = valid [h] ++ valid hs.
Proof. unfold valid. rewrite !filter_cons, filter_nil. by case_decide. Qed.

Lemma close_on_error_spec hd_in hd_out hd_err s :
  exists s', close_on_error F flags hd_in hd_out hd_err s = Some (tt, s')
             /\ closed (error_closed F flags hd_in hd_out hd_err) s s'.
Proof.
  unfold close_on_error, error_closed, bind.
  destruct (when_close (pin || nin) hd_in.1 s) as (s1 & -> & H1).
  destruct (when_close pin hd_in.2 s1) as (s2 & -> & H2).
  destruct (when_close pout hd_out.1 s2) as (s3 & -> & H3).
  destruct (when_close (pout || nout) hd_out.2 s3) as (s4 & -> & H4).
  destruct (when_close perr hd_err.1 s4) as (s5 & -> & H5).
  destruct (when_close (perr || nerr) hd_err.2 s5) as (s6 & -> & H6).
  exists s6. split; [done|].
  eauto 10 using closed_trans.
Qed.

Lemma opened_nil_lookup s s1 h :
  no_handle_from_next s -> opened [] s s1 -> handles s1 !! h = handles s !! h.
Proof.
  intros Hs (Hn & _ & _ & _ & _ & Hframe & Hnew).
  destruct (decide (h < next s)) as [Hlt|Hge]; [by apply Hframe|].
  rewrite (Hs h) by lia. destruct (handles s1 !! h) eqn:Hl; [|done].
  destruct (Hnew h ltac:(lia) ltac:(by eexists)) as [[]%elem_of_nil _].
Qed.

(** Freeing the process object after handles have been closed. *)
Lemma returned_early process gone s s1 s2 s3 :
  no_handle_from_next s ->
  opened [] s s1 ->
  closed gone s1 s2 ->
  xfree process s2 = Some (tt, s3) ->
  gave_up process gone s s3.
Proof.
  intros Hs Hop (Hn & Hf & Hst & Hh & Hm & Hl). unfold xfree, lift, Process.xfree. simpl.
  destruct (heap s2 !! process); simpl; [|done]. intros [= <-]. simpl.
  pose proof Hop as (? & ? & ? & ? & ? & ?).
  unfold gave_up. simpl. split_and!; try congruence.
  intros h. rewrite Hl. by rewrite (opened_nil_lookup s s1 h Hs Hop).
Qed.

(** create_inheritable_pipe: two new handles, the read end inheritable
    if INHERIT_READ is asked for and the write end if INHERIT_WRITE is;
    or nothing that stays open. *)
Lemma create_inheritable_pipe_spec pipe_flags s res s1 :
  0 < next s -> no_handle_from_next s ->
  create_inheritable_pipe w pipe_flags s = Some (res, s1) ->
  match res with
  | Some (r, wr) =>
      opened [r; wr] s s1
      /\ next s <= r < next s1 /\ next s <= wr < next s1 /\ r <> wr
      /\ handles s1 !! r
         = Some (mk_info Spawn.Pipe_read (Spawn.has_flag pipe_flags Spawn.INHERIT_READ))
      /\ handles s1 !! wr
         = Some (mk_info Spawn.Pipe_write (Spawn.has_flag pipe_flags Spawn.INHERIT_WRITE))
  | None => opened [] s s1
  end.
Proof.
  intros Hpos Hs. unfold opened, Spawn.has_flag.
  unfold create_inheritable_pipe, SetHandleInformation, bind, when, ask, emit, new_handle,
    CloseHandle, ret, bind.
  destruct (Z.land pipe_flags Spawn.INHERIT_READ =? 0),
           (Z.land pipe_flags Spawn.INHERIT_WRITE =? 0); simpl.
  all: repeat first [ answers | fresh_test ].
  all: intros ?; simplify_eq/=.
  all: block_goal Hs.
Qed.

(** w32_open_null: a new handle of the null device that is not
    inheritable, or INVALID_HANDLE_VALUE. *)
Lemma w32_open_null_spec for_write s h s1 :
  0 < next s -> no_handle_from_next s ->
  w32_open_null w for_write s = Some (h, s1) ->
  opened [h] s s1
  /\ (h = INVALID_HANDLE_VALUE
      \/ (next s <= h < next s1
          /\ handles s1 !! h = Some (mk_info (Spawn.Null_device for_write) false))).
Proof.
  intros Hpos Hs. unfold opened.
  unfold w32_open_null, bind, when, ask, emit, new_handle, ret, bind, INVALID_HANDLE_VALUE.
  repeat first [ answers | fresh_test ].
  all: intros ?; simplify_eq/=.
  all: block_goal Hs.
Qed.

Lemma opened_weaken made made' s s1 :
  opened made s s1 -> (forall h, h ∈ made -> h ∈ made') -> opened made' s s1.
Proof.
  intros (? & ? & ? & ? & ? & ? & Hnew) Hsub. split_and!; try done.
  intros h Hh Hsome. destruct (Hnew h Hh Hsome). split; [by apply Hsub | done].
Qed.

(** The statements for hd_in. *)
Lemma setup_hd_in_spec process s res s1 :
  0 < next s -> no_handle_from_next s ->
  setup_hd_in w F flags process s = Some (res, s1) ->
  match res with
  | inr hd_in =>
      opened (made pin nin hd_in.1 hd_in.2) s s1
      /\ ends pin nin Spawn.Pipe_read Spawn.Pipe_write false (GetStdHandle w Spawn.Stdin)
           hd_in.1 hd_in.2 (next s) (next s1) s1
  | inl r => r = Minus_one /\ gave_up process [] s s1
  end.
Proof.
  intros Hpos Hs. unfold setup_hd_in, made, ends.
  destruct pin.
  - unfold bind at 1.
    destruct (create_inheritable_pipe w Spawn.INHERIT_READ s) as [[p s0]|] eqn:Hpipe; [|done].
    apply create_inheritable_pipe_spec in Hpipe; [|done..].
    destruct p as [[r wr]|].
    + intros [= <- <-]. simpl. destruct Hpipe as (? & ? & ? & ? & ? & ?). done.
    + unfold bind. destruct (xfree process s0) as [[[] s2]|] eqn:Hfree; [|done].
      intros [= <- <-]. split; [done|].
      by apply (returned_early process [] s s0 s0 s2 Hs Hpipe (closed_refl s0)).
  - destruct nin.
    + unfold bind at 1.
      destruct (w32_open_null w false s) as [[h s0]|] eqn:Hnull; [|done].
      apply w32_open_null_spec in Hnull as [Hop Hh]; [|done..].
      intros [= <- <-]. done.
    + intros [= <- <-]. simpl. split; [by apply opened_refl | done].
Qed.

(** The statements for hd_out. *)
Lemma setup_hd_out_spec process hd_in s res s1 :
  0 < next s -> no_handle_from_next s ->
  setup_hd_out w F flags process hd_in s = Some (res, s1) ->
  match res with
  | inr hd_out =>
      opened (made pout nout hd_out.2 hd_out.1) s s1
      /\ ends pout nout Spawn.Pipe_write Spawn.Pipe_read true (GetStdHandle w Spawn.Stdout)
           hd_out.2 hd_out.1 (next s) (next s1) s1
  | inl r => r = Minus_one /\ gave_up process (valid [hd_in.1; hd_in.2]) s s1
  end.
Proof.
  intros Hpos Hs. unfold setup_hd_out, made, ends.
  destruct pout.
  - unfold bind at 1.
    destruct (create_inheritable_pipe w Spawn.INHERIT_WRITE s) as [[p s0]|] eqn:Hpipe;
      [|done].
    apply create_inheritable_pipe_spec in Hpipe; [|done..].
    destruct p as [[r wr]|].
    + intros [= <- <-]. simpl. destruct Hpipe as (Hop & ? & ? & ? & ? & ?).
      split; [|done]. apply (opened_weaken _ _ _ _ Hop).
      intros h. rewrite !elem_of_cons. tauto.
    + unfold bind.
      destruct (close_if_valid_spec hd_in.1 s0) as (s2 & -> & H2).
      destruct (close_if_valid_spec hd_in.2 s2) as (s3 & -> & H3).
      destruct (xfree process s3) as [[[] s4]|] eqn:Hfree; [|done].
      intros [= <- <-]. split; [done|].
      apply (returned_early process _ s s0 s3 s4 Hs Hpipe); [|done].
      rewrite valid_cons. apply (closed_trans _ _ _ _ _ H2 H3).
  - destruct nout.
    + unfold bind at 1.
      destruct (w32_open_null w true s) as [[h s0]|] eqn:Hnull; [|done].
      apply w32_open_null_spec in Hnull as [Hop Hh]; [|done..].
      intros [= <- <-]. done.
    + intros [= <- <-]. simpl. split; [by apply opened_refl | done].
Qed.

(** The statements for hd_err. *)
Lemma setup_hd_err_spec process hd_in hd_out s res s1 :
  0 < next s -> no_handle_from_next s ->
  setup_hd_err w F flags process hd_in hd_out s = Some (res, s1) ->
  match res with
  | inr hd_err =>
      opened (made perr nerr hd_err.2 hd_err.1) s s1
      /\ ends perr nerr Spawn.Pipe_write Spawn.Pipe_read true (GetStdHandle w Spawn.Stderr)
           hd_err.2 hd_err.1 (next s) (next s1) s1
  | inl r =>
      r = Minus_one
      /\ gave_up process (valid [hd_in.1; hd_in.2; hd_out.1; hd_out.2]) s s1
  end.
Proof.
  intros Hpos Hs. unfold setup_hd_err, made, ends.
  destruct perr.
  - unfold bind at 1.
    destruct (create_inheritable_pipe w Spawn.INHERIT_WRITE s) as [[p s0]|] eqn:Hpipe;
      [|done].
    apply create_inheritable_pipe_spec in Hpipe; [|done..].
    destruct p as [[r wr]|].
    + intros [= <- <-]. simpl. destruct Hpipe as (Hop & ? & ? & ? & ? & ?).
      split; [|done]. apply (opened_weaken _ _ _ _ Hop).
      intros h. rewrite !elem_of_cons. tauto.
    + unfold bind.
      destruct (close_if_valid_spec hd_in.1 s0) as (s2 & -> & H2).
      destruct (close_if_valid_spec hd_in.2 s2) as (s3 & -> & H3).
      destruct (close_if_valid_spec hd_out.1 s3) as (s4 & -> & H4).
      destruct (close_if_valid_spec hd_out.2 s4) as (s5 & -> & H5).
      destruct (xfree process s5) as [[[] s6]|] eqn:Hfree; [|done].
      intros [= <- <-]. split; [done|].
      apply (returned_early process _ s s0 s5 s6 Hs Hpipe); [|done].
      rewrite (valid_cons hd_in.1), (valid_cons hd_in.2), (valid_cons hd_out.1).
      apply (closed_trans _ _ _ _ _ H2). apply (closed_trans _ _ _ _ _ H3).
      apply (closed_trans _ _ _ _ _ H4 H5).
  - destruct nerr.
    + unfold bind at 1.
      destruct (w32_open_null w true s) as [[h s0]|] eqn:Hnull; [|done].
      apply w32_open_null_spec in Hnull as [Hop Hh]; [|done..].
      intros [= <- <-]. done.
    + intros [= <- <-]. simpl. split; [by apply opened_refl | done].
Qed.

Lemma bind_step {A B} (m : M A) (k : A -> M B) s a s1 :
  m s = Some (a, s1) -> bind m k s = k a s1.
Proof. intros H. unfold bind. by rewrite H. Qed.

Lemma emit_spec e s : exists s', emit e s = Some (tt, s') /\ closed [] s s'.
Proof. eexists. split; [reflexivity | by split_and!]. Qed.

Lemma when_emit_spec b e s : exists s', when b (emit e) s = Some (tt, s') /\ closed [] s s'.
Proof. destruct b; [apply emit_spec|]. eexists. split; [reflexivity | apply closed_refl]. Qed.

Lemma ask_spec {A} (answer : nat -> A) s :
  exists s', ask answer s = Some (answer (clock s), s') /\ closed [] s s'.
Proof. eexists. split; [reflexivity | by split_and!]. Qed.

Lemma convert_both_spec s :
  exists b s', convert_both w s = Some (b, s') /\ closed [] s s'.
Proof.
  unfold convert_both, bind, ask, ret. simpl.
  destruct (utf8_to_wchar_ok w (clock s)); simpl; eexists _, _;
    (split; [reflexivity | by split_and!]).
Qed.

Lemma lift_pre_syscall s :
  exists s', lift (Process.pre_syscall (process_os w)) s = Some (tt, s') /\ closed [] s s'.
Proof.
  unfold lift, Process.pre_syscall.
  destruct (Process.pre_syscall_func (process_os w)); simpl; eexists;
    (split; [reflexivity | by split_and!]).
Qed.

Lemma lift_post_syscall s :
  exists s', lift (Process.post_syscall (process_os w)) s = Some (tt, s') /\ closed [] s s'.
Proof.
  unfold lift, Process.post_syscall.
  destruct (Process.post_syscall_func (process_os w)); simpl; eexists;
    (split; [reflexivity | by split_and!]).
Qed.

Lemma closed_nil_trans gone s s1 s2 :
  closed [] s s1 -> closed gone s1 s2 -> closed gone s s2.
Proof. intros H1 H2. apply (closed_trans [] gone s s1 s2 H1 H2). Qed.

Lemma closed_trans_nil gone s s1 s2 :
  closed gone s s1 -> closed [] s1 s2 -> closed gone s s2.
Proof.
  intros H1 H2. pose proof (closed_trans gone [] s s1 s2 H1 H2) as H.
  by rewrite app_nil_r in H.
Qed.

(** The statements for the attribute list. *)
Lemma prepare_attribute_list_spec process hd_in hd_out hd_err sca s res s1 :
  no_handle_from_next s ->
  prepare_attribute_list w F flags process hd_in hd_out hd_err sca s = Some (res, s1) ->
  match res with
  | inr hds => closed [] s s1
  | inl r =>
      r = Code (gpg_err_code_from_syserror (errno w))
      /\ gave_up process (error_closed F flags hd_in hd_out hd_err) s s1
  end.
Proof.
  intros Hs. unfold prepare_attribute_list.
  destruct (negb _ || _); [|intros [= <- <-]; apply closed_refl].
  destruct (handle_list sca) as [hd too_many]. unfold bind.
  destruct (when_emit_spec too_many (Ev_log_error "Too much handles") s) as (s2 & -> & H2).
  destruct (ask_spec (xtrymalloc_attribute_list_ok w) s2) as (s3 & -> & H3).
  pose proof (closed_nil_trans _ _ _ _ H2 H3) as H23.
  destruct (xtrymalloc_attribute_list_ok w (clock s2)).
  - by intros [= <- <-].
  - destruct (close_on_error_spec hd_in hd_out hd_err s3) as (s4 & -> & H4).
    destruct (xfree process s4) as [[[] s5]|] eqn:Hfree; [|done].
    intros [= <- <-]. split; [done|].
    apply (returned_early process _ s s s4 s5 Hs (opened_refl s Hs)); [|done].
    apply (closed_nil_trans _ _ _ _ H23 H4).
Qed.

(** CreateProcessW: a process handle and a thread handle, both new and
    not inheritable, or nothing. *)
Lemma CreateProcessW_spec pgmname cmdline inherit cr_flags std hds s pi s1 :
  CreateProcessW w pgmname cmdline inherit cr_flags std hds s = Some (pi, s1) ->
  match pi with
  | Some (hProcess, hThread) =>
      hProcess = next s /\ hThread = next s + 1 /\ next s1 = next s + 2
      /\ fds s1 = fds s /\ streams s1 = streams s /\ heap s1 = heap s /\ mem s1 = mem s
      /\ (forall h, handles s1 !! h
                    = if decide (h = hProcess)
                      then Some (mk_info Spawn.Process_handle false)
                      else if decide (h = hThread)
                           then Some (mk_info Spawn.Thread_handle false)
                           else handles s !! h)
  | None => closed [] s s1
  end.
Proof.
  unfold CreateProcessW, bind, ask, emit, new_handle, ret. simpl.
  destruct (CreateProcessW_ok w (clock s)); simpl; intros [= <- <-]; simpl.
  - split_and!; try done; try lia. intros h. rewrite !lookup_insert.
    repeat case_decide; subst; try done; lia.
  - by split_and!.
Qed.

(** The statements after CreateProcessW has succeeded, when the caller
    takes the process object. *)
Lemma resume_and_record_spec process hProcess hThread hd_in hd_out hd_err sca r pr s res s1 :
  heap s !! process = Some pr ->
  resume_and_record w F flags process hProcess hThread hd_in hd_out hd_err sca (Some r) s
  = Some (res, s1) ->
  res = Code GPG_ERR_NO_ERROR
  /\ next s1 = next s /\ fds s1 = fds s /\ streams s1 = streams s
  /\ heap s1 = <[process:=Process.mk_process (Process.pgmname pr) false (Process.flags pr)
                           hProcess hd_in.2 hd_out.1 hd_err.1 (-1)]> (heap s)
  /\ mem s1 = <[r:=process]> (mem s)
  /\ (forall h, handles s1 !! h
                = if decide (h ∈ success_closed F flags hd_in hd_out hd_err hThread)
                  then None else handles s !! h).
Proof.
  intros Hpr. unfold resume_and_record.
  destruct (when_close (pin || nin) hd_in.1 s) as (s2 & E2 & H2).
  rewrite (bind_step _ _ _ _ _ E2).
  destruct (when_close (pout || nout) hd_out.2 s2) as (s3 & E3 & H3).
  rewrite (bind_step _ _ _ _ _ E3).
  destruct (when_close (perr || nerr) hd_err.2 s3) as (s4 & E4 & H4).
  rewrite (bind_step _ _ _ _ _ E4).
  destruct (emit_spec (Ev_log_debug "CreateProcess ready") s4) as (s5 & E5 & H5).
  rewrite (bind_step _ _ _ _ _ E5).
  assert (exists s6,
            (if allow_foreground_window sca then
               emit Ev_AllowSetForegroundWindow ;;
               let* ok := ask (AllowSetForegroundWindow_ok w) in
               when (negb ok) (emit (Ev_log_info "AllowSetForegroundWindow() failed"))
             else ret tt) s5 = Some (tt, s6) /\ closed [] s5 s6) as (s6 & E6 & H6).
  { destruct (allow_foreground_window sca).
    - destruct (emit_spec Ev_AllowSetForegroundWindow s5) as (sa & Ea & Ha).
      rewrite (bind_step _ _ _ _ _ Ea).
      destruct (ask_spec (AllowSetForegroundWindow_ok w) sa) as (sb & Eb & Hb).
      rewrite (bind_step _ _ _ _ _ Eb).
      destruct (when_emit_spec (negb (AllowSetForegroundWindow_ok w (clock sa)))
                  (Ev_log_info "AllowSetForegroundWindow() failed") sb) as (sc & Ec & Hc).
      exists sc. split; [done|]. eauto using closed_nil_trans.
    - eexists. split; [reflexivity | apply closed_refl]. }
  rewrite (bind_step _ _ _ _ _ E6).
  destruct (lift_pre_syscall s6) as (s7 & E7 & H7).
  rewrite (bind_step _ _ _ _ _ E7).
  destruct (emit_spec (Ev_ResumeThread hThread) s7) as (s8 & E8 & H8).
  rewrite (bind_step _ _ _ _ _ E8).
  destruct (close_handle hThread s8) as (s9 & E9 & H9).
  rewrite (bind_step _ _ _ _ _ E9).
  destruct (lift_post_syscall s9) as (s10 & E10 & H10).
  rewrite (bind_step _ _ _ _ _ E10).
  assert (closed (success_closed F flags hd_in hd_out hd_err hThread) s s10)
    as (Hn & Hf & Hst & Hh & Hm & Hl).
  { unfold success_closed.
    apply (closed_trans _ _ _ _ _ H2). apply (closed_trans _ _ _ _ _ H3).
    apply (closed_trans _ _ _ _ _ H4). apply (closed_nil_trans _ _ _ _ H5).
    apply (closed_nil_trans _ _ _ _ H6). apply (closed_nil_trans _ _ _ _ H7).
    apply (closed_nil_trans _ _ _ _ H8). apply (closed_trans_nil _ _ _ _ H9 H10). }
  unfold bind, lift, Process.deref, Process.assign, poke, ret. simpl.
  rewrite Hh, Hpr. simpl. rewrite Hpr. simpl.
  intros [= <- <-]. simpl. split_and!; rewrite ?Hm; done.
Qed.

Lemma ends_frame pipe null ck kk fw std child caller lo hi made' s1 s2 :
  ends pipe null ck kk fw std child caller lo hi s1 ->
  opened made' s1 s2 -> hi <= next s1 ->
  ends pipe null ck kk fw std child caller lo hi s2.
Proof.
  intros He (_ & _ & _ & _ & _ & Hframe & _) Hhi. unfold ends in *.
  destruct pipe.
  - destruct He as (? & ? & ? & ? & ?). rewrite !Hframe by lia. done.
  - destruct He as [? He]. split; [done|]. destruct null; [|done].
    destruct He as [?|[? ?]]; [by left|]. right. rewrite Hframe by lia. done.
Qed.

(** After an early return nothing that the call has opened is open. *)
Lemma error_exit made' gone process s s_x s' :
  0 < next s ->
  opened made' s s_x -> gave_up process gone s_x s' ->
  (forall h, h ∈ made' -> 0 < h -> h ∈ gone) ->
  fds s' = fds s /\ streams s' = streams s /\ mem s' = mem s
  /\ heap s' = delete process (heap s)
  /\ (forall h i, handles s' !! h = Some i -> handles s !! h = Some i).
Proof.
  intros Hpos (Hn & Hf & Hst & Hh & Hm & Hframe & Hnew) (Hf' & Hst' & Hm' & Hh' & Hl) Hsub.
  split_and!; try congruence.
  intros h i. rewrite Hl. case_decide; [done|]. intros Hsome.
  destruct (decide (h < next s)) as [Hlt|Hge]; [by rewrite <- Hframe|].
  destruct (Hnew h ltac:(lia) ltac:(by eexists)) as [Hin _].
  exfalso. apply H. apply Hsub; [done | lia].
Qed.

Lemma in_valid h hs : h ∈ valid hs <-> h <> -1 /\ h ∈ hs.
Proof. unfold valid, INVALID_HANDLE_VALUE. by rewrite list_elem_of_filter. Qed.

Lemma from_syserror_not_no_error e :
  Code (gpg_err_code_from_syserror e) <> Code GPG_ERR_NO_ERROR.
Proof.
  intros [= H]. pose proof (from_syserror_is_error e) as He. by rewrite H in He.
Qed.

(** The facts about a successful call, from what its blocks leave. *)
Lemma success_facts hd_in hd_out hd_err hProcess hThread n1 n2 s s3 s7 s' :
  0 < next s -> no_handle_from_next s ->
  opened (made pin nin hd_in.1 hd_in.2 ++ made pout nout hd_out.2 hd_out.1
          ++ made perr nerr hd_err.2 hd_err.1) s s3 ->
  next s <= n1 -> n1 <= n2 -> n2 <= next s3 ->
  ends pin nin Spawn.Pipe_read Spawn.Pipe_write false (GetStdHandle w Spawn.Stdin)
    hd_in.1 hd_in.2 (next s) n1 s3 ->
  ends pout nout Spawn.Pipe_write Spawn.Pipe_read true (GetStdHandle w Spawn.Stdout)
    hd_out.2 hd_out.1 n1 n2 s3 ->
  ends perr nerr Spawn.Pipe_write Spawn.Pipe_read true (GetStdHandle w Spawn.Stderr)
    hd_err.2 hd_err.1 n2 (next s3) s3 ->
  hProcess = next s3 -> hThread = next s3 + 1 ->
  (forall h, handles s7 !! h
             = if decide (h = hProcess) then Some (mk_info Spawn.Process_handle false)
               else if decide (h = hThread) then Some (mk_info Spawn.Thread_handle false)
                    else handles s3 !! h) ->
  (forall h, handles s' !! h
             = if decide (h ∈ success_closed F flags hd_in hd_out hd_err hThread)
               then None else handles s7 !! h) ->
  handles s !! hProcess = None
  /\ handles s' !! hProcess = Some (mk_info Spawn.Process_handle false)
  /\ caller_end pin Spawn.Pipe_write hd_in.2 s s'
  /\ caller_end pout Spawn.Pipe_read hd_out.1 s s'
  /\ caller_end perr Spawn.Pipe_read hd_err.1 s s'
  /\ (handles s !! INVALID_HANDLE_VALUE = None ->
      forall h, h ∉ [hProcess; hd_in.2; hd_out.1; hd_err.1] ->
                handles s' !! h = handles s !! h).
Proof.
  intros Hpos Hs (Hn & _ & _ & _ & _ & Hframe & Hnew) Hn1 Hn2 Hn3 E1 E2 E3 -> -> Hcp Hfin.
  destruct hd_in as [in0 in1], hd_out as [out0 out1], hd_err as [err0 err1].
  unfold ends, caller_end, success_closed, made, INVALID_HANDLE_VALUE in *. simpl in *.
  destruct pin; [|destruct nin]; (destruct pout; [|destruct nout]);
    (destruct perr; [|destruct nerr]); simpl in *.
  all: repeat match goal with
         | H : _ /\ _ |- _ => destruct H
         | H : _ \/ _ |- _ => destruct H
         end; subst.
  all: split; [apply Hs; lia|].
  all: split;
    [rewrite Hfin, decide_False by (rewrite ?elem_of_cons, ?elem_of_nil; lia);
     rewrite Hcp; by rewrite decide_True|].
  all: repeat match goal with
         | |- (_ = None /\ _ = Some _) /\ _ =>
             split;
             [split;
              [apply Hs; lia
              |rewrite Hfin, decide_False by (rewrite ?elem_of_cons, ?elem_of_nil; lia);
               rewrite Hcp, !decide_False by lia; done]|]
         | |- -1 = -1 /\ _ => split; [done|]
         end.
  all: intros Hinv h Hh; rewrite ?not_elem_of_cons in Hh;
    rewrite Hfin; case_decide as Hc.
  all: try (rewrite ?elem_of_cons, ?elem_of_nil in Hc;
            repeat (destruct Hc as [Hc|Hc]; [subst|]); try (by destruct Hc); subst;
            symmetry; first [exact Hinv | apply Hs; lia]).
  all: rewrite Hcp; repeat case_decide; subst;
    try (exfalso; apply Hc; rewrite ?elem_of_cons; tauto);
    try (exfalso; tauto).
  all: destruct (decide (h < next s)) as [Hlt|Hge]; [by apply Hframe|].
  all: rewrite (Hs h) by lia; destruct (handles s3 !! h) eqn:Hl; [exfalso|done].
  all: destruct (Hnew h ltac:(lia) ltac:(by eexists)) as [Hin _].
  all: repeat rewrite elem_of_cons in Hin; repeat rewrite elem_of_cons in Hc;
    rewrite ?elem_of_nil in Hin, Hc; intuition lia.
Qed.

Lemma made_in_valid pipe null child caller others h :
  h ∈ made pipe null child caller -> 0 < h -> h ∈ valid (child :: caller :: others).
Proof.
  unfold made. intros Hin Hpos. rewrite in_valid. split; [lia|].
  destruct pipe; [|destruct null].
  - rewrite !elem_of_cons, elem_of_nil in Hin. rewrite !elem_of_cons. tauto.
  - rewrite !elem_of_cons, elem_of_nil in Hin. rewrite !elem_of_cons. tauto.
  - by apply elem_of_nil in Hin.
Qed.

Lemma made_out_valid pipe null child caller a b h :
  h ∈ made pipe null child caller -> 0 < h -> h ∈ valid [a; b; caller; child].
Proof.
  unfold made. intros Hin Hpos. rewrite in_valid. split; [lia|].
  destruct pipe; [|destruct null].
  - rewrite !elem_of_cons, elem_of_nil in Hin. rewrite !elem_of_cons. tauto.
  - rewrite !elem_of_cons, elem_of_nil in Hin. rewrite !elem_of_cons. tauto.
  - by apply elem_of_nil in Hin.
Qed.

Lemma made_error_closed hd_in hd_out hd_err h :
  h ∈ made pin nin hd_in.1 hd_in.2 ++ made pout nout hd_out.2 hd_out.1
      ++ made perr nerr hd_err.2 hd_err.1 ->
  h ∈ error_closed F flags hd_in hd_out hd_err.
Proof.
  unfold made, error_closed.
  destruct pin; [|destruct nin]; (destruct pout; [|destruct nout]);
    (destruct perr; [|destruct nerr]); simpl;
    repeat rewrite elem_of_cons; rewrite ?elem_of_nil; tauto.
Qed.

(** gnupg_process_spawn for a process that is not detached: either it
    gives up, and then it has freed the object and closed whatever it
    had opened; or CreateProcessW succeeds in a state [s7] in which the
    handles of the three standard streams, the process handle and the
    thread handle are what the call has opened, and the call goes on
    from there. *)
Lemma spawn_attached_runs process pgmname cmdline spawn_cb arg r_process pr s res s' :
  0 < next s -> no_handle_from_next s ->
  heap s !! process = Some pr ->
  spawn_attached w F flags process pgmname cmdline spawn_cb arg r_process s
  = Some (res, s') ->
  (res <> Code GPG_ERR_NO_ERROR
   /\ fds s' = fds s /\ streams s' = streams s
   /\ mem s' = mem s /\ heap s' = delete process (heap s)
   /\ (forall h i, handles s' !! h = Some i -> handles s !! h = Some i))
  \/ (exists hd_in hd_out hd_err sca n1 n2 s3 s7,
        opened (made pin nin hd_in.1 hd_in.2 ++ made pout nout hd_out.2 hd_out.1
                ++ made perr nerr hd_err.2 hd_err.1) s s3
        /\ next s <= n1 /\ n1 <= n2 /\ n2 <= next s3
        /\ ends pin nin Spawn.Pipe_read Spawn.Pipe_write false (GetStdHandle w Spawn.Stdin)
             hd_in.1 hd_in.2 (next s) n1 s3
        /\ ends pout nout Spawn.Pipe_write Spawn.Pipe_read true
             (GetStdHandle w Spawn.Stdout) hd_out.2 hd_out.1 n1 n2 s3
        /\ ends perr nerr Spawn.Pipe_write Spawn.Pipe_read true
             (GetStdHandle w Spawn.Stderr) hd_err.2 hd_err.1 n2 (next s3) s3
        /\ fds s7 = fds s /\ streams s7 = streams s /\ heap s7 = heap s /\ mem s7 = mem s
        /\ (forall h, handles s7 !! h
                      = if decide (h = next s3)
                        then Some (mk_info Spawn.Process_handle false)
                        else if decide (h = next s3 + 1)
                             then Some (mk_info Spawn.Thread_handle false)
                             else handles s3 !! h)
        /\ resume_and_record w F flags process (next s3) (next s3 + 1) hd_in hd_out hd_err
             sca r_process s7 = Some (res, s')).
Proof.
  intros Hpos Hs Hpr. unfold spawn_attached.
  (* hd_in *)
  unfold bind at 1.
  destruct (setup_hd_in w F flags process s) as [[in_res s1]|] eqn:Hin; [|done].
  apply setup_hd_in_spec in Hin; [|done..].
  destruct in_res as [r1|hd_in].
  { intros [= <- <-]. destruct Hin as [-> Hg].
    destruct (error_exit [] [] process s s s1 Hpos (opened_refl s Hs) Hg)
      as (? & ? & ? & ? & ?); [by intros ? ?%elem_of_nil|].
    left. by split_and!. }
  destruct Hin as [Hop1 He1].
  pose proof (opened_no_handle _ _ _ Hop1) as Hs1.
  assert (0 < next s1) as Hpos1 by (destruct Hop1; lia).
  (* hd_out *)
  unfold bind at 1.
  destruct (setup_hd_out w F flags process hd_in s1) as [[out_res s2]|] eqn:Hout; [|done].
  apply setup_hd_out_spec in Hout; [|done..].
  destruct out_res as [r2|hd_out].
  { intros [= <- <-]. destruct Hout as [-> Hg].
    destruct (error_exit _ _ process s s1 s2 Hpos Hop1 Hg) as (? & ? & ? & ? & ?);
      [intros h; apply made_in_valid|].
    left. by split_and!. }
  destruct Hout as [Hop2 He2].
  pose proof (opened_trans _ _ _ _ _ Hop1 Hop2) as Hop12.
  pose proof (opened_no_handle _ _ _ Hop2) as Hs2.
  assert (next s1 <= next s2) as Hle2 by (by destruct Hop2).
  (* hd_err *)
  unfold bind at 1.
  destruct (setup_hd_err w F flags process hd_in hd_out s2) as [[err_res s3]|] eqn:Herr;
    [|done].
  apply setup_hd_err_spec in Herr; [|lia|done].
  destruct err_res as [r3|hd_err].
  { intros [= <- <-]. destruct Herr as [-> Hg].
    destruct (error_exit _ _ process s s2 s3 Hpos Hop12 Hg) as (? & ? & ? & ? & ?).
    { intros h [Hh|Hh]%elem_of_app Hh0.
      - apply (made_in_valid _ _ _ _ [hd_out.1; hd_out.2]) in Hh; done.
      - apply (made_out_valid _ _ _ _ hd_in.1 hd_in.2) in Hh; done. }
    left. by split_and!. }
  destruct Herr as [Hop3 He3].
  pose proof (opened_trans _ _ _ _ _ Hop12 Hop3) as Hop123.
  rewrite <- app_assoc in Hop123.
  pose proof (opened_no_handle _ _ _ Hop3) as Hs3.
  assert (next s2 <= next s3) as Hle3 by (by destruct Hop3).
  pose proof (ends_frame _ _ _ _ _ _ _ _ _ _ _ _ _
                (ends_frame _ _ _ _ _ _ _ _ _ _ _ _ _ He1 Hop2 ltac:(lia)) Hop3 ltac:(lia))
    as He1'.
  pose proof (ends_frame _ _ _ _ _ _ _ _ _ _ _ _ _ He2 Hop3 ltac:(lia)) as He2'.
  (* the attribute list *)
  set (sca := call_spawn_cb spawn_cb _). cbv zeta.
  unfold bind at 1.
  destruct (prepare_attribute_list w F flags process hd_in hd_out hd_err sca s3)
    as [[attr s4]|] eqn:Hattr; [|done].
  apply prepare_attribute_list_spec in Hattr; [|done].
  destruct attr as [r4|hds].
  { intros [= <- <-]. destruct Hattr as [-> Hg].
    destruct (error_exit _ _ process s s3 s4 Hpos Hop123 Hg) as (? & ? & ? & ? & ?);
      [intros h Hh _; by apply made_error_closed|].
    left. split_and!; try done. apply from_syserror_not_no_error. }
  (* CreateProcessW *)
  destruct (emit_spec (Ev_log_debug "CreateProcess") s4) as (s5 & E5 & H5).
  rewrite (bind_step _ _ _ _ _ E5).
  destruct (convert_both_spec s5) as (converted & s6 & E6 & H6).
  rewrite (bind_step _ _ _ _ _ E6).
  pose proof (closed_nil_trans _ _ _ _ Hattr (closed_nil_trans _ _ _ _ H5 H6)) as H36.
  unfold bind at 1.
  destruct ((if converted then CreateProcessW w _ _ _ _ _ _ else ret None) s6)
    as [[pi s7]|] eqn:Hcp; [|done].
  assert (match pi with
          | Some (hProcess, hThread) =>
              hProcess = next s6 /\ hThread = next s6 + 1 /\ next s7 = next s6 + 2
              /\ fds s7 = fds s6 /\ streams s7 = streams s6 /\ heap s7 = heap s6
              /\ mem s7 = mem s6
              /\ (forall h, handles s7 !! h
                            = if decide (h = hProcess)
                              then Some (mk_info Spawn.Process_handle false)
                              else if decide (h = hThread)
                                   then Some (mk_info Spawn.Thread_handle false)
                                   else handles s6 !! h)
          | None => closed [] s6 s7
          end) as Hpi.
  { destruct converted; [by apply CreateProcessW_spec in Hcp|].
    injection Hcp as <- <-. apply closed_refl. }
  clear Hcp. destruct pi as [[hProcess hThread]|].
  - (* success *)
    destruct Hpi as (-> & -> & Hn7 & Hf7 & Hst7 & Hh7 & Hm7 & Hl7).
    destruct H36 as (Hn6 & Hf6 & Hst6 & Hh6 & Hm6 & Hl6).
    pose proof Hop123 as (_ & Hf3 & Hst3 & Hh3 & Hm3 & _).
    intros Hrun. right.
    exists hd_in, hd_out, hd_err, sca, (next s1), (next s2), s3, s7.
    rewrite Hn6 in Hrun, Hl7.
    split_and!; try done; try congruence; try lia.
    + destruct Hop1; lia.
    + intros h. rewrite Hl7. repeat case_decide; try done.
  - (* CreateProcessW has failed *)
    destruct (emit_spec (Ev_log_error (if converted then "CreateProcess failed"
                                       else "CreateProcess failed (utf8_to_wchar)")) s7)
      as (s8 & E8 & H8).
    rewrite (bind_step _ _ _ _ _ E8).
    destruct (close_on_error_spec hd_in hd_out hd_err s8) as (s9 & E9 & H9).
    rewrite (bind_step _ _ _ _ _ E9).
    unfold bind. destruct (xfree process s9) as [[[] s10]|] eqn:Hfree; [|done].
    intros [= <- <-].
    assert (gave_up process (error_closed F flags hd_in hd_out hd_err) s3 s10) as Hg.
    { apply (returned_early process _ s3 s3 s9 s10 Hs3 (opened_refl s3 Hs3)); [|done].
      apply (closed_nil_trans _ _ _ _ H36). apply (closed_nil_trans _ _ _ _ Hpi).
      apply (closed_nil_trans _ _ _ _ H8 H9). }
    destruct (error_exit _ _ process s s3 s10 Hpos Hop123 Hg) as (? & ? & ? & ? & ?);
      [intros h Hh _; by apply made_error_closed|].
    left. by split_and!.
Qed.

(** The same when the caller takes the process object: a success leaves
    the object with a new process handle and the caller's ends of the
    pipes that were asked for, and nothing else that the call has opened
    is open. *)
Lemma spawn_attached_spec process pgmname cmdline spawn_cb arg r pr s res s' :
  0 < next s -> no_handle_from_next s ->
  heap s !! process = Some pr ->
  spawn_attached w F flags process pgmname cmdline spawn_cb arg (Some r) s
  = Some (res, s') ->
  fds s' = fds s /\ streams s' = streams s
  /\ ((res <> Code GPG_ERR_NO_ERROR
       /\ mem s' = mem s /\ heap s' = delete process (heap s)
       /\ (forall h i, handles s' !! h = Some i -> handles s !! h = Some i))
      \/ (res = Code GPG_ERR_NO_ERROR
          /\ exists hProcess hd_in hd_out hd_err,
               mem s' = <[r:=process]> (mem s)
               /\ heap s'
                  = <[process:=Process.mk_process (Process.pgmname pr) false
                                 (Process.flags pr) hProcess hd_in hd_out hd_err (-1)]>
                      (heap s)
               /\ handles s !! hProcess = None
               /\ handles s' !! hProcess = Some (mk_info Spawn.Process_handle false)
               /\ caller_end pin Spawn.Pipe_write hd_in s s'
               /\ caller_end pout Spawn.Pipe_read hd_out s s'
               /\ caller_end perr Spawn.Pipe_read hd_err s s'
               /\ (handles s !! INVALID_HANDLE_VALUE = None ->
                   forall h, h ∉ [hProcess; hd_in; hd_out; hd_err] ->
                             handles s' !! h = handles s !! h))).
Proof.
  intros Hpos Hs Hpr Hrun.
  destruct (spawn_attached_runs _ _ _ _ _ _ _ _ _ _ Hpos Hs Hpr Hrun)
    as [(? & ? & ? & ? & ? & ?)
       |(hd_in & hd_out & hd_err & sca & n1 & n2 & s3 & s7 & Hop & Hn1 & Hn2 & Hn3 & E1 & E2
         & E3 & Hf7 & Hst7 & Hh7 & Hm7 & Hl7 & Hfin)].
  { split_and!; [done..|]. left. by split_and!. }
  apply (resume_and_record_spec _ _ _ _ _ _ _ _ pr) in Hfin; [|by rewrite Hh7].
  destruct Hfin as (-> & Hn' & Hf' & Hst' & Hh' & Hm' & Hl').
  split; [congruence|]. split; [congruence|]. right. split; [done|].
  exists (next s3), hd_in.2, hd_out.1, hd_err.1.
  split; [congruence|]. split; [congruence|].
  by apply (success_facts hd_in hd_out hd_err (next s3) (next s3 + 1) n1 n2 s s3 s7 s').
Qed.

End Blocks.

Section Calls.

Variable w : os.
Variable F : process_flags.
Variable flags : Z.

Local Abbreviation build :=
  (Cmdline.build_w32_commandline (xtrymalloc w) (errno w) (default_errsource w)).
Local Abbreviation spawn := (gnupg_process_spawn w F flags).

(** How far every call gets that does not stop at the command line or
    at the allocation of the object. *)
Lemma spawn_prologue pgmname argv spawn_cb arg r_process s :
  fresh s ->
  match build pgmname argv with
  | Cmdline.Fault => spawn pgmname argv spawn_cb arg r_process s = None
  | Cmdline.Error err =>
      spawn pgmname argv spawn_cb arg r_process s
      = Some (Error_value err, result_cleared r_process s)
  | Cmdline.Ok cmdline =>
      match xtrymalloc_process w (clock s) with
      | None =>
          spawn pgmname argv spawn_cb arg r_process s
          = Some (Code (gpg_err_code_from_syserror (errno w)),
                  mk_state (handles s) (fds s) (streams s) (heap s)
                    (match r_process with Some r => <[r:=0]> (mem s) | None => mem s end)
                    (next s) (S (clock s)) (trace s))
      | Some junk =>
          spawn pgmname argv spawn_cb arg r_process s
          = dispatch w F flags (next s) pgmname cmdline spawn_cb arg r_process
              (at_flags pgmname flags junk r_process s)
      end
  end.
Proof.
  intros [Hpos _]. unfold gnupg_process_spawn, dispatch, at_flags.
  destruct (build pgmname argv) as [cmdline|err|].
  - destruct (xtrymalloc_process w (clock s)) as [junk|] eqn:Hm.
    + destruct r_process as [r|]; unfold bind at 1; simpl.
      all: unfold bind at 1, new_process at 1, bind at 1, ask at 1; simpl; rewrite Hm; simpl.
      all: rewrite (proj2 (Z.eqb_neq (next s) 0)) by lia.
      all: unfold bind at 1, lift at 1, Process.deref at 1; simpl.
      all: rewrite lookup_insert, decide_True by done; simpl.
      all: unfold bind at 1, lift at 1, Process.assign at 1; simpl.
      all: rewrite lookup_insert, decide_True by done; simpl.
      all: rewrite insert_insert_eq, !app_nil_r; reflexivity.
    + destruct r_process as [r|]; unfold bind at 1; simpl.
      all: unfold bind at 1, new_process at 1, bind at 1, ask at 1; simpl; rewrite Hm; simpl.
      all: reflexivity.
  - destruct r_process as [r|]; reflexivity.
  - destruct r_process as [r|]; reflexivity.
Qed.

Lemma at_flags_ready pgmname junk r_process s :
  fresh s ->
  let s_a := at_flags pgmname flags junk r_process s in
  0 < next s_a /\ no_handle_from_next s_a
  /\ heap s_a !! next s = Some (initial_object pgmname flags junk).
Proof.
  intros [Hpos Hfresh]. cbv zeta. unfold at_flags, no_handle_from_next. simpl.
  split_and!; [lia | |].
  - intros h Hh. apply Hfresh. lia.
  - rewrite lookup_insert. by rewrite decide_True.
Qed.

Lemma xfree_at_flags pgmname junk r_process s :
  fresh s ->
  exists s', xfree (next s) (at_flags pgmname flags junk r_process s) = Some (tt, s')
             /\ handles s' = handles s /\ fds s' = fds s /\ streams s' = streams s
             /\ heap s' = heap s
             /\ mem s' = mem (result_cleared r_process s)
             /\ created (trace s') = created (trace s).
Proof.
  intros Hfresh. unfold xfree, lift, Process.xfree, at_flags. simpl.
  rewrite lookup_insert, decide_True by done. simpl.
  eexists. split; [reflexivity|]. simpl. split_and!; try done.
  - apply delete_insert_id. fresh_lookup Hfresh.
  - by destruct r_process.
  - unfold created. rewrite flat_map_app. simpl. by rewrite app_nil_r.
Qed.

(** X20: when gnupg_process_spawn for a process that is not detached is
    given the address of a result variable and returns anything but 0,
    it has left NULL in the variable, has freed the process object, and
    no handle that it has opened is open: whatever is open afterwards
    was open before the call, and the tables of descriptors and streams
    are unchanged. *)
Theorem spawn_failure_leaves_nothing pgmname argv spawn_cb arg r s res s' :
  fresh s ->
  Spawn.has_flag flags (GNUPG_PROCESS_DETACHED F) = false ->
  spawn pgmname argv spawn_cb arg (Some r) s = Some (res, s') ->
  res <> Code GPG_ERR_NO_ERROR ->
  mem s' = <[r:=0]> (mem s) /\ heap s' = heap s
  /\ fds s' = fds s /\ streams s' = streams s
  /\ (forall h i, handles s' !! h = Some i -> handles s !! h = Some i).
Proof.
  intros Hfresh Hdet Hrun Hres.
  pose proof (spawn_prologue pgmname argv spawn_cb arg (Some r) s Hfresh) as Hpro.
  destruct (build pgmname argv) as [cmdline|err|]; [| |congruence].
  - destruct (xtrymalloc_process w (clock s)) as [junk|].
    + rewrite Hpro in Hrun. clear Hpro. unfold dispatch in Hrun. rewrite Hdet in Hrun.
      destruct (Spawn.has_flag flags (GNUPG_PROCESS_STDINOUT_SOCKETPAIR F)).
      * destruct (xfree_at_flags pgmname junk (Some r) s Hfresh)
          as (s1 & E1 & ? & ? & ? & ? & ? & _).
        rewrite (bind_step _ _ _ _ _ E1) in Hrun. injection Hrun as <- <-.
        split_and!; try done. intros h i. congruence.
      * destruct (at_flags_ready pgmname junk (Some r) s Hfresh) as (Hpos & Hs & Hpr).
        destruct (spawn_attached_spec w F flags _ _ _ _ _ _ _ _ _ _ Hpos Hs Hpr Hrun)
          as (Hf & Hst & [(_ & Hm & Hh & Hl)|[? _]]); [|done].
        split_and!; try done.
        rewrite Hh. simpl. apply delete_insert_id. fresh_lookup Hfresh.
    + rewrite Hpro in Hrun. injection Hrun as <- <-. by split_and!.
  - rewrite Hpro in Hrun. injection Hrun as <- <-. by split_and!.
Qed.

(** X21: when gnupg_process_spawn for a process that is not detached is
    given the address of a result variable and returns 0, the variable
    holds the address of a new process object with the program name,
    the flags, exit code -1 and the flag terminated unset; its hProcess
    is a new, open process handle that is not inheritable; hd_in, hd_out
    and hd_err are, where a pipe was asked for, the caller's end of a
    new pipe (the write end for stdin, the read end for stdout and
    stderr), open and not inheritable, and INVALID_HANDLE_VALUE
    otherwise; and apart from these four the handle table is as it was:
    the child's ends of the pipes, the handles of the null device and
    the thread handle have been closed, and no handle of the caller has
    been. *)
Theorem spawn_hands_over_the_process pgmname argv spawn_cb arg r s s' :
  fresh s -> handles s !! INVALID_HANDLE_VALUE = None ->
  Spawn.has_flag flags (GNUPG_PROCESS_DETACHED F) = false ->
  spawn pgmname argv spawn_cb arg (Some r) s = Some (Code GPG_ERR_NO_ERROR, s') ->
  exists process hProcess hd_in hd_out hd_err,
    process <> 0 /\ heap s !! process = None
    /\ mem s' = <[r:=process]> (mem s)
    /\ heap s' = <[process:=spawned_object pgmname flags hProcess hd_in hd_out hd_err]>
                   (heap s)
    /\ handles s !! hProcess = None
    /\ handles s' !! hProcess = Some (mk_info Spawn.Process_handle false)
    /\ caller_end (stdin_pipe F flags) Spawn.Pipe_write hd_in s s'
    /\ caller_end (stdout_pipe F flags) Spawn.Pipe_read hd_out s s'
    /\ caller_end (stderr_pipe F flags) Spawn.Pipe_read hd_err s s'
    /\ (forall h, h ∉ [hProcess; hd_in; hd_out; hd_err] ->
                  handles s' !! h = handles s !! h)
    /\ fds s' = fds s /\ streams s' = streams s.
Proof.
  intros Hfresh Hinv Hdet Hrun.
  pose proof (spawn_prologue pgmname argv spawn_cb arg (Some r) s Hfresh) as Hpro.
  destruct (build pgmname argv) as [cmdline|err|]; [| |congruence].
  - destruct (xtrymalloc_process w (clock s)) as [junk|].
    + rewrite Hpro in Hrun. clear Hpro. unfold dispatch in Hrun. rewrite Hdet in Hrun.
      destruct (Spawn.has_flag flags (GNUPG_PROCESS_STDINOUT_SOCKETPAIR F)).
      * destruct (xfree_at_flags pgmname junk (Some r) s Hfresh) as (s1 & E1 & _).
        rewrite (bind_step _ _ _ _ _ E1) in Hrun. by injection Hrun.
      * destruct (at_flags_ready pgmname junk (Some r) s Hfresh) as (Hpos & Hs & Hpr).
        destruct (spawn_attached_spec w F flags _ _ _ _ _ _ _ _ _ _ Hpos Hs Hpr Hrun)
          as (Hf & Hst & [[? _]|(_ & hProcess & hd_in & hd_out & hd_err & Hm & Hh & Hp0
                                 & Hp1 & Hin & Hout & Herr & Hrest)]); [done|].
        exists (next s), hProcess, hd_in, hd_out, hd_err.
        pose proof (proj1 Hfresh).
        split; [lia|]. split; [fresh_lookup Hfresh|].
        split; [rewrite Hm; simpl; apply insert_insert_eq|].
        split; [rewrite Hh; simpl; apply insert_insert_eq|].
        split_and!; try done. by apply Hrest.
    + rewrite Hpro in Hrun. injection Hrun as Hc _.
      pose proof (from_syserror_is_error (errno w)) as He. by rewrite Hc in He.
  - rewrite Hpro in Hrun. by injection Hrun.
Qed.

(** X22: gnupg_process_spawn rejects two combinations of flags before it
    opens anything: DETACHED together with a flag for the standard
    descriptors gives GPG_ERR_INV_FLAG, and STDINOUT_SOCKETPAIR without
    DETACHED gives GPG_ERR_NOT_SUPPORTED.  In both cases the process
    object has been freed, the handle table is untouched, no process has
    been created, and the result variable, if one is given, holds NULL. *)
Theorem spawn_rejects_flag_combinations pgmname argv spawn_cb arg r_process cmdline junk s :
  fresh s ->
  build pgmname argv = Cmdline.Ok cmdline ->
  xtrymalloc_process w (clock s) = Some junk ->
  (Spawn.has_flag flags (GNUPG_PROCESS_DETACHED F) = true
   /\ Spawn.has_flag flags (GNUPG_PROCESS_STDFDS_SETTING F) = true)
  \/ (Spawn.has_flag flags (GNUPG_PROCESS_DETACHED F) = false
      /\ Spawn.has_flag flags (GNUPG_PROCESS_STDINOUT_SOCKETPAIR F) = true) ->
  exists s',
    spawn pgmname argv spawn_cb arg r_process s
    = Some (Code (if Spawn.has_flag flags (GNUPG_PROCESS_DETACHED F)
                  then GPG_ERR_INV_FLAG else GPG_ERR_NOT_SUPPORTED), s')
    /\ handles s' = handles s /\ fds s' = fds s /\ streams s' = streams s
    /\ heap s' = heap s
    /\ mem s' = mem (result_cleared r_process s)
    /\ created (trace s') = created (trace s).
Proof.
  intros Hfresh Hb Hm Hflags.
  pose proof (spawn_prologue pgmname argv spawn_cb arg r_process s Hfresh) as Hpro.
  rewrite Hb, Hm in Hpro. rewrite Hpro. unfold dispatch.
  destruct (xfree_at_flags pgmname junk r_process s Hfresh) as (s1 & E1 & H1).
  exists s1. destruct Hflags as [[-> ->]|[-> ->]]; by rewrite (bind_step _ _ _ _ _ E1).
Qed.

End Calls.


Section MoreCalls.

Variable w : os.
Variable F : process_flags.
Variable flags : Z.

Local Abbreviation build :=
  (Cmdline.build_w32_commandline (xtrymalloc w) (errno w) (default_errsource w)).
Local Abbreviation spawn := (gnupg_process_spawn w F flags).



(** X24: when the pipe for the child's standard output cannot be created
    and the child was to inherit the standard input of this process,
    gnupg_process_spawn returns the int -1 of create_inheritable_pipe
    and has closed the standard input handle of this process itself:
    the handle that GetStdHandle gave is no longer open, every other
    handle is as before, and the process object has been freed. *)
Theorem pipe_failure_closes_own_stdin pgmname argv spawn_cb arg r_process cmdline junk s :
  fresh s ->
  build pgmname argv = Cmdline.Ok cmdline ->
  xtrymalloc_process w (clock s) = Some junk ->
  Spawn.has_flag flags (GNUPG_PROCESS_DETACHED F) = false ->
  Spawn.has_flag flags (GNUPG_PROCESS_STDINOUT_SOCKETPAIR F) = false ->
  stdin_pipe F flags = false -> stdin_null F flags = false ->
  stdout_pipe F flags = true ->
  CreatePipe_ok w (S (clock s)) = false ->
  GetStdHandle w Spawn.Stdin <> INVALID_HANDLE_VALUE ->
  exists s',
    spawn pgmname argv spawn_cb arg r_process s = Some (Minus_one, s')
    /\ handles s' = delete (GetStdHandle w Spawn.Stdin) (handles s)
    /\ heap s' = heap s
    /\ mem s' = mem (result_cleared r_process s)
    /\ fds s' = fds s /\ streams s' = streams s.
Proof.
  intros Hfresh Hb Hm Hdet Hsock Hpin Hnin Hpout Hpipe Hstd.
  pose proof (spawn_prologue w F flags pgmname argv spawn_cb arg r_process s Hfresh) as Hpro.
  rewrite Hb, Hm in Hpro. rewrite Hpro. clear Hpro.
  unfold dispatch. rewrite Hdet, Hsock.
  unfold spawn_attached, setup_hd_in, setup_hd_out. rewrite Hpin, Hnin, Hpout.
  unfold create_inheritable_pipe, close_if_valid, xfree, lift, Process.xfree, bind, ask,
    ret, when, CloseHandle, at_flags.
  simpl. rewrite Hpipe. simpl.
  rewrite (proj2 (Z.eqb_neq (GetStdHandle w Spawn.Stdin) INVALID_HANDLE_VALUE)) by done.
  simpl. rewrite lookup_insert, decide_True by done. simpl.
  eexists. split; [reflexivity|]. simpl. split_and!; try done.
  - apply delete_insert_id. fresh_lookup Hfresh.
  - by destruct r_process.
Qed.

(** X25: gnupg_process_spawn with the flag DETACHED and no flag for the
    standard descriptors stores the address of the new object in the
    caller's variable before it starts anything, so a call without a
    result variable dereferences NULL.  With a variable, the handle
    table is as before and the variable holds the address of the object
    whatever the result.  When gnupg_access reports an error, that
    error is the result, CreateProcessW is not called, and the object
    has been freed although the variable still holds its address.
    Otherwise, when utf8_to_wchar fails for the program name or the
    command line, the result is GPG_ERR_GENERAL, CreateProcessW is not
    called and the object stays allocated.  Otherwise CreateProcessW is
    called once, detached and in a new process group, without standard
    handles or handle list: when it fails, the result is
    GPG_ERR_GENERAL and the object stays allocated; when it succeeds,
    the result is 0 and the object is marked terminated with all four
    handles invalid and exit code -1. *)
Theorem detached_spawn_outcome pgmname argv spawn_cb arg cmdline junk s :
  fresh s ->
  build pgmname argv = Cmdline.Ok cmdline ->
  xtrymalloc_process w (clock s) = Some junk ->
  Spawn.has_flag flags (GNUPG_PROCESS_DETACHED F) = true ->
  Spawn.has_flag flags (GNUPG_PROCESS_STDFDS_SETTING F) = false ->
  let converted :=
    utf8_to_wchar_ok w (S (clock s)) && utf8_to_wchar_ok w (S (S (clock s))) in
  let call :=
    Ev_CreateProcessW pgmname (Cmdline.c_str cmdline)
      (ask_inherit (call_spawn_cb spawn_cb (detached_sca arg)))
      [CREATE_DEFAULT_ERROR_MODE; PRIORITY_CLASS; CREATE_NEW_PROCESS_GROUP;
       DETACHED_PROCESS] None None in
  spawn pgmname argv spawn_cb arg None s = None
  /\ forall r, exists res s' process,
       spawn pgmname argv spawn_cb arg (Some r) s = Some (res, s')
       /\ process <> 0 /\ heap s !! process = None
       /\ mem s' = <[r:=process]> (mem s)
       /\ handles s' = handles s /\ fds s' = fds s /\ streams s' = streams s
       /\ (if is_error (gnupg_access w pgmname) then
             res = Code (gnupg_access w pgmname)
             /\ created (trace s') = created (trace s)
             /\ heap s' = heap s
           else if negb converted then
             res = Code GPG_ERR_GENERAL
             /\ created (trace s') = created (trace s)
             /\ heap s' = <[process:=initial_object pgmname flags junk]> (heap s)
           else if CreateProcessW_ok w (S (S (S (clock s)))) then
             res = Code GPG_ERR_NO_ERROR
             /\ created (trace s') = created (trace s) ++ [call]
             /\ heap s' = <[process:=detached_object pgmname flags]> (heap s)
           else
             res = Code GPG_ERR_GENERAL
             /\ created (trace s') = created (trace s) ++ [call]
             /\ heap s' = <[process:=initial_object pgmname flags junk]> (heap s)).
Proof.
  intros Hfresh Hb Hm Hdet Hstd. cbv zeta. split.
  - pose proof (spawn_prologue w F flags pgmname argv spawn_cb arg None s Hfresh) as Hpro.
    rewrite Hb, Hm in Hpro. rewrite Hpro. unfold dispatch. by rewrite Hdet, Hstd.
  - intros r.
    pose proof (spawn_prologue w F flags pgmname argv spawn_cb arg (Some r) s Hfresh) as Hpro.
    rewrite Hb, Hm in Hpro. rewrite Hpro. clear Hpro.
    pose proof (proj1 Hfresh) as Hpos.
    assert (heap s !! next s = None) as Hnone by fresh_lookup Hfresh.
    assert (handles s !! next s = None) as Hh0 by fresh_lookup Hfresh.
    assert (handles s !! (next s + 1) = None) as Hh1 by fresh_lookup Hfresh.
    assert (handles s !! (next s + 1 + 1) = None) as Hh2 by fresh_lookup Hfresh.
    unfold dispatch. rewrite Hdet, Hstd.
    unfold spawn_detached, convert_both, CreateProcessW, xfree, lift, Process.xfree,
      Process.deref, Process.assign, bind, ask, emit, new_handle, CloseHandle, ret, poke,
      at_flags, detached_sca.
    simpl.
    destruct (is_error (gnupg_access w pgmname)) eqn:Hacc; simpl.
    + rewrite lookup_insert, decide_True by done. simpl.
      eexists _, _, (next s). split; [reflexivity|]. simpl.
      split_and!; try done; [lia | apply insert_insert_eq | |].
      * unfold created. rewrite !flat_map_app. simpl. by rewrite !app_nil_r.
      * by apply delete_insert_id.
    + destruct (utf8_to_wchar_ok w (S (clock s))) eqn:Hu1; simpl;
        [destruct (utf8_to_wchar_ok w (S (S (clock s)))) eqn:Hu2; simpl;
         [destruct (CreateProcessW_ok w (S (S (S (clock s))))) eqn:Hcp; simpl|]|].
      * rewrite lookup_insert, decide_True by done. simpl.
        rewrite lookup_insert, decide_True by done. simpl.
        eexists _, _, (next s). split; [reflexivity|]. simpl.
        split_and!; try done; [lia | apply insert_insert_eq | | | apply insert_insert_eq].
        { apply map_eq. intros h. rewrite !lookup_delete, !lookup_insert.
          repeat case_decide; subst; done. }
        unfold created. rewrite !flat_map_app. simpl. by rewrite !app_nil_r.
      * eexists _, _, (next s). split; [reflexivity|]. simpl.
        split_and!; try done; [lia | apply insert_insert_eq |].
        unfold created. rewrite !flat_map_app. simpl. by rewrite !app_nil_r.
      * eexists _, _, (next s). split; [reflexivity|]. simpl.
        split_and!; try done; [lia | apply insert_insert_eq |].
        unfold created. rewrite !flat_map_app. simpl. by rewrite !app_nil_r.
      * eexists _, _, (next s). split; [reflexivity|]. simpl.
        split_and!; try done; [lia | apply insert_insert_eq |].
        unfold created. rewrite !flat_map_app. simpl. by rewrite !app_nil_r.
Qed.

End MoreCalls.

Lemma spawn_failure_leaves_nothing_witness :
  fresh start
  /\ Spawn.has_flag 6 (GNUPG_PROCESS_DETACHED sample_flags) = false
  /\ exists s',
       gnupg_process_spawn os_no_process sample_flags 6 Spawn.sample_pgmname
         Spawn.sample_argv None 0 (Some 50) start = Some (Code GPG_ERR_GENERAL, s')
       /\ Code GPG_ERR_GENERAL <> Code GPG_ERR_NO_ERROR
       /\ mem s' = <[50:=0]> (mem start) /\ heap s' = heap start
       /\ fds s' = fds start /\ streams s' = streams start
       /\ (forall h i, handles s' !! h = Some i -> handles start !! h = Some i).
Proof.
  split; [exact start_fresh|]. split; [reflexivity|].
  destruct (gnupg_process_spawn os_no_process sample_flags 6 Spawn.sample_pgmname
              Spawn.sample_argv None 0 (Some 50) start) as [[res s']|] eqn:Hrun;
    [|by vm_compute in Hrun].
  assert (res = Code GPG_ERR_GENERAL) as -> by (vm_compute in Hrun; by injection Hrun as <- _).
  exists s'. split; [done|]. split; [done|].
  exact (spawn_failure_leaves_nothing os_no_process sample_flags 6 _ _ _ _ _ _ _ _
           start_fresh eq_refl Hrun ltac:(done)).
Defined.

Lemma spawn_hands_over_the_process_witness :
  fresh start /\ handles start !! INVALID_HANDLE_VALUE = None
  /\ Spawn.has_flag 6 (GNUPG_PROCESS_DETACHED sample_flags) = false
  /\ exists s',
       gnupg_process_spawn os_ok sample_flags 6 Spawn.sample_pgmname Spawn.sample_argv
         None 0 (Some 50) start = Some (Code GPG_ERR_NO_ERROR, s')
       /\ exists process hProcess hd_in hd_out hd_err,
            process <> 0 /\ heap start !! process = None
            /\ mem s' = <[50:=process]> (mem start)
            /\ heap s'
               = <[process:=spawned_object Spawn.sample_pgmname 6 hProcess hd_in hd_out
                              hd_err]> (heap start)
            /\ handles start !! hProcess = None
            /\ handles s' !! hProcess = Some (mk_info Spawn.Process_handle false)
            /\ caller_end (stdin_pipe sample_flags 6) Spawn.Pipe_write hd_in start s'
            /\ caller_end (stdout_pipe sample_flags 6) Spawn.Pipe_read hd_out start s'
            /\ caller_end (stderr_pipe sample_flags 6) Spawn.Pipe_read hd_err start s'
            /\ (forall h, h ∉ [hProcess; hd_in; hd_out; hd_err] ->
                          handles s' !! h = handles start !! h)
            /\ fds s' = fds start /\ streams s' = streams start.
Proof.
  split; [exact start_fresh|]. split; [reflexivity|]. split; [reflexivity|].
  destruct (gnupg_process_spawn os_ok sample_flags 6 Spawn.sample_pgmname Spawn.sample_argv
              None 0 (Some 50) start) as [[res s']|] eqn:Hrun; [|by vm_compute in Hrun].
  assert (res = Code GPG_ERR_NO_ERROR) as ->
    by (vm_compute in Hrun; by injection Hrun as <- _).
  exists s'. split; [done|].
  exact (spawn_hands_over_the_process os_ok sample_flags 6 _ _ _ _ _ _ _
           start_fresh eq_refl eq_refl Hrun).
Defined.

Lemma spawn_rejects_flag_combinations_witness :
  fresh start
  /\ exists cmdline,
       Cmdline.build_w32_commandline (xtrymalloc os_ok) (errno os_ok)
         (default_errsource os_ok) Spawn.sample_pgmname Spawn.sample_argv
       = Cmdline.Ok cmdline
       /\ xtrymalloc_process os_ok (clock start) = Some Process.running_process
       /\ ((Spawn.has_flag 3 (GNUPG_PROCESS_DETACHED sample_flags) = true
            /\ Spawn.has_flag 3 (GNUPG_PROCESS_STDFDS_SETTING sample_flags) = true)
           \/ (Spawn.has_flag 3 (GNUPG_PROCESS_DETACHED sample_flags) = false
               /\ Spawn.has_flag 3 (GNUPG_PROCESS_STDINOUT_SOCKETPAIR sample_flags) = true))
       /\ exists s',
            gnupg_process_spawn os_ok sample_flags 3 Spawn.sample_pgmname Spawn.sample_argv
              None 0 (Some 50) start
            = Some (Code (if Spawn.has_flag 3 (GNUPG_PROCESS_DETACHED sample_flags)
                          then GPG_ERR_INV_FLAG else GPG_ERR_NOT_SUPPORTED), s')
            /\ handles s' = handles start /\ fds s' = fds start
            /\ streams s' = streams start /\ heap s' = heap start
            /\ mem s' = mem (result_cleared (Some 50) start)
            /\ created (trace s') = created (trace start).
Proof.
  split; [exact start_fresh|].
  destruct (Cmdline.build_w32_commandline (xtrymalloc os_ok) (errno os_ok)
              (default_errsource os_ok) Spawn.sample_pgmname Spawn.sample_argv)
    as [cmdline|err|] eqn:Hb; [|by vm_compute in Hb..].
  exists cmdline. split; [done|]. split; [reflexivity|].
  assert ((Spawn.has_flag 3 (GNUPG_PROCESS_DETACHED sample_flags) = true
           /\ Spawn.has_flag 3 (GNUPG_PROCESS_STDFDS_SETTING sample_flags) = true)
          \/ (Spawn.has_flag 3 (GNUPG_PROCESS_DETACHED sample_flags) = false
              /\ Spawn.has_flag 3 (GNUPG_PROCESS_STDINOUT_SOCKETPAIR sample_flags) = true))
    as Hflags by (left; split; reflexivity).
  split; [exact Hflags|].
  exact (spawn_rejects_flag_combinations os_ok sample_flags 3 Spawn.sample_pgmname
           Spawn.sample_argv None 0 (Some 50) cmdline Process.running_process start
           start_fresh Hb eq_refl Hflags).
Defined.


Lemma pipe_failure_closes_own_stdin_witness :
  fresh start
  /\ exists cmdline,
       Cmdline.build_w32_commandline (xtrymalloc os_no_pipe) (errno os_no_pipe)
         (default_errsource os_no_pipe) Spawn.sample_pgmname Spawn.sample_argv
       = Cmdline.Ok cmdline
       /\ xtrymalloc_process os_no_pipe (clock start) = Some Process.running_process
       /\ Spawn.has_flag 4 (GNUPG_PROCESS_DETACHED sample_flags) = false
       /\ Spawn.has_flag 4 (GNUPG_PROCESS_STDINOUT_SOCKETPAIR sample_flags) = false
       /\ stdin_pipe sample_flags 4 = false /\ stdin_null sample_flags 4 = false
       /\ stdout_pipe sample_flags 4 = true
       /\ CreatePipe_ok os_no_pipe (S (clock start)) = false
       /\ GetStdHandle os_no_pipe Spawn.Stdin <> INVALID_HANDLE_VALUE
       /\ exists s',
            gnupg_process_spawn os_no_pipe sample_flags 4 Spawn.sample_pgmname
              Spawn.sample_argv None 0 (Some 50) start = Some (Minus_one, s')
            /\ handles s' = delete (GetStdHandle os_no_pipe Spawn.Stdin) (handles start)
            /\ heap s' = heap start
            /\ mem s' = mem (result_cleared (Some 50) start)
            /\ fds s' = fds start /\ streams s' = streams start.
Proof.
  split; [exact start_fresh|].
  destruct (Cmdline.build_w32_commandline (xtrymalloc os_no_pipe) (errno os_no_pipe)
              (default_errsource os_no_pipe) Spawn.sample_pgmname Spawn.sample_argv)
    as [cmdline|err|] eqn:Hb; [|by vm_compute in Hb..].
  exists cmdline. split; [done|]. do 7 (split; [reflexivity|]).
  assert (GetStdHandle os_no_pipe Spawn.Stdin <> INVALID_HANDLE_VALUE) as Hstd
    by (by vm_compute).
  split; [exact Hstd|].
  exact (pipe_failure_closes_own_stdin os_no_pipe sample_flags 4 Spawn.sample_pgmname
           Spawn.sample_argv None 0 (Some 50) cmdline Process.running_process start
           start_fresh Hb eq_refl eq_refl eq_refl eq_refl eq_refl eq_refl eq_refl Hstd).
Defined.

Lemma detached_spawn_outcome_witness :
  fresh start
  /\ exists cmdline,
       Cmdline.build_w32_commandline (xtrymalloc os_ok) (errno os_ok)
         (default_errsource os_ok) Spawn.sample_pgmname Spawn.sample_argv
       = Cmdline.Ok cmdline
       /\ xtrymalloc_process os_ok (clock start) = Some Process.running_process
       /\ Spawn.has_flag 1 (GNUPG_PROCESS_DETACHED sample_flags) = true
       /\ Spawn.has_flag 1 (GNUPG_PROCESS_STDFDS_SETTING sample_flags) = false
       /\ gnupg_process_spawn os_ok sample_flags 1 Spawn.sample_pgmname Spawn.sample_argv
            None 0 None start = None
       /\ exists s' process,
            gnupg_process_spawn os_ok sample_flags 1 Spawn.sample_pgmname Spawn.sample_argv
              None 0 (Some 50) start = Some (Code GPG_ERR_NO_ERROR, s')
            /\ process <> 0 /\ heap start !! process = None
            /\ mem s' = <[50:=process]> (mem start)
            /\ handles s' = handles start /\ fds s' = fds start
            /\ streams s' = streams start
            /\ created (trace s')
               = created (trace start)
                 ++ [Ev_CreateProcessW Spawn.sample_pgmname (Cmdline.c_str cmdline) false
                       [CREATE_DEFAULT_ERROR_MODE; PRIORITY_CLASS;
                        CREATE_NEW_PROCESS_GROUP; DETACHED_PROCESS] None None]
            /\ heap s' = <[process:=detached_object Spawn.sample_pgmname 1]> (heap start).
Proof.
  split; [exact start_fresh|].
  destruct (Cmdline.build_w32_commandline (xtrymalloc os_ok) (errno os_ok)
              (default_errsource os_ok) Spawn.sample_pgmname Spawn.sample_argv)
    as [cmdline|err|] eqn:Hb; [|by vm_compute in Hb..].
  exists cmdline. split; [done|]. do 3 (split; [reflexivity|]).
  destruct (detached_spawn_outcome os_ok sample_flags 1 Spawn.sample_pgmname
              Spawn.sample_argv None 0 cmdline Process.running_process start
              start_fresh Hb eq_refl eq_refl eq_refl) as [Hnull Hvar].
  split; [exact Hnull|].
  destruct (Hvar 50)
    as (res & s' & process & Hrun & Hp & Hnew & Hm & Hh & Hf & Hst & Hcase).
  simpl in Hcase. destruct Hcase as (-> & Hcreated & Hheap).
  exists s', process. by split_and!.
Defined.

End ProcessSpawnFacts.

(** ** gnupg_spawn_process, for every environment *)

Module SpawnResultsFacts.
Import MachInt Err Win32 Spawn SpawnResults ErrFacts.
Local Open Scope spawn_scope.

Lemma syserror_is_error w : syserror w <> no_error.
Proof.
  unfold syserror. rewrite gpg_err_make_no_error. intros H.
  pose proof (from_syserror_is_error (errno w)) as He. by rewrite H in He.
Qed.

Lemma general_is_error src : gpg_err_make src GPG_ERR_GENERAL <> no_error.
Proof. by rewrite gpg_err_make_no_error. Qed.

(** An early return with an error is not a success. *)
Ltac not_a_success Hrun Herr :=
  exfalso; injection Hrun as <- _; simpl in Herr;
  first [ by apply general_is_error in Herr
        | by apply syserror_is_error in Herr
        | by eapply SysFacts.build_error_is_error in Herr ].

(** The tests on handle and stream values that the freshness decides. *)
Ltac decide_tests Hrun :=
  repeat match type of Hrun with
    | context [?a =? ?b] =>
        first [ rewrite (proj2 (Z.eqb_neq a b)) in Hrun
                  by (unfold INVALID_HANDLE_VALUE; lia)
              | rewrite (Z.eqb_refl a) in Hrun ]
    end.

(** The streams that es_fclose looks up. *)
Ltac find_streams Hrun :=
  repeat first [ rewrite lookup_insert_eq in Hrun
               | rewrite lookup_insert_ne in Hrun by lia
               | rewrite lookup_delete_ne in Hrun by lia ].

(** Lookups in the tables that the call has changed. *)
Ltac look :=
  repeat first [ rewrite lookup_insert_eq
               | rewrite lookup_insert_ne by lia
               | rewrite lookup_delete_ne by lia
               | rewrite lookup_delete_eq ].

(** What the caller gets for one standard stream. *)
Ltac handed Hfresh :=
  first [ done
        | split; [lia|]; split; [apply Hfresh; lia|];
          eexists; split; [look; reflexivity|]; split; [apply Hfresh; lia|]; by look ].

(** Membership in a list that is written out. *)
Ltac among := repeat first [ apply list_elem_of_here | apply list_elem_of_further ].

(** The stream that owns a handle, among the three results. *)
Ltac owner :=
  first [ eexists; split; [|split; [apply list_elem_of_here|]]; [lia | by look]
        | eexists; split; [|split; [apply list_elem_of_further, list_elem_of_here|]];
          [lia | by look]
        | eexists; split;
          [|split; [apply list_elem_of_further, list_elem_of_further, list_elem_of_here|]];
          [lia | by look] ].

(** One question to the environment, answered both ways. *)
Ltac answer Hrun Herr b :=
  lazymatch type of Hrun with
  | context [b] =>
      destruct b eqn:?; simpl in Hrun; decide_tests Hrun; simpl in Hrun;
      repeat (progress (find_streams Hrun; simpl in Hrun));
      try (not_a_success Hrun Herr)
  | _ => idtac
  end.

Section Results.

Variable w : os.

(** All that is proved of a successful call, by the cases of its run. *)
Lemma spawn_success_facts pgmname argv flags r_infp r_outfp r_errfp s sp s' :
  unused_from_next s -> std_handles_known w s ->
  gnupg_spawn_process w pgmname argv flags r_infp r_outfp r_errfp s = (Some sp, s') ->
  sp_err sp = no_error ->
  stream_handed r_infp Pipe_write (sp_infp sp) s s'
  /\ stream_handed r_outfp Pipe_read (sp_outfp sp) s s'
  /\ stream_handed r_errfp Pipe_read (sp_errfp sp) s s'
  /\ (exists hProcess,
        sp_pid sp = to_int hProcess
        /\ handles s !! hProcess = None /\ handles s' !! hProcess = Some Process_handle
        /\ forall h k, handles s' !! h = Some k ->
              handles s !! h = Some k \/ h = hProcess
              \/ exists fp, fp <> 0 /\ fp ∈ [sp_infp sp; sp_outfp sp; sp_errfp sp]
                    /\ streams s' !! fp = Some h)
  /\ (forall fp h, streams s' !! fp = Some h ->
        streams s !! fp = Some h \/ fp ∈ [sp_infp sp; sp_outfp sp; sp_errfp sp])
  /\ (r_infp = false -> has_flag flags GNUPG_SPAWN_KEEP_STDIN = true ->
      std_input w <> INVALID_HANDLE_VALUE -> handles s' !! std_input w = None)
  /\ (r_outfp = false -> has_flag flags GNUPG_SPAWN_KEEP_STDOUT = true ->
      std_output w <> INVALID_HANDLE_VALUE -> handles s' !! std_output w = None)
  /\ (r_errfp = false -> has_flag flags GNUPG_SPAWN_KEEP_STDOUT = true ->
      std_error w <> INVALID_HANDLE_VALUE -> handles s' !! std_error w = None).
Proof.
  intros [Hpos Hfresh] (Hin & Hout & Herror) Hrun Herr.
  unfold gnupg_spawn_process, create_inheritable_pipe, w32_open_null, es_sysopen, failed,
    close_stream_or_handle, close_if_valid, es_fclose, new_stream, new_handle, CloseHandle,
    emit, when, bind, ret in Hrun.
  change (Z.land INHERIT_READ INHERIT_READ =? 0) with false in Hrun.
  change (Z.land INHERIT_READ INHERIT_WRITE =? 0) with true in Hrun.
  change (Z.land INHERIT_WRITE INHERIT_READ =? 0) with true in Hrun.
  change (Z.land INHERIT_WRITE INHERIT_WRITE =? 0) with false in Hrun.
  simpl in Hrun.
  answer Hrun Herr r_infp.
  all: answer Hrun Herr (CreatePipe_ok w Stdin).
  all: answer Hrun Herr (SetHandleInformation_ok w Stdin).
  all: answer Hrun Herr (es_sysopen_ok w Stdin).
  all: answer Hrun Herr r_outfp.
  all: answer Hrun Herr (CreatePipe_ok w Stdout).
  all: answer Hrun Herr (SetHandleInformation_ok w Stdout).
  all: answer Hrun Herr (es_sysopen_ok w Stdout).
  all: answer Hrun Herr r_errfp.
  all: answer Hrun Herr (CreatePipe_ok w Stderr).
  all: answer Hrun Herr (SetHandleInformation_ok w Stderr).
  all: answer Hrun Herr (es_sysopen_ok w Stderr).
  all: destruct (Cmdline.build_w32_commandline (xtrymalloc w) (errno w)
                   (default_errsource w) pgmname argv) as [cmdline|err|] eqn:Hb;
    simpl in Hrun;
    [| exfalso; injection Hrun as <- _; simpl in Herr;
       by apply (SysFacts.build_error_is_error _ _ _ _ _ _ Hb) | done].
  all: answer Hrun Herr (has_flag flags GNUPG_SPAWN_KEEP_STDIN).
  all: answer Hrun Herr (CreateFileW_nul_ok w Stdin).
  all: answer Hrun Herr (has_flag flags GNUPG_SPAWN_KEEP_STDOUT).
  all: answer Hrun Herr (CreateFileW_nul_ok w Stdout).
  all: answer Hrun Herr (CreateFileW_nul_ok w Stderr).
  all: answer Hrun Herr (utf8_to_wchar_ok w false).
  all: answer Hrun Herr (utf8_to_wchar_ok w true).
  all: answer Hrun Herr (CreateProcessW_ok w).
  all: answer Hrun Herr (std_input w =? INVALID_HANDLE_VALUE).
  all: answer Hrun Herr (std_output w =? INVALID_HANDLE_VALUE).
  all: answer Hrun Herr (std_error w =? INVALID_HANDLE_VALUE).
  all: answer Hrun Herr (has_flag flags GNUPG_SPAWN_RUN_ASFW).
  all: injection Hrun as <- <-.
  all: clear Herr Hb.
  all: repeat match goal with H : (_ =? _) = _ |- _ => first [apply Z.eqb_eq in H | apply Z.eqb_neq in H] end.
  all: unfold stream_handed; simpl.
  all: do 3 (split; [handed Hfresh|]).
  all: split;
    [eexists; split; [reflexivity|]; split; [apply Hfresh; lia|]; split; [by look|];
     intros h k; rewrite ?lookup_delete, ?lookup_insert;
     repeat case_decide; subst; try done; intros [= <-];
     first [ by left | by right; left | right; right; owner ]|].
  all: split;
    [intros fp h; rewrite ?lookup_insert; repeat case_decide; subst; try done;
     first [ by left | intros _; right; among ]|].
  all: split_and!; intros; try done; try lia;
    rewrite ?lookup_delete, ?lookup_insert; repeat case_decide; subst; try done; try lia.
Qed.

(** X26: when gnupg_spawn_process returns 0, the caller has what it asked
    for and nothing else is left of the call.  For each stream it asked
    for it gets a new, non-NULL stream that owns the caller's end of a
    new pipe (the write end for the child's standard input, the read
    end for its standard output and standard error), and NULL is left
    where it did not ask; the pid is the handle of the new process,
    which is open; every other handle that is open afterwards was open
    before the call or is owned by one of these streams, so the child's
    ends of the pipes, the handles of the null device and the thread
    handle have all been closed; and no other stream has been made. *)
Theorem spawn_success_hands_over pgmname argv flags r_infp r_outfp r_errfp s sp s' :
  unused_from_next s -> std_handles_known w s ->
  gnupg_spawn_process w pgmname argv flags r_infp r_outfp r_errfp s = (Some sp, s') ->
  sp_err sp = no_error ->
  stream_handed r_infp Pipe_write (sp_infp sp) s s'
  /\ stream_handed r_outfp Pipe_read (sp_outfp sp) s s'
  /\ stream_handed r_errfp Pipe_read (sp_errfp sp) s s'
  /\ (exists hProcess,
        sp_pid sp = to_int hProcess
        /\ handles s !! hProcess = None /\ handles s' !! hProcess = Some Process_handle
        /\ forall h k, handles s' !! h = Some k ->
              handles s !! h = Some k \/ h = hProcess
              \/ exists fp, fp <> 0 /\ fp ∈ [sp_infp sp; sp_outfp sp; sp_errfp sp]
                    /\ streams s' !! fp = Some h)
  /\ (forall fp h, streams s' !! fp = Some h ->
        streams s !! fp = Some h \/ fp ∈ [sp_infp sp; sp_outfp sp; sp_errfp sp]).
Proof.
  intros Hs Hstd Hrun Herr.
  destruct (spawn_success_facts _ _ _ _ _ _ _ _ _ Hs Hstd Hrun Herr)
    as (Hi & Ho & He & Hp & Hst & _).
  by split_and!.
Qed.

(** X27: a successful gnupg_spawn_process closes the standard handles of
    the calling process that it was told to keep for the child.  When
    no stream is asked for the child's standard input and KEEP_STDIN is
    set, the handle that GetStdHandle gave for the standard input of
    this process is closed after the child has been created; the same
    holds for the standard output with KEEP_STDOUT, and for the standard
    error, for which the code also tests KEEP_STDOUT. *)
Theorem kept_standard_handles_are_closed pgmname argv flags r_infp r_outfp r_errfp s sp s' :
  unused_from_next s -> std_handles_known w s ->
  gnupg_spawn_process w pgmname argv flags r_infp r_outfp r_errfp s = (Some sp, s') ->
  sp_err sp = no_error ->
  (r_infp = false -> has_flag flags GNUPG_SPAWN_KEEP_STDIN = true ->
   std_input w <> INVALID_HANDLE_VALUE -> handles s' !! std_input w = None)
  /\ (r_outfp = false -> has_flag flags GNUPG_SPAWN_KEEP_STDOUT = true ->
      std_output w <> INVALID_HANDLE_VALUE -> handles s' !! std_output w = None)
  /\ (r_errfp = false -> has_flag flags GNUPG_SPAWN_KEEP_STDOUT = true ->
      std_error w <> INVALID_HANDLE_VALUE -> handles s' !! std_error w = None).
Proof.
  intros Hs Hstd Hrun Herr.
  destruct (spawn_success_facts _ _ _ _ _ _ _ _ _ Hs Hstd Hrun Herr)
    as (_ & _ & _ & _ & _ & Hin & Hout & Herror).
  by split_and!.
Qed.

End Results.

Lemma start_unused : unused_from_next start.
Proof.
  split; [simpl; lia|]. intros h Hh. simpl in *.
  split; rewrite ?lookup_insert, ?lookup_singleton, ?lookup_empty;
    repeat case_decide; try lia; done.
Qed.

Lemma spawn_success_hands_over_witness :
  unused_from_next start /\ std_handles_known os_ok start
  /\ exists sp s',
       gnupg_spawn_process os_ok sample_pgmname sample_argv 0 true true false start
       = (Some sp, s')
       /\ sp_err sp = no_error
       /\ stream_handed true Pipe_write (sp_infp sp) start s'
       /\ stream_handed true Pipe_read (sp_outfp sp) start s'
       /\ stream_handed false Pipe_read (sp_errfp sp) start s'
       /\ (exists hProcess,
             sp_pid sp = to_int hProcess
             /\ handles start !! hProcess = None
             /\ handles s' !! hProcess = Some Process_handle
             /\ forall h k, handles s' !! h = Some k ->
                   handles start !! h = Some k \/ h = hProcess
                   \/ exists fp, fp <> 0 /\ fp ∈ [sp_infp sp; sp_outfp sp; sp_errfp sp]
                         /\ streams s' !! fp = Some h)
       /\ (forall fp h, streams s' !! fp = Some h ->
             streams start !! fp = Some h \/ fp ∈ [sp_infp sp; sp_outfp sp; sp_errfp sp]).
Proof.
  assert (std_handles_known os_ok start) as Hstd by (unfold std_handles_known; simpl; lia).
  split; [exact start_unused|]. split; [exact Hstd|].
  destruct (gnupg_spawn_process os_ok sample_pgmname sample_argv 0 true true false start)
    as [[sp|] s'] eqn:Hrun; [|by vm_compute in Hrun].
  assert (sp_err sp = no_error) as Herr
    by (vm_compute in Hrun; by injection Hrun as <- _).
  exists sp, s'. split; [done|]. split; [exact Herr|].
  exact (spawn_success_hands_over os_ok _ _ _ _ _ _ _ _ _ start_unused Hstd Hrun Herr).
Defined.

Lemma kept_standard_handles_are_closed_witness :
  unused_from_next start /\ std_handles_known os_ok start
  /\ exists sp s',
       gnupg_spawn_process os_ok sample_pgmname sample_argv GNUPG_SPAWN_KEEP_STDIN
         false false false start = (Some sp, s')
       /\ sp_err sp = no_error
       /\ handles start !! std_input os_ok = Some Std_handle
       /\ handles s' !! std_input os_ok = None.
Proof.
  assert (std_handles_known os_ok start) as Hstd by (unfold std_handles_known; simpl; lia).
  split; [exact start_unused|]. split; [exact Hstd|].
  destruct (gnupg_spawn_process os_ok sample_pgmname sample_argv GNUPG_SPAWN_KEEP_STDIN
              false false false start) as [[sp|] s'] eqn:Hrun; [|by vm_compute in Hrun].
  assert (sp_err sp = no_error) as Herr
    by (vm_compute in Hrun; by injection Hrun as <- _).
  exists sp, s'. split; [done|]. split; [exact Herr|]. split; [reflexivity|].
  destruct (kept_standard_handles_are_closed os_ok _ _ _ _ _ _ _ _ _ start_unused Hstd Hrun
              Herr) as (Hin & _).
  by apply Hin.
Defined.

End SpawnResultsFacts.
